(** * covrev: covenant-section extraction heuristics

    A shallow embedding of the two section extractors of the repository,

    - the line-window extractor, [src/covenant_extractor/regex_patterns.py]
      and [src/covenant_extractor/extractor.py] (modules [LineWindow] and
      [Iterables]);
    - the span-based extractor,
      [covenant-extraction/src/regex_extractor.py] (modules [SpanBased] and
      [SpanReport]), and the metrics of
      [covenant-extraction/src/evaluation.py] (module [Evaluation]);
    - the LLM bridge, [llm_extract_covenants] (module [LlmBridge]),

    followed by the properties of the specification that concern them.

    Modelling conventions.

    - A Python [str] is a [list ascii]; the 256 characters are read as the
      code points U+0000..U+00FF, and the character predicates
      ([str.isspace], [str.isupper], [str.lower], the regex classes [\s],
      [\d], [\w]) are the ones Python has on these code points.
    - A Python [int] is a [Z]; indices into a list or a string that can
      never be negative are [nat].
    - A Python [float] is the value of a binary64 number, a rational of
      [Q], and an operation on floats rounds the exact result to the
      nearest float (module [PyFloat]): the weights [0.6], [0.4] and the
      thresholds [0.3], [0.6], [0.7] are the floats nearest to these
      decimals.  The metrics of [Evaluation] alone are computed in exact
      rationals.
    - An insertion-ordered [dict] is an association list with unique keys.
    - The patterns of the line-window extractor are terms of [Regex.regex],
      matched by a backtracking matcher that decides whether a match
      exists.  In the span-based extractor [re.finditer] and [str.title],
      whose results the extractor only passes on, are parameters of the
      model: its properties hold for every list of matches.
    - Output to the console is left out. *)

From Stdlib Require Import Ascii String.
From Stdlib Require Import List Bool Arith ZArith QArith Qminmax Qround Qpower.
From Stdlib Require Import Lia Lqa.
From Stdlib Require Import Sorting.Sorted Sorting.Permutation.
From Stdlib Require Import Relations.Relation_Operators.
From Equations Require Import Equations.
Import ListNotations.

Close Scope Q_scope.

(* ===================================================================== *)
(** * Python strings *)
(* ===================================================================== *)

Module PyStr.

Definition str := list ascii.

(** String literals: [py "abc"] is the Python string ['abc']. *)
Definition py (s : string) : str := list_ascii_of_string s.

Definition code (c : ascii) : nat := nat_of_ascii c.

Definition in_range (lo hi : nat) (c : ascii) : bool :=
  (lo <=? code c) && (code c <=? hi).

Definition nl : ascii := ascii_of_nat 10.
Definition cr : ascii := ascii_of_nat 13.
Definition space : ascii := ascii_of_nat 32.

(** [str.isspace] on one character, which is also the regex class [\s] of
    a [str] pattern: TAB, LF, VT, FF, CR, FS, GS, RS, US, SPACE, NEL and
    NBSP. *)
Definition is_space (c : ascii) : bool :=
  in_range 9 13 c || in_range 28 32 c
  || (code c =? 133) || (code c =? 160).

(** ASCII capital and small letters. *)
Definition is_ascii_upper (c : ascii) : bool := in_range 65 90 c.
Definition is_ascii_lower (c : ascii) : bool := in_range 97 122 c.

(** [str.isupper] on one character: [A-Z], and the capital letters
    U+00C0..U+00DE except the multiplication sign U+00D7. *)
Definition is_upper (c : ascii) : bool :=
  is_ascii_upper c || (in_range 192 222 c && negb (code c =? 215)).

(** The regex class [\d] of a [str] pattern; the only decimal digits below
    U+0100 are [0-9]. *)
Definition is_digit (c : ascii) : bool := in_range 48 57 c.

(** [str.lower] on one character. *)
Definition char_lower (c : ascii) : ascii :=
  if is_upper c then ascii_of_nat (code c + 32) else c.

Definition lower (s : str) : str := map char_lower s.

(** Two characters match under [re.IGNORECASE]. *)
Definition eq_ci (a b : ascii) : bool :=
  Ascii.eqb (char_lower a) (char_lower b).

(** The regex class [\w] of a [str] pattern: [str.isalnum] or underscore.
    Below U+0100 the alphanumerics are the ASCII letters and digits, the
    letters U+00C0..U+00FF other than the two signs U+00D7 and U+00F7,
    the letters U+00AA, U+00B5, U+00BA, and the numerics U+00B2, U+00B3,
    U+00B9, U+00BC..U+00BE. *)
Definition is_word (c : ascii) : bool :=
  is_ascii_upper c || is_ascii_lower c || is_digit c || (code c =? 95)
  || (in_range 192 255 c && negb (code c =? 215) && negb (code c =? 247))
  || (code c =? 170) || (code c =? 181) || (code c =? 186)
  || (code c =? 178) || (code c =? 179) || (code c =? 185)
  || in_range 188 190 c.

(** [str.lstrip], [str.rstrip], [str.strip] with no argument. *)
Fixpoint lstrip (s : str) : str :=
  match s with
  | [] => []
  | c :: s' => if is_space c then lstrip s' else s
  end.

Definition rstrip (s : str) : str := rev (lstrip (rev s)).

Definition strip (s : str) : str := rstrip (lstrip s).

(** [str.replace(a, b)] for one-character [a] and [b]. *)
Definition replace1 (a b : ascii) (s : str) : str :=
  map (fun c => if Ascii.eqb c a then b else c) s.

(** [re.sub(r"\s+", " ", s)]: every maximal run of white space becomes one
    space.  [in_run] says that the previous character was white space. *)
Fixpoint sub_ws_from (in_run : bool) (s : str) : str :=
  match s with
  | [] => []
  | c :: s' =>
      if is_space c
      then (if in_run then sub_ws_from true s'
            else space :: sub_ws_from true s')
      else c :: sub_ws_from false s'
  end.

Definition sub_ws (s : str) : str := sub_ws_from false s.

(** [str.split()] with no argument: the maximal runs of non-space
    characters.  [cur] is the word being read, reversed. *)
Fixpoint split_from (cur : str) (s : str) : list str :=
  match s with
  | [] => match cur with [] => [] | _ => [rev cur] end
  | c :: s' =>
      if is_space c
      then match cur with
           | [] => split_from [] s'
           | _ => rev cur :: split_from [] s'
           end
      else split_from (c :: cur) s'
  end.

Definition split (s : str) : list str := split_from [] s.

(** The line boundaries of [str.splitlines] below U+0100: LF, VT, FF, CR,
    FS, GS, RS and NEL. *)
Definition is_linebreak (c : ascii) : bool :=
  in_range 10 13 c || in_range 28 30 c || (code c =? 133).

(** [str.splitlines()]: CR LF counts as one boundary, and a boundary at the
    very end opens no further line.  [cur] is the line being read,
    reversed; [after_cr] says that the previous character was a CR. *)
Fixpoint splitlines_from (cur : str) (after_cr : bool) (s : str)
  : list str :=
  match s with
  | [] => match cur with [] => [] | _ => [rev cur] end
  | c :: s' =>
      if after_cr && Ascii.eqb c nl then splitlines_from cur false s'
      else if is_linebreak c
           then rev cur :: splitlines_from [] (Ascii.eqb c cr) s'
           else splitlines_from (c :: cur) false s'
  end.

Definition splitlines (s : str) : list str := splitlines_from [] false s.

(** [sep.join(parts)]. *)
Fixpoint join (sep : str) (parts : list str) : str :=
  match parts with
  | [] => []
  | [p] => p
  | p :: rest => p ++ sep ++ join sep rest
  end.

(** [s.startswith(p)]. *)
Fixpoint startswith (p s : str) : bool :=
  match p, s with
  | [], _ => true
  | _ :: _, [] => false
  | a :: p', b :: s' => if Ascii.eqb a b then startswith p' s' else false
  end.

(** [p in s]: [p] occurs in [s] as a substring. *)
Fixpoint contains (p s : str) : bool :=
  if startswith p s then true
  else match s with
       | [] => false
       | _ :: s' => contains p s'
       end.

(** The largest index at or after [i] at which [p] occurs in [s], where
    [s] starts at index [i] of the whole string. *)
Fixpoint rfind_from (p s : str) (i : nat) : option nat :=
  match s with
  | [] => if startswith p [] then Some i else None
  | _ :: s' =>
      match rfind_from p s' (S i) with
      | Some j => Some j
      | None => if startswith p s then Some i else None
      end
  end.

(** [s.rfind(p)]: the highest index of an occurrence, [-1] when there is
    none. *)
Definition rfind (p s : str) : Z :=
  match rfind_from p s 0 with
  | Some j => Z.of_nat j
  | None => (-1)%Z
  end.

(** A slice bound as Python normalises it: a negative bound counts from
    the end, and the result is clamped to [0 .. len]. *)
Definition slice_index (len : nat) (i : Z) : nat :=
  let i' := if (i <? 0)%Z then (i + Z.of_nat len)%Z else i in
  if (i' <? 0)%Z then 0 else Nat.min (Z.to_nat i') len.

(** [l[lo:hi]]. *)
Definition slice {A : Type} (l : list A) (lo hi : Z) : list A :=
  let a := slice_index (length l) lo in
  let b := slice_index (length l) hi in
  firstn (b - a) (skipn a l).

(** [l[:hi]] and [l[lo:]]. *)
Definition slice_to {A : Type} (l : list A) (hi : Z) : list A :=
  firstn (slice_index (length l) hi) l.

Definition slice_from {A : Type} (l : list A) (lo : Z) : list A :=
  skipn (slice_index (length l) lo) l.

Fixpoint str_eqb (a b : str) : bool :=
  match a, b with
  | [], [] => true
  | x :: a', y :: b' => if Ascii.eqb x y then str_eqb a' b' else false
  | _, _ => false
  end.

End PyStr.

(* ===================================================================== *)
(** * Python numbers *)
(* ===================================================================== *)

Module PyNum.

(** [a < b] on floats, as a truth value. *)
Definition Qlt_bool (a b : Q) : bool := negb (Qle_bool b a).

End PyNum.

(* ===================================================================== *)
(** * Python floats *)
(* ===================================================================== *)

(** A Python [float] is a number of the IEEE 754 binary64 format: a
    significand of 53 bits and a least exponent of -1074.  A finite float
    is modelled by its value, a rational [m * 2^e] in lowest terms, and an
    arithmetic operation by the exact result rounded to the nearest float,
    to the one with the even significand when two are nearest; comparisons
    are exact.  The floats of the span-based extractor lie between 0 and
    5000: infinities, NaN and the sign of zero do not arise there. *)

Module PyFloat.

Definition prec : Z := 53.
Definition emin : Z := -1074.

Definition pow2 (e : Z) : Q := (2 ^ e)%Q.

(** The exponent of the binade of a positive [x]: the floor of its
    logarithm to the base 2. *)
Definition ilog2 (x : Q) : Z :=
  let l := (Z.log2 (Qnum x) - Z.log2 (Zpos (Qden x)))%Z in
  match (x ?= pow2 l)%Q with
  | Lt => (l - 1)%Z
  | _ => l
  end.

(** The nearest integer, the even one of two nearest. *)
Definition rne (y : Q) : Z :=
  let f := Qfloor y in
  match (y - inject_Z f ?= 1 # 2)%Q with
  | Lt => f
  | Gt => (f + 1)%Z
  | Eq => if Z.even f then f else (f + 1)%Z
  end.

(** The float nearest to a positive [x]: the exponent [e] gives the
    significand 53 bits, unless [x] is subnormal. *)
Definition rnd_pos (x : Q) : Q :=
  let e := Z.max (ilog2 x - (prec - 1)) emin in
  Qred (inject_Z (rne (x / pow2 e)) * pow2 e).

(** The float nearest to [x]. *)
Definition rnd (x : Q) : Q :=
  match Qnum x with
  | Z0 => 0%Q
  | Zpos _ => rnd_pos x
  | Zneg _ => (- rnd_pos (- x))%Q
  end.

(** A decimal literal, [x + y] and [x * y] on floats, [float(n)], and
    the true division [a / b] of two integers, which Python rounds once. *)
Definition literal (x : Q) : Q := rnd x.
Definition fadd (x y : Q) : Q := rnd (x + y).
Definition fmul (x y : Q) : Q := rnd (x * y).
Definition of_int (n : Z) : Q := rnd (inject_Z n).
Definition int_truediv (a b : Z) : Q := rnd (inject_Z a / inject_Z b).

End PyFloat.

(* ===================================================================== *)
(** * The fragment of Python's [re] that the line-window extractor uses *)
(* ===================================================================== *)

Module Regex.
Import PyStr.

(** Patterns.  A character class is its membership test; the flags
    [re.IGNORECASE] and [re.MULTILINE] are built into the classes and into
    the anchors [Bol] and [Eol]. *)
Inductive regex : Type :=
| Eps : regex                          (* the empty pattern *)
| Sym : (ascii -> bool) -> regex       (* one character of a class *)
| Cat : regex -> regex -> regex        (* r s *)
| Alt : regex -> regex -> regex        (* r|s *)
| Star : regex -> regex                (* r* *)
| Bol : regex                          (* ^ under (?m) *)
| Eol : regex                          (* $ under (?m) *)
| WordB : regex.                       (* \b *)

Definition Plus (r : regex) : regex := Cat r (Star r).
Definition Opt (r : regex) : regex := Alt r Eps.

(** [r1 r2 ... rn] and [r1|r2|...|rn]. *)
Fixpoint cats (rs : list regex) : regex :=
  match rs with
  | [] => Eps
  | [r] => r
  | r :: rs' => Cat r (cats rs')
  end.

Fixpoint alts (rs : list regex) : regex :=
  match rs with
  | [] => Eps
  | [r] => r
  | r :: rs' => Alt r (alts rs')
  end.

(** A literal string, as [re.escape] yields it, read under
    [re.IGNORECASE]. *)
Definition lit_ci (s : str) : regex := cats (map (fun c => Sym (eq_ci c)) s).

(** [r1 sep r2 sep ... sep rn], the pattern text [sep.join(parts)]. *)
Fixpoint join_re (sep : regex) (rs : list regex) : regex :=
  match rs with
  | [] => Eps
  | [r] => r
  | r :: rs' => Cat r (Cat sep (join_re sep rs'))
  end.

Definition is_word_opt (o : option ascii) : bool :=
  match o with Some c => is_word c | None => false end.

Definition is_nl_opt (o : option ascii) : bool :=
  match o with Some c => Ascii.eqb c nl | None => true end.

(** The iterations of a star.  [step] matches the starred pattern once;
    an iteration that consumes nothing is not repeated, so [fuel], the
    number of characters left, bounds the number of iterations. *)
Fixpoint star_loop
         (step : option ascii -> str -> (option ascii -> str -> bool) -> bool)
         (k : option ascii -> str -> bool)
         (fuel : nat) (prev : option ascii) (rest : str) : bool :=
  match fuel with
  | O => k prev rest
  | S fuel' =>
      if step prev rest
           (fun p' s' =>
              if length s' <? length rest then star_loop step k fuel' p' s'
              else false)
      then true
      else k prev rest
  end.

(** Backtracking match of [r] at a position of the subject.  The position
    is the character before it ([prev], [None] at the start) and the
    characters from it on ([rest]); [k] is what remains to be matched after
    [r]. *)
Fixpoint rmatch (r : regex) (prev : option ascii) (rest : str)
         (k : option ascii -> str -> bool) {struct r} : bool :=
  match r with
  | Eps => k prev rest
  | Sym p =>
      match rest with
      | c :: rest' => if p c then k (Some c) rest' else false
      | [] => false
      end
  | Cat r1 r2 => rmatch r1 prev rest (fun p' s' => rmatch r2 p' s' k)
  | Alt r1 r2 => if rmatch r1 prev rest k then true else rmatch r2 prev rest k
  | Star r1 => star_loop (rmatch r1) k (length rest) prev rest
  | Bol => if is_nl_opt prev then k prev rest else false
  | Eol => if is_nl_opt (hd_error rest) then k prev rest else false
  | WordB =>
      if xorb (is_word_opt prev) (is_word_opt (hd_error rest))
      then k prev rest else false
  end.

(** Some match of [r] starts at the position [(prev, rest)] or later. *)
Fixpoint search_from (r : regex) (prev : option ascii) (rest : str) : bool :=
  if rmatch r prev rest (fun _ _ => true) then true
  else match rest with
       | [] => false
       | c :: rest' => search_from r (Some c) rest'
       end.

(** [pattern.search(s)] as a truth value. *)
Definition search (r : regex) (s : str) : bool := search_from r None s.

(** [re.fullmatch(pattern, s)] as a truth value. *)
Definition fullmatch (r : regex) (s : str) : bool :=
  rmatch r None s (fun _ s' => match s' with [] => true | _ => false end).

(** The classes of the patterns. *)
Definition ws : regex := Sym is_space.                       (* \s *)
Definition digit : regex := Sym is_digit.                    (* \d *)
Definition dot_char : regex := Sym (Ascii.eqb (ascii_of_nat 46)). (* \. *)
Definition not_nl (c : ascii) : bool := negb (Ascii.eqb c nl). (* . and [^\n] *)

(** [[A-Z]] under [re.IGNORECASE]: the 52 ASCII letters. *)
Definition letter_ci (c : ascii) : bool :=
  is_ascii_upper c || is_ascii_lower c.

(** The section number [Section\s+\d+(?:\.\d+)*] under
    [re.IGNORECASE]. *)
Definition section_number : regex :=
  cats [lit_ci (py "Section"); Plus ws; Plus digit;
        Star (Cat dot_char (Plus digit))].

End Regex.

(* ===================================================================== *)
(** * Insertion-ordered dictionaries with string keys *)
(* ===================================================================== *)

Module PyDict.
Import PyStr.

Definition dict (V : Type) := list (str * V).

(** [d.get(k)]. *)
Fixpoint get {V : Type} (d : dict V) (k : str) : option V :=
  match d with
  | [] => None
  | (k', v) :: d' => if str_eqb k' k then Some v else get d' k
  end.

(** [d[k] = v]: a present key keeps its place, a new key goes last. *)
Fixpoint set {V : Type} (d : dict V) (k : str) (v : V) : dict V :=
  match d with
  | [] => [(k, v)]
  | (k', v') :: d' =>
      if str_eqb k' k then (k', v) :: d' else (k', v') :: set d' k v
  end.

Definition keys {V : Type} (d : dict V) : list str := map fst d.

End PyDict.

(* ===================================================================== *)
(** * The line-window extractor (Design A) *)
(* ===================================================================== *)

Module LineWindow.
Import PyStr PyNum Regex PyDict.

(** ** regex_patterns.py *)

(** [TARGET_SYNONYMS]. *)
Definition TARGET_SYNONYMS : dict (list str) :=
  [ (py "restricted payments",
     [ py "restricted payment";
       py "restricted payments";
       py "limitation on restricted payments";
       py "limitations on restricted payments";
       py "limitations on dividends and distributions";
       py "restricted dividends" ]);
    (py "change of control",
     [ py "change of control";
       py "change-of-control";
       py "change in control";
       py "change-of-control provision" ]) ].

Definition hyphen : ascii := ascii_of_nat 45.

(** [normalize_target]:
    [re.sub(r"\s+", " ", name.strip().lower().replace("-", "-")).strip()]. *)
Definition normalize_target (name : str) : str :=
  strip (sub_ws (replace1 hyphen hyphen (lower (strip name)))).

(** [re.split(r"\s+", s)]: the pieces between the maximal runs of white
    space, empty pieces at the two ends included. *)
Fixpoint re_split_ws_from (cur : str) (in_run : bool) (s : str) : list str :=
  match s with
  | [] => [rev cur]
  | c :: s' =>
      if is_space c
      then (if in_run then re_split_ws_from cur true s'
            else rev cur :: re_split_ws_from [] true s')
      else re_split_ws_from (c :: cur) false s'
  end.

Definition re_split_ws (s : str) : list str := re_split_ws_from [] false s.

(** [_synonym_to_regex]: the escaped tokens joined by [[\s\-]+]. *)
Definition _synonym_to_regex (s : str) : regex :=
  let s := strip s in
  let tokens := re_split_ws s in
  let escaped := map lit_ci tokens in
  join_re (Plus (Sym (fun c => is_space c || Ascii.eqb c hyphen))) escaped.

(** The pattern compiled for one canonical target, under the flags
    [(?mi)]: [^], an optional [\s*] and section number (the pattern
    [section_number]), then [\s*(?:[:\-\.])?\s*], the group of the
    synonyms, and [\b.*$]. *)
Definition target_pattern (canonical : str) : regex :=
  let synonyms :=
    match get TARGET_SYNONYMS canonical with
    | Some l => l
    | None => [canonical]
    end in
  let parts := map _synonym_to_regex synonyms in
  let name_group := alts parts in
  cats [ Bol;
         Opt (Cat (Star ws) section_number);
         Star ws;
         Opt (Sym (fun c => Ascii.eqb c (ascii_of_nat 58)
                            || Ascii.eqb c hyphen
                            || Ascii.eqb c (ascii_of_nat 46)));
         Star ws;
         name_group;
         WordB;
         Star (Sym not_nl);
         Eol ].

(** [build_target_regexes]: canonical target name -> compiled pattern. *)
Definition build_target_regexes (targets : list str) : dict regex :=
  fold_left
    (fun compiled raw =>
       let canonical := normalize_target raw in
       set compiled canonical (target_pattern canonical))
    targets [].

(** [SECTION_HEADING_PATTERN], under the flags [(?mi)]: [^\s*], the
    section number (the pattern [section_number]), and [\s+[A-Z][^\n]*$]. *)
Definition SECTION_HEADING_PATTERN : regex :=
  cats [ Bol; Star ws; section_number; Plus ws; Sym letter_ci;
         Star (Sym not_nl); Eol ].

(** The class [[A-Z0-9 &/\-_,\.\(\)]] of the all-caps heuristic. *)
Definition caps_class (c : ascii) : bool :=
  is_ascii_upper c || is_digit c
  || existsb (Ascii.eqb c) (py " &/-_,.()").

(** [w[:1].isupper()]. *)
Definition starts_upper (w : str) : bool :=
  match w with
  | c :: _ => is_upper c
  | [] => false
  end.

(** [is_heading_line]. *)
Definition is_heading_line (line : str) : bool :=
  if search SECTION_HEADING_PATTERN line then true
  else
    let stripped := strip line in
    if (8 <=? length stripped) && fullmatch (Plus (Sym caps_class)) stripped
    then true
    else
      if (length stripped <=? 120)
         && (let words := split stripped in
             let caps := length (filter starts_upper words) in
             (2 <=? length words)
             && Qlt_bool (PyFloat.literal (6 # 10))
                  (PyFloat.int_truediv
                     (Z.of_nat caps)
                     (Z.of_nat (Nat.max 1 (length words)))))
      then true
      else false.

(** ** extractor.py *)

Record CovenantSection : Type := mkSection {
  target : str;
  title : str;
  start_line : Z;
  end_line : Z;
  text : str
}.

Definition _split_lines (text : str) : list str := splitlines text.

(** [enumerate(lines)], counting from [index]. *)
Fixpoint enumerate_from {A : Type} (index : Z) (l : list A) : list (Z * A) :=
  match l with
  | [] => []
  | x :: l' => (index, x) :: enumerate_from (index + 1) l'
  end.

Definition enumerate {A : Type} (l : list A) : list (Z * A) :=
  enumerate_from 0 l.

Definition _find_heading_indices (lines : list str) : list Z :=
  map fst (filter (fun il => is_heading_line (snd il)) (enumerate lines)).

(** The loop of [_find_section_bounds]: the first heading after the start
    caps the end, and ends the loop. *)
Fixpoint next_heading_cap (start_index end_index : Z)
         (heading_indices : list Z) : Z :=
  match heading_indices with
  | [] => end_index
  | next_heading :: rest =>
      if (start_index <? next_heading)%Z
      then Z.min end_index (next_heading - 1)
      else next_heading_cap start_index end_index rest
  end.

Definition _find_section_bounds (lines : list str)
           (candidate_start_index : Z) (heading_indices : list Z)
           (max_section_lines : Z) : Z * Z :=
  let start_index := candidate_start_index in
  let end_index :=
    Z.min (Z.of_nat (length lines) - 1) (start_index + max_section_lines) in
  (start_index, next_heading_cap start_index end_index heading_indices).

(** The section recorded for a matching line. *)
Definition section_at (lines : list str) (heading_indices : list Z)
           (max_section_lines : Z) (canonical : str) (line_index : Z)
  : CovenantSection :=
  let '(start_index, end_index) :=
    _find_section_bounds lines line_index heading_indices
                         max_section_lines in
  let title_text := strip (nth (Z.to_nat line_index) lines []) in
  let section_text :=
    strip (join [nl] (slice lines start_index (end_index + 1))) in
  mkSection canonical title_text (start_index + 1) (end_index + 1)
            section_text.

(** The body of the inner loop of [extract_covenants_from_text], for one
    compiled pattern and one enumerated line.  [results[canonical]] raises
    [KeyError] on a missing key, which is [None] here. *)
Definition scan_step (lines : list str) (heading_indices : list Z)
           (max_section_lines : Z) (canonical : str) (pattern : regex)
           (acc : option (dict (list CovenantSection))) (il : Z * str)
  : option (dict (list CovenantSection)) :=
  match acc with
  | None => None
  | Some results =>
      let '(line_index, line) := il in
      match strip line with
      | [] => Some results
      | _ :: _ =>
          if search pattern line
          then
            match get results canonical with
            | None => None
            | Some found =>
                Some (set results canonical
                        (found ++ [section_at lines heading_indices
                                     max_section_lines canonical
                                     line_index]))
            end
          else Some results
      end
  end.

(** The inner loop over the enumerated lines. *)
Definition scan_lines (lines : list str) (heading_indices : list Z)
           (max_section_lines : Z) (canonical : str) (pattern : regex)
           (results : option (dict (list CovenantSection)))
  : option (dict (list CovenantSection)) :=
  fold_left
    (scan_step lines heading_indices max_section_lines canonical pattern)
    (enumerate lines) results.

(** [extract_covenants_from_text] on a list of targets; [None] stands for
    an exception.  The module [Iterables] has the targets as the iterable
    that the source declares. *)
Definition extract_covenants_from_text (text : str) (targets : list str)
           (max_section_lines : Z)
  : option (dict (list CovenantSection)) :=
  let compiled := build_target_regexes targets in
  let lines := _split_lines text in
  let heading_indices := _find_heading_indices lines in
  let results : dict (list CovenantSection) :=
    fold_left (fun d t => set d (normalize_target t) []) targets [] in
  fold_left
    (fun acc cp =>
       scan_lines lines heading_indices max_section_lines
                  (fst cp) (snd cp) acc)
    compiled (Some results).

End LineWindow.

(* ===================================================================== *)
(** * The line-window extractor on an iterable of targets *)
(* ===================================================================== *)

(** The source declares [targets] as [Iterable[str]] and traverses it
    twice: [build_target_regexes] walks it first, the dict comprehension
    that initialises [results] a second time.  A sequence (a list, a
    tuple) yields its items at every traversal; an iterator (a generator)
    yields them once and is exhausted afterwards. *)

Module Iterables.
Import PyStr PyDict Regex LineWindow.

Inductive iterable : Type :=
| Sequence : list str -> iterable
| Iterator : list str -> iterable.

(** One traversal: the items it yields, and the iterable as it leaves
    it. *)
Definition traverse (it : iterable) : list str * iterable :=
  match it with
  | Sequence items => (items, Sequence items)
  | Iterator items => (items, Iterator [])
  end.

(** [extract_covenants_from_text]; [None] stands for an exception, here
    the [KeyError] of [results[canonical]]. *)
Definition extract_covenants_from_text (text : str) (targets : iterable)
           (max_section_lines : Z)
  : option (dict (list CovenantSection)) :=
  let '(first, targets) := traverse targets in
  let compiled := build_target_regexes first in
  let lines := _split_lines text in
  let heading_indices := _find_heading_indices lines in
  let '(second, _) := traverse targets in
  let results : dict (list CovenantSection) :=
    fold_left (fun d t => set d (normalize_target t) []) second [] in
  fold_left
    (fun acc cp =>
       scan_lines lines heading_indices max_section_lines
                  (fst cp) (snd cp) acc)
    compiled (Some results).

End Iterables.

(* ===================================================================== *)
(** * The span-based extractor (Design B) *)
(* ===================================================================== *)

Module SpanBased.
Import PyStr PyNum PyFloat PyDict.

Record CovenantSection : Type := mkSection {
  section_type : str;
  title : str;
  content : str;
  start_pos : Z;
  end_pos : Z;
  confidence : Q
}.

(** One entry of [covenant_patterns]. *)
Record Config : Type := mkConfig {
  patterns : list str;
  keywords : list str;
  section_indicators : list str
}.

(** [self.covenant_patterns] as [__init__] sets it.  The pattern texts are
    only handed to the regex engine; the en dash and the em dash of the
    source are spelled by their escapes [\u2013] and [\u2014]. *)
Definition covenant_patterns : dict Config :=
  [ (py "restricted_payments", mkConfig
      [ py "(?i)(restricted\s+payments?|dividend\s+restrictions?|distribution\s+limitations?)[:\s]*([^.]+(?:\.[^.]+){0,10})";
        py "(?i)section\s*\d+\.?\d*\s*[-\u2013\u2014]?\s*(restricted\s+payments?|limitations?\s+on\s+dividends?)[:\s]*([^.]+(?:\.[^.]+){0,10})";
        py "(?i)(?:covenants?\s+regarding|limitations?\s+on)\s+(payments?|dividends?|distributions?)[:\s]*([^.]+(?:\.[^.]+){0,10})" ]
      [ py "restricted payment"; py "dividend"; py "distribution";
        py "payment restriction" ]
      [ py "shall not"; py "may not"; py "prohibited"; py "limitation";
        py "restriction" ]);
    (py "change_of_control", mkConfig
      [ py "(?i)(change\s+(?:of|in)\s+control)[:\s]*([^.]+(?:\.[^.]+){0,10})";
        py "(?i)section\s*\d+\.?\d*\s*[-\u2013\u2014]?\s*(change\s+(?:of|in)\s+control)[:\s]*([^.]+(?:\.[^.]+){0,10})";
        py "(?i)(?:upon|in\s+the\s+event\s+of)\s+(?:a\s+)?(change\s+(?:of|in)\s+control)[:\s]*([^.]+(?:\.[^.]+){0,10})" ]
      [ py "change of control"; py "change in control"; py "control change";
        py "acquisition" ]
      [ py "means"; py "shall mean"; py "defined as"; py "constitutes";
        py "triggers" ]);
    (py "debt_incurrence", mkConfig
      [ py "(?i)(incurrence\s+of\s+(?:debt|indebtedness)|debt\s+incurrence)[:\s]*([^.]+(?:\.[^.]+){0,10})";
        py "(?i)section\s*\d+\.?\d*\s*[-\u2013\u2014]?\s*(limitations?\s+on\s+(?:debt|indebtedness))[:\s]*([^.]+(?:\.[^.]+){0,10})";
        py "(?i)(additional\s+(?:debt|indebtedness)|borrowing\s+restrictions?)[:\s]*([^.]+(?:\.[^.]+){0,10})" ]
      [ py "debt"; py "indebtedness"; py "borrowing"; py "leverage";
        py "debt incurrence" ]
      [ py "shall not incur"; py "may not incur"; py "limitation";
        py "ratio"; py "permitted" ]);
    (py "asset_sales", mkConfig
      [ py "(?i)(asset\s+sales?|sale\s+of\s+assets?|disposition\s+of\s+assets?)[:\s]*([^.]+(?:\.[^.]+){0,10})";
        py "(?i)section\s*\d+\.?\d*\s*[-\u2013\u2014]?\s*(limitations?\s+on\s+asset\s+sales?)[:\s]*([^.]+(?:\.[^.]+){0,10})";
        py "(?i)(restrictions?\s+on\s+(?:sales?|dispositions?)\s+of\s+(?:assets?|property))[:\s]*([^.]+(?:\.[^.]+){0,10})" ]
      [ py "asset sale"; py "disposition"; py "transfer of assets";
        py "sale of property" ]
      [ py "shall not sell"; py "may not dispose";
        py "permitted asset sale"; py "exceptions" ]);
    (py "merger_restrictions", mkConfig
      [ py "(?i)(merger\s+(?:restrictions?|covenants?)|consolidation\s+restrictions?)[:\s]*([^.]+(?:\.[^.]+){0,10})";
        py "(?i)section\s*\d+\.?\d*\s*[-\u2013\u2014]?\s*(mergers?\s+and\s+consolidations?)[:\s]*([^.]+(?:\.[^.]+){0,10})";
        py "(?i)(limitations?\s+on\s+(?:mergers?|consolidations?|amalgamations?))[:\s]*([^.]+(?:\.[^.]+){0,10})" ]
      [ py "merger"; py "consolidation"; py "amalgamation";
        py "combination" ]
      [ py "shall not merge"; py "may not consolidate"; py "prohibited";
        py "permitted merger" ]);
    (py "investments", mkConfig
      [ py "(?i)(permitted\s+investments?|investment\s+restrictions?)[:\s]*([^.]+(?:\.[^.]+){0,10})";
        py "(?i)section\s*\d+\.?\d*\s*[-\u2013\u2014]?\s*(limitations?\s+on\s+investments?)[:\s]*([^.]+(?:\.[^.]+){0,10})";
        py "(?i)(restrictions?\s+on\s+investments?|investment\s+covenants?)[:\s]*([^.]+(?:\.[^.]+){0,10})" ]
      [ py "investment"; py "capital expenditure"; py "acquisition";
        py "equity investment" ]
      [ py "shall not invest"; py "permitted investments";
        py "investment basket"; py "limitations" ]);
    (py "liens", mkConfig
      [ py "(?i)(liens?\s+(?:restrictions?|covenants?)|negative\s+pledge)[:\s]*([^.]+(?:\.[^.]+){0,10})";
        py "(?i)section\s*\d+\.?\d*\s*[-\u2013\u2014]?\s*(limitations?\s+on\s+liens?)[:\s]*([^.]+(?:\.[^.]+){0,10})";
        py "(?i)(permitted\s+liens?|security\s+interests?\s+restrictions?)[:\s]*([^.]+(?:\.[^.]+){0,10})" ]
      [ py "lien"; py "security interest"; py "encumbrance"; py "pledge";
        py "mortgage" ]
      [ py "shall not create"; py "permitted liens"; py "negative pledge";
        py "exceptions" ]);
    (py "transactions_with_affiliates", mkConfig
      [ py "(?i)(transactions?\s+with\s+affiliates?|affiliate\s+transactions?)[:\s]*([^.]+(?:\.[^.]+){0,10})";
        py "(?i)section\s*\d+\.?\d*\s*[-\u2013\u2014]?\s*(affiliate\s+transactions?)[:\s]*([^.]+(?:\.[^.]+){0,10})";
        py "(?i)(related\s+party\s+transactions?|intercompany\s+transactions?)[:\s]*([^.]+(?:\.[^.]+){0,10})" ]
      [ py "affiliate"; py "related party"; py "intercompany";
        py "subsidiary transaction" ]
      [ py "arm's length"; py "fair market value"; py "prohibited";
        py "permitted" ]) ].

(** [self.section_boundaries]. *)
Definition section_boundaries : list str :=
  [ py "(?i)(?:section|article|clause)\s+\d+(?:\.\d+)*";
    py "(?i)(?:section|article|clause)\s+[A-Z](?:\.\d+)*";
    py "\n\s*\d+\.\d+\s+[A-Z]";
    py "\n\s*[A-Z]\.\s+[A-Z]" ].

(** A match object: [match.start()], [match.end()], [match.groups()]. *)
Record re_match : Type := mkMatch {
  m_start : nat;
  m_end : nat;
  m_groups : list str
}.

Inductive re_flag : Type := MULTILINE | DOTALL.

(** The dataclass equality [==] of two sections, field by field. *)
Definition section_eqb (a b : CovenantSection) : bool :=
  str_eqb (section_type a) (section_type b)
  && str_eqb (title a) (title b)
  && str_eqb (content a) (content b)
  && (start_pos a =? start_pos b)%Z
  && (end_pos a =? end_pos b)%Z
  && Qeq_bool (confidence a) (confidence b).

(** [list.remove(x)]: the first element equal to [x] goes. *)
Fixpoint remove_first (x : CovenantSection) (l : list CovenantSection)
  : list CovenantSection :=
  match l with
  | [] => []
  | y :: l' => if section_eqb y x then l' else y :: remove_first x l'
  end.

(** [sections.sort(key=lambda x: x.start_pos)]: a stable sort; an element
    is put before the first one of the sorted rest that does not start
    before it. *)
Fixpoint insert_by_start (x : CovenantSection) (l : list CovenantSection)
  : list CovenantSection :=
  match l with
  | [] => [x]
  | y :: l' =>
      if (start_pos x <=? start_pos y)%Z then x :: l
      else y :: insert_by_start x l'
  end.

Fixpoint sort_by_start (l : list CovenantSection) : list CovenantSection :=
  match l with
  | [] => []
  | x :: l' => insert_by_start x (sort_by_start l')
  end.

(** [keyword_score] and [indicator_score] of [_calculate_confidence]: the
    number of phrases whose lower-case form occurs in the lower-cased
    text. *)
Definition count_hits (phrases : list str) (text_lower : str) : nat :=
  length (filter (fun phrase => contains (lower phrase) text_lower) phrases).

(** [min(1.0, hits / max(1, total))]. *)
Definition ratio (hits total : nat) : Q :=
  Qmin 1 (int_truediv (Z.of_nat hits) (Z.of_nat (Nat.max 1 total))).

(** [_calculate_confidence]. *)
Definition _calculate_confidence (text : str) (config : Config) : Q :=
  let text_lower := lower text in
  let keyword_score := count_hits (keywords config) text_lower in
  let indicator_score := count_hits (section_indicators config) text_lower in
  let keyword_weight := literal (6 # 10) in
  let indicator_weight := literal (4 # 10) in
  let keyword_confidence :=
    ratio keyword_score (length (keywords config)) in
  let indicator_confidence :=
    ratio indicator_score (length (section_indicators config)) in
  fadd (fmul keyword_confidence keyword_weight)
       (fmul indicator_confidence indicator_weight).

(** A value together with the equation that names it. *)
Definition inspect {A : Type} (a : A) : {b : A | a = b} :=
  exist _ a eq_refl.

(** The [for existing in deduplicated] loop of [_deduplicate_sections].
    The list iterator is an index [i] into the list as it is now, so an
    element removed at or before [i] shifts the rest under the iterator.
    The result is the list and the flag [overlaps]. *)
Equations? dedup_inner (section : CovenantSection)
           (deduplicated : list CovenantSection) (i : nat)
  : list CovenantSection * bool
  by wf (length deduplicated - i) lt :=
  dedup_inner section deduplicated i
    with inspect (nth_error deduplicated i) => {
    | exist _ None _ => (deduplicated, false);
    | exist _ (Some existing) Hnth =>
        if (start_pos existing <=? start_pos section)%Z
           && (start_pos section <? end_pos existing)%Z
        then
          if Qlt_bool (confidence existing) (confidence section)
          then dedup_inner section (remove_first existing deduplicated) (S i)
          else (deduplicated, true)
        else dedup_inner section deduplicated (S i) }.
Proof.
  - assert (Hi : i < length deduplicated)
      by (apply nth_error_Some; congruence).
    assert (Hle : length (remove_first existing deduplicated)
                  <= length deduplicated).
    { clear. induction deduplicated as [|y l IH]; simpl; auto.
      destruct (section_eqb y existing); simpl; lia. }
    lia.
  - assert (Hi : i < length deduplicated)
      by (apply nth_error_Some; congruence).
    lia.
Qed.

(** One turn of the [for section in sections] loop. *)
Definition dedup_step (deduplicated : list CovenantSection)
           (section : CovenantSection) : list CovenantSection :=
  let '(deduplicated, overlaps) := dedup_inner section deduplicated 0 in
  if overlaps then deduplicated else deduplicated ++ [section].

(** [_deduplicate_sections]. *)
Definition _deduplicate_sections (sections : list CovenantSection)
  : list CovenantSection :=
  match sections with
  | [] => []
  | _ :: _ => fold_left dedup_step (sort_by_start sections) []
  end.

Section Engine.

(** The two library functions whose results the extractor only passes
    on: [re.finditer(pattern, text, flags)] as the list of its matches,
    and [str.title]. *)
Variable re_finditer : str -> list re_flag -> str -> list re_match.
Variable str_title : str -> str.

(** The loop over the matches of one boundary pattern: the first match
    that lies before [next_section_pos] replaces it and ends the loop. *)
Fixpoint boundary_scan (initial_end next_section_pos : nat)
         (matches : list re_match) : nat :=
  match matches with
  | [] => next_section_pos
  | m :: rest =>
      let pos := initial_end + m_start m in
      if pos <? next_section_pos then pos
      else boundary_scan initial_end next_section_pos rest
  end.

(** The first part of [_extract_full_section]: the position of the next
    section boundary after the match, the length of the text when there is
    none. *)
Definition next_section_pos (text : str) (initial_end : nat) : nat :=
  fold_left
    (fun next_section_pos boundary_pattern =>
       boundary_scan initial_end next_section_pos
         (re_finditer boundary_pattern []
                      (slice_from text (Z.of_nat initial_end))))
    section_boundaries (length text).

(** The span [text[start_pos:end_pos]] that [_extract_full_section]
    captures, with its cap of 5000 characters. *)
Definition captured_span (text : str) (start_pos initial_end : nat) : str :=
  let max_length := 5000 in
  let end_pos :=
    Nat.min (next_section_pos text initial_end) (start_pos + max_length) in
  slice text (Z.of_nat start_pos) (Z.of_nat end_pos).

(** [_extract_full_section]. *)
Definition _extract_full_section (text : str) (start_pos initial_end : nat)
  : str :=
  let section_text := captured_span text start_pos initial_end in
  let last_para := rfind [nl; nl] section_text in
  let section_text :=
    if Qlt_bool (fmul (of_int (Z.of_nat (length section_text)))
                      (literal (7 # 10)))
                (inject_Z last_para)
    then slice_to section_text last_para
    else section_text in
  strip section_text.

(** The body of the [for match in matches] loop, shared by
    [extract_sections] and [extract_by_type]: the section of a match, if
    its confidence passes the threshold. *)
Definition section_of_match (text : str) (covenant_type : str)
           (config : Config) (m : re_match) : list CovenantSection :=
  let section_content :=
    _extract_full_section text (m_start m) (m_end m) in
  let confidence := _calculate_confidence section_content config in
  if Qlt_bool (literal (3 # 10)) confidence
  then [ mkSection covenant_type
           (match m_groups m with
            | g1 :: _ => g1
            | [] => str_title (replace1 (ascii_of_nat 95) space
                                        covenant_type)
            end)
           section_content
           (Z.of_nat (m_start m))
           (Z.of_nat (m_start m) + Z.of_nat (length section_content))
           confidence ]
  else [].

(** The candidates of one covenant type, before deduplication. *)
Definition candidates_of_type (text : str) (covenant_type : str)
           (config : Config) : list CovenantSection :=
  flat_map
    (fun pattern =>
       flat_map (section_of_match text covenant_type config)
                (re_finditer pattern [MULTILINE; DOTALL] text))
    (patterns config).

(** [extract_sections]. *)
Definition extract_sections (text : str) : list CovenantSection :=
  let sections :=
    flat_map (fun tc => candidates_of_type text (fst tc) (snd tc))
             covenant_patterns in
  _deduplicate_sections sections.

(** [extract_by_type]; [None] is the [ValueError] of an unknown type. *)
Definition extract_by_type (text : str) (covenant_type : str)
  : option (list CovenantSection) :=
  match get covenant_patterns covenant_type with
  | None => None
  | Some config =>
      Some (_deduplicate_sections
              (candidates_of_type text covenant_type config))
  end.

End Engine.

End SpanBased.

(* ===================================================================== *)
(** * The span-based extractor: reporting and convenience functions *)
(* ===================================================================== *)

Module SpanReport.
Import PyStr PyDict SpanBased.

(** The values of a serialized section. *)
Inductive pyval : Type :=
| VStr : str -> pyval
| VInt : Z -> pyval
| VFloat : Q -> pyval.

(** [CovenantSection.to_dict]. *)
Definition to_dict (s : CovenantSection) : dict pyval :=
  [ (py "section_type", VStr (section_type s));
    (py "title", VStr (title s));
    (py "content", VStr (content s));
    (py "start_pos", VInt (start_pos s));
    (py "end_pos", VInt (end_pos s));
    (py "confidence", VFloat (confidence s)) ].

(** One turn of the counting loop of [save_results]: a type that is not
    yet counted starts at 0, then its count goes up by one.  [None] is the
    [KeyError] of the increment. *)
Definition count_section (counts : option (dict Z)) (section : CovenantSection)
  : option (dict Z) :=
  match counts with
  | None => None
  | Some counts =>
      let section_type := section_type section in
      let counts :=
        match get counts section_type with
        | None => set counts section_type 0%Z
        | Some _ => counts
        end in
      match get counts section_type with
      | None => None
      | Some n => Some (set counts section_type (n + 1)%Z)
      end
  end.

(** The value that [save_results] writes as JSON. *)
Record report : Type := mkReport {
  total_sections : Z;
  sections_by_type : dict Z;
  sections : list (dict pyval)
}.

(** [save_results], without the file: the report it dumps. *)
Definition save_results (sections : list CovenantSection) : option report :=
  match fold_left count_section sections (Some []) with
  | None => None
  | Some counts =>
      Some (mkReport (Z.of_nat (length sections)) counts (map to_dict sections))
  end.

(** The preview column of [display_results]: the content cut to 200
    characters with an ellipsis, line feeds replaced by spaces. *)
Definition content_preview (section : CovenantSection) : str :=
  let content_preview :=
    if 200 <? length (content section)
    then slice_to (content section) 200 ++ py "..."
    else content section in
  replace1 nl space content_preview.

Section Engine.

Variable re_finditer : str -> list re_flag -> str -> list re_match.
Variable str_title : str -> str.

(** The loop of [extract_covenants_regex] over the requested types; [None]
    is the [ValueError] of [extract_by_type]. *)
Fixpoint extend_by_types (text : str) (covenant_types : list str)
         (sections : list CovenantSection) : option (list CovenantSection) :=
  match covenant_types with
  | [] => Some sections
  | covenant_type :: rest =>
      match extract_by_type re_finditer str_title text covenant_type with
      | None => None
      | Some found => extend_by_types text rest (sections ++ found)
      end
  end.

(** [extract_covenants_regex]: an absent or empty list of types asks for
    all types. *)
Definition extract_covenants_regex (text : str)
           (covenant_types : option (list str))
  : option (list CovenantSection) :=
  match covenant_types with
  | Some ((_ :: _) as types) => extend_by_types text types []
  | _ => Some (extract_sections re_finditer str_title text)
  end.

End Engine.

End SpanReport.

(* ===================================================================== *)
(** * The evaluation of extracted sections *)
(* ===================================================================== *)

(** [evaluation.py].  Sections are used through their attributes
    [section_type], [content] and [confidence] only; the sections of the
    span-based extractor stand for them.  [difflib]'s similarity ratio is a
    parameter of the model, and the metrics of
    [evaluate_extraction_quality] are computed in exact rationals. *)

Module Evaluation.
Import PyStr PyNum PyDict SpanBased.

Record ExtractionMetrics : Type := mkMetrics {
  precision : Q;
  recall : Q;
  f1_score : Q;
  coverage : Q;
  avg_confidence : Q
}.

(** [ExtractionEvaluator.covenant_types]. *)
Definition covenant_types : list str :=
  [ py "restricted_payments";
    py "change_of_control";
    py "debt_incurrence";
    py "asset_sales";
    py "merger_restrictions";
    py "investments";
    py "liens";
    py "transactions_with_affiliates" ].

(** [len(x)] where it is an operand of a true division. *)
Definition len_Q {A : Type} (l : list A) : Q := inject_Z (Z.of_nat (length l)).

(** [sum(s.confidence for s in sections)]: from 0, left to right. *)
Definition sum_confidence (sections : list CovenantSection) : Q :=
  fold_left (fun acc s => (acc + confidence s)%Q) sections 0%Q.

(** A [set] of strings, as the list of its members. *)
Definition set_mem (x : str) (members : list str) : bool :=
  existsb (str_eqb x) members.

Definition set_add (members : list str) (x : str) : list str :=
  if set_mem x members then members else members ++ [x].

(** [set(s.section_type for s in sections)]. *)
Definition types_found (sections : list CovenantSection) : list str :=
  fold_left (fun members s => set_add members (section_type s)) sections [].

(** The truth value of an optional mapping. *)
Definition truthy {V : Type} (ground_truth : option (dict V)) : bool :=
  match ground_truth with
  | Some (_ :: _) => true
  | _ => false
  end.

(** [evaluate_extraction_quality]. *)
Definition evaluate_extraction_quality {V : Type}
           (sections : list CovenantSection)
           (ground_truth : option (dict V)) : ExtractionMetrics :=
  match sections with
  | [] => mkMetrics 0 0 0 0 0
  | _ :: _ =>
      let avg_confidence := (sum_confidence sections / len_Q sections)%Q in
      let types_found := types_found sections in
      let coverage := (len_Q types_found / len_Q covenant_types)%Q in
      if truthy ground_truth then
        let precision := avg_confidence in
        let recall := coverage in
        let f1_score :=
          if Qlt_bool 0 (precision + recall)
          then (2 * (precision * recall) / (precision + recall))%Q
          else 0%Q in
        mkMetrics precision recall f1_score coverage avg_confidence
      else
        let precision := avg_confidence in
        let recall := coverage in
        let f1_score :=
          if Qlt_bool 0 (precision + recall)
          then (2 * (precision * recall) / (precision + recall))%Q
          else 0%Q in
        mkMetrics precision recall f1_score coverage avg_confidence
  end.

Section Similarity.

(** [difflib.SequenceMatcher(None, a, b).ratio()]. *)
Variable ratio : str -> str -> Q.

(** [_calculate_similarity]. *)
Definition _calculate_similarity (text1 text2 : str) : Q :=
  ratio (lower text1) (lower text2).

(** [enumerate(sections2)]. *)
Fixpoint enumerate_from (idx : Z) (sections2 : list CovenantSection)
  : list (Z * CovenantSection) :=
  match sections2 with
  | [] => []
  | s2 :: rest => (idx, s2) :: enumerate_from (idx + 1) rest
  end.

(** One round of the inner loop: the state is [best_match_idx] and
    [best_similarity]. *)
Definition best_step (s1 : CovenantSection) (matched_indices : list Z)
           (best : Z * Q) (entry : Z * CovenantSection) : Z * Q :=
  let '(best_match_idx, best_similarity) := best in
  let '(idx, s2) := entry in
  if existsb (Z.eqb idx) matched_indices then best
  else
    let similarity := _calculate_similarity (content s1) (content s2) in
    if Qlt_bool best_similarity similarity then
      if Qlt_bool (PyFloat.literal (6 # 10)) similarity
      then (idx, similarity) else best
    else best.

(** One round of the outer loop: the state is [overlap_count] and
    [matched_indices]. *)
Definition overlap_step (sections2 : list CovenantSection)
           (state : Z * list Z) (s1 : CovenantSection) : Z * list Z :=
  let '(overlap_count, matched_indices) := state in
  let '(best_match_idx, _) :=
    fold_left (best_step s1 matched_indices)
              (enumerate_from 0 sections2) ((-1)%Z, 0%Q) in
  if (0 <=? best_match_idx)%Z then
    ((overlap_count + 1)%Z,
     if existsb (Z.eqb best_match_idx) matched_indices then matched_indices
     else best_match_idx :: matched_indices)
  else state.

(** [_count_overlapping_sections]. *)
Definition _count_overlapping_sections
           (sections1 sections2 : list CovenantSection) : Z :=
  fst (fold_left (overlap_step sections2) sections1 (0%Z, [])).

End Similarity.

End Evaluation.

(* ===================================================================== *)
(** * The LLM bridge *)
(* ===================================================================== *)

Module LlmBridge.
Import PyStr PyDict.

(** JSON values, as [json.loads] returns them. *)
Unset Elimination Schemes.
Inductive json : Type :=
| JNull : json
| JBool : bool -> json
| JNum : Q -> json
| JStr : str -> json
| JList : list json -> json
| JObj : dict json -> json.
Set Elimination Schemes.

(** Python truthiness of a JSON value. *)
Definition truthy (v : json) : bool :=
  match v with
  | JNull => false
  | JBool b => b
  | JNum q => negb (Qeq_bool q 0)
  | JStr s => match s with [] => false | _ => true end
  | JList l => match l with [] => false | _ => true end
  | JObj d => match d with [] => false | _ => true end
  end.

(** The request sent to the chat-completion endpoint. *)
Record request : Type := mkRequest {
  req_api_key : str;
  req_model : str;
  req_system : str;
  req_user : str;
  req_temperature : Q;
  req_max_tokens : Z
}.

(** What the program does to the world, in order: it reads an environment
    variable, imports the [openai] package, constructs the client with the
    key, and sends a request. *)
Inductive event : Type :=
| Getenv : str -> event
| ImportOpenAI : event
| ClientInit : str -> event
| NetworkCall : request -> event.

(** How a call ends: with a value, or with an exception that escapes. *)
Inductive outcome (A : Type) : Type :=
| Returns : A -> outcome A
| Raises : outcome A.
Arguments Returns {A} _.
Arguments Raises {A}.

(** The answer of the network call: an exception; a completion of which
    [choices[0].message.content] cannot be read (no choice, no message), so
    that reading it raises; or the message content, which may be [None]. *)
Inductive response : Type :=
| CallFails : response
| NoChoice : response
| Content : option str -> response.

Definition is_network_call (e : event) : bool :=
  match e with NetworkCall _ => true | _ => false end.

Section World.

(** The environment of the process, the availability of the [openai]
    package, whether its constructor [OpenAI(api_key=...)] returns for a
    key, the remote model, and the [json] module. *)
Variable getenv : str -> option str.
Variable openai_importable : bool.
Variable client_init : str -> bool.
Variable chat_completion : request -> response.
Variable json_dumps : json -> str.
Variable json_loads : str -> option json.

(** [x or y] on optional strings: [None] and the empty string are
    false. *)
Definition or_else (x y : option str) : option str :=
  match x with
  | Some (_ :: _) => x
  | _ => y
  end.

Definition system_prompt : str :=
  py "You are a legal AI that extracts covenant sections from agreements. "
  ++ py "Identify the best matching section title and an excerpt for each target. "
  ++ py "Return strict JSON with keys for each target (canonical, lowercase).".

Definition user_prompt (canonical_targets : list str) (text : str) : json :=
  JObj [ (py "instruction",
          JStr (py "Find these targets (canonical, lowercase):"));
         (py "targets", JList (map JStr canonical_targets));
         (py "requirements",
          JList [ JStr (py "If not found, set title='' and excerpt=''");
                  JStr (py "Prefer section or subsection titles");
                  JStr (py "Return concise 3-6 sentence excerpt around the section start") ]);
         (py "text", JStr (slice_to text 100000)) ].

(** [v.get(key, "") if isinstance(v, dict) else ""]. *)
Definition field (v : json) (key : str) : json :=
  match v with
  | JObj d => match get d key with Some x => x | None => JStr [] end
  | _ => JStr []
  end.

(** The entry built for one canonical target from the parsed answer;
    [None] is the [AttributeError] of [data.get] on a value that is not
    an object. *)
Definition entry_of (data : json) (t : str) : option (dict json) :=
  match data with
  | JObj d =>
      let v := match get d t with
               | Some x => if truthy x then x else JObj []
               | None => JObj []
               end in
      Some [ (py "title", field v (py "title"));
             (py "excerpt", field v (py "excerpt"));
             (py "rationale", field v (py "rationale")) ]
  | _ => None
  end.

(** The loop that fills [result], inside the [try]. *)
Fixpoint fill_result (data : json) (canonical_targets : list str)
         (result : dict (dict json)) : option (dict (dict json)) :=
  match canonical_targets with
  | [] => Some result
  | t :: rest =>
      match entry_of data t with
      | None => None
      | Some e => fill_result data rest (set result t e)
      end
  end.

(** [llm_extract_covenants]: the events it causes and how it ends.  The
    import and the reading of the answer stand inside a [try]; the
    construction of the client, the call and the access to the content of
    the completion do not. *)
Definition llm_extract_covenants (text : str) (targets : list str)
           (model : str) (api_key : option str) (max_tokens : Z)
  : list event * outcome (dict (dict json)) :=
  let env_read :=
    match api_key with
    | Some (_ :: _) => []
    | _ => [Getenv (py "OPENAI_API_KEY")]
    end in
  match or_else api_key (getenv (py "OPENAI_API_KEY")) with
  | None | Some [] => (env_read, Returns [])
  | Some api_key =>
      if negb openai_importable
      then (env_read ++ [ImportOpenAI], Returns [])
      else if negb (client_init api_key)
      then (env_read ++ [ImportOpenAI; ClientInit api_key], Raises)
      else
        let canonical_targets :=
          map LineWindow.normalize_target targets in
        let req :=
          mkRequest api_key model system_prompt
            (py "Extract and return JSON only. Format: {target: {title, excerpt}}"
             ++ [nl; nl]
             ++ json_dumps (user_prompt canonical_targets text))
            0 max_tokens in
        let trace :=
          env_read ++ [ImportOpenAI; ClientInit api_key; NetworkCall req] in
        match chat_completion req with
        | CallFails => (trace, Raises)
        | NoChoice => (trace, Raises)
        | Content c =>
            let content :=
              match or_else c None with
              | Some s => s
              | None => py "{}"
              end in
            match json_loads content with
            | None => (trace, Returns [])
            | Some data =>
                match fill_result data canonical_targets [] with
                | None => (trace, Returns [])
                | Some result => (trace, Returns result)
                end
            end
        end
  end.

End World.

End LlmBridge.

(* ===================================================================== *)
(** * The properties, in the words of the specification *)
(* ===================================================================== *)

Module Spec.
Import PyStr Regex.

(** ** Heading Detector, section 4.2 of the specification *)

(** Heuristic 1: the line matches the enumerator prefix, that is the
    word "Section" and an integer with optional dotted integers, followed
    by a capitalized word. *)
Definition enumerator_pattern : regex :=
  cats [ Bol; Star ws; section_number; Plus ws; Sym is_upper;
         Star (Sym not_nl); Eol ].

Definition heuristic_enumerator (line : str) : bool :=
  search enumerator_pattern line.

(** Heuristic 2: the trimmed line has at least 8 characters, all of them
    uppercase letters, digits, spaces, or one of [& / - _ , . ( )]. *)
Definition caps_char (c : ascii) : bool :=
  is_ascii_upper c || is_digit c || Ascii.eqb c space
  || existsb (Ascii.eqb c) (py "&/-_,.()").

Definition heuristic_all_caps (line : str) : bool :=
  let t := strip line in
  (8 <=? length t) && forallb caps_char t.

Definition begins_upper (w : str) : bool :=
  match w with
  | c :: _ => is_upper c
  | [] => false
  end.

(** Heuristic 3: the trimmed line has at most 120 characters and at least 2
    white-space-delimited words, and more than 60% of the words begin with
    an uppercase letter: [5 * caps > 3 * words]. *)
Definition heuristic_title_case (line : str) : bool :=
  let t := strip line in
  let words := split t in
  let caps := length (filter begins_upper words) in
  (length t <=? 120) && (2 <=? length words)
  && (3 * length words <? 5 * caps).

Definition is_heading (line : str) : bool :=
  heuristic_enumerator line || heuristic_all_caps line
  || heuristic_title_case line.

(** ** Confidence Scorer, section 4.4 of the specification *)

(** [min(1, hits / |set|)], and [0] for an empty set. *)
Definition score (hits size : nat) : Q :=
  match size with
  | O => 0%Q
  | S _ => Qmin 1 (Z.of_nat hits # Pos.of_nat size)
  end.

(** ** Deduplicator, section 4.5 of the specification *)

Import SpanBased.

(** The position [p] lies in the range [[start_pos, end_pos)] of [s]. *)
Definition covers (s : CovenantSection) (p : Z) : Prop :=
  (start_pos s <= p < end_pos s)%Z.

(** Two ranges overlap: they share a position. *)
Definition overlap (a b : CovenantSection) : Prop :=
  exists p : Z, covers a p /\ covers b p.


(** [winner] and [loser] contested a range, the start of one lying in the
    range of the other, and [winner] has at least the confidence of
    [loser]. *)
Definition beats (winner loser : CovenantSection) : Prop :=
  (covers winner (start_pos loser) \/ covers loser (start_pos winner))
  /\ (confidence loser <= confidence winner)%Q.


(** ** Span cut, section 4.3 of the specification *)

(** The last blank line of [s] starts at index [j]: two line feeds stand
    there, and at no later index. *)
Definition last_blank_line (s : str) (j : nat) : Prop :=
  startswith [nl; nl] (skipn j s) = true
  /\ forall k, j < k -> k <= length s ->
                startswith [nl; nl] (skipn k s) = false.

(** The index [j] lies past, or before, 70% of the span. *)
Definition past_70_percent (span : str) (j : nat) : Prop :=
  (inject_Z (Z.of_nat (length span)) * (7 # 10) < inject_Z (Z.of_nat j))%Q.

Definition before_70_percent (span : str) (j : nat) : Prop :=
  (inject_Z (Z.of_nat j) < inject_Z (Z.of_nat (length span)) * (7 # 10))%Q.

(** The content of a section against the span captured for it: when the
    last blank line of the span lies past 70% of it, the content is the
    span up to that blank line, stripped; when the span has no blank line,
    or its last one lies before 70% of it, the content is the whole span,
    stripped; and the content is always one of the two. *)
Definition cut_rule (span content : str) : Prop :=
  (forall j, last_blank_line span j -> past_70_percent span j ->
             content = strip (firstn j span))
  /\ ((forall j, last_blank_line span j -> before_70_percent span j) ->
      content = strip span)
  /\ (content = strip span
      \/ exists j, last_blank_line span j /\ content = strip (firstn j span)).

(** ** Line-window sections *)

(** The start lines of a list of sections increase strictly. *)
Definition increasing_starts (l : list LineWindow.CovenantSection) : Prop :=
  StronglySorted
    (fun a b => (LineWindow.start_line a < LineWindow.start_line b)%Z) l.

End Spec.

(* ===================================================================== *)
(** * Sample inputs *)
(* ===================================================================== *)

Module Samples.
Import PyStr SpanBased.

(** A one-sentence agreement. *)
Definition covenant_text : str :=
  py "Restricted Payments: the Company shall not pay any dividend.".

(** The first pattern of the restricted-payments entry. *)
Definition restricted_payments_pattern : str :=
  py "(?i)(restricted\s+payments?|dividend\s+restrictions?|distribution\s+limitations?)[:\s]*([^.]+(?:\.[^.]+){0,10})".

(** The answers of [re.finditer] on [covenant_text]: the pattern above
    matches once, from the start up to the final full stop, and no other
    pattern of [covenant_patterns] matches; no boundary pattern matches in
    the rest of the text after that match. *)
Definition covenant_text_finditer (pattern : str) (flags : list re_flag)
           (text : str) : list re_match :=
  match flags with
  | [MULTILINE; DOTALL] =>
      if str_eqb pattern restricted_payments_pattern
      then [ mkMatch 0 59
               [ py "Restricted Payments";
                 py "the Company shall not pay any dividend" ] ]
      else []
  | _ => []
  end.

(** [str.title] is not called on this text. *)
Definition no_title (s : str) : str := s.

(** Three candidates of one type. *)
Definition candidate (a b : Z) (c : Q) : CovenantSection :=
  mkSection (py "liens") (py "Liens") [] a b c.

Definition three_candidates : list CovenantSection :=
  [ candidate 0 15 (5 # 10); candidate 10 100 (6 # 10);
    candidate 20 30 (7 # 10) ].


(** Texts for the line-window extractor: a target line followed by two
    lines, with no heading line; and the target line alone. *)
Definition three_lines : str :=
  join [nl] [py "restricted payments"; py "alpha"; py "beta"].

Definition one_line : str := py "restricted payments".

Definition restricted_payments : str := py "restricted payments".

(** The section that the line-window extractor returns on [three_lines]
    with a window of one line. *)
Definition three_lines_section : LineWindow.CovenantSection :=
  LineWindow.mkSection restricted_payments (py "restricted payments") 1 2
    (join [nl] [py "restricted payments"; py "alpha"]).

(** The section that it returns on [one_line] with a window of [-1]. *)
Definition one_line_section : LineWindow.CovenantSection :=
  LineWindow.mkSection restricted_payments (py "restricted payments") 1 0 [].

(** The section that the span-based extractor returns on [covenant_text];
    its confidence is the float [0.38]. *)
Definition covenant_text_section : CovenantSection :=
  mkSection (py "restricted_payments") (py "Restricted Payments")
            covenant_text 0 60 (3422735716801577 # 9007199254740992).

(** A world without credential for the LLM bridge: no variable is set in
    the environment; the other parts are not reached. *)
Definition empty_env (name : str) : option str := None.

Definition silent_model (r : LlmBridge.request) : LlmBridge.response :=
  LlmBridge.CallFails.

Definition any_client (api_key : str) : bool := true.

Definition no_dumps (v : LlmBridge.json) : str := [].

Definition no_loads (s : str) : option LlmBridge.json := None.

(** A text with two lines that match the target, and the two sections that
    the line-window extractor returns for it with the default window. *)
Definition two_matches : str :=
  join [nl] [py "restricted payments"; py "alpha";
             py "restricted payment baskets"].

Definition two_matches_sections : list LineWindow.CovenantSection :=
  [ LineWindow.mkSection restricted_payments (py "restricted payments") 1 3
      two_matches;
    LineWindow.mkSection restricted_payments
      (py "restricted payment baskets") 3 3
      (py "restricted payment baskets") ].

End Samples.

(* ===================================================================== *)
(** * Sample texts for the span cut *)
(* ===================================================================== *)

Module SpanSamples.
Import PyStr SpanBased Samples.

(** An agreement of 6000 characters without a full stop, whose only blank
    line starts at index 4000. *)
Definition long_text : str :=
  py "Restricted Payments: the Company shall not pay any dividend "
  ++ repeat "x"%char 3940 ++ [nl; nl] ++ repeat "y"%char 1998.

(** The answers of [re.finditer] on [long_text]: the first pattern of the
    restricted-payments entry matches once, the whole text, and no other
    pattern of [covenant_patterns] matches; nothing is left after the match
    for a boundary pattern. *)
Definition long_text_finditer (pattern : str) (flags : list re_flag)
           (text : str) : list re_match :=
  match flags with
  | [MULTILINE; DOTALL] =>
      if str_eqb pattern restricted_payments_pattern
      then [ mkMatch 0 (length long_text)
               [ py "Restricted Payments"; skipn 21 long_text ] ]
      else []
  | _ => []
  end.

(** The section returned on [long_text]: the span is capped at 5000
    characters and cut at the blank line. *)
Definition long_text_section : CovenantSection :=
  mkSection (py "restricted_payments") (py "Restricted Payments")
            (firstn 4000 long_text) 0 4000
            (3422735716801577 # 9007199254740992).

(** An agreement of 90 characters whose only blank line starts at index
    63, which is 70% of 90. *)
Definition boundary_text : str :=
  py "Restricted Payments: the Company shall not pay any dividend now"
  ++ [nl; nl] ++ py "and no other distribution".

Definition boundary_text_finditer (pattern : str) (flags : list re_flag)
           (text : str) : list re_match :=
  match flags with
  | [MULTILINE; DOTALL] =>
      if str_eqb pattern restricted_payments_pattern
      then [ mkMatch 0 (length boundary_text)
               [ py "Restricted Payments"; skipn 21 boundary_text ] ]
      else []
  | _ => []
  end.

Definition boundary_text_section : CovenantSection :=
  mkSection (py "restricted_payments") (py "Restricted Payments")
            (firstn 63 boundary_text) 0 63
            (3422735716801577 # 9007199254740992).

(** A text of 10 characters whose only blank line starts at index 7,
    which is 70% of 10; no boundary pattern matches in it. *)
Definition short_text : str := py "aaaaaaa" ++ [nl; nl] ++ py "b".

Definition no_match (pattern : str) (flags : list re_flag) (text : str)
  : list re_match := [].

End SpanSamples.

(* ===================================================================== *)
(** * Further sample inputs *)
(* ===================================================================== *)

Module Worlds.
Import PyStr PyDict LlmBridge.

(** A world with a credential in the environment. *)
Definition key_env (name : str) : option str :=
  if str_eqb name (py "OPENAI_API_KEY") then Some (py "key") else None.

(** A model that answers, and the value that [json.loads] makes of its
    answer: an object with an entry for the target. *)
Definition answering_model (r : request) : response :=
  Content (Some (py "{...}")).

Definition answer : json :=
  JObj [ (py "restricted payments",
          JObj [ (py "title", JStr (py "Restricted Payments"));
                 (py "excerpt", JStr (py "the Company shall not pay")) ]) ].

Definition answer_loads (s : str) : option json := Some answer.

(** The mapping returned in that world for the target. *)
Definition answer_result : dict (dict json) :=
  [ (py "restricted payments",
     [ (py "title", JStr (py "Restricted Payments"));
       (py "excerpt", JStr (py "the Company shall not pay"));
       (py "rationale", JStr []) ]) ].

(** A world in which the client cannot be constructed. *)
Definition no_client (api_key : str) : bool := false.

(** The request made in the world without answer. *)
Definition failing_request : request :=
  mkRequest (py "key") (py "gpt-4o-mini") system_prompt
    (py "Extract and return JSON only. Format: {target: {title, excerpt}}"
     ++ [nl; nl])
    0 800.

End Worlds.

(* ===================================================================== *)
(** * Auxiliary predicates of the proofs *)
(* ===================================================================== *)

Module Shape.
Import PyStr.

(** A string that does not start with white space. *)
Definition no_lead (s : str) : Prop :=
  match s with
  | [] => True
  | c :: _ => is_space c = false
  end.

(** A string that does not end with white space. *)
Definition no_trail (s : str) : Prop := no_lead (rev s).

(** The strings on which [sub_ws_from r] changes nothing: every white
    space is one space, not preceded by white space. *)
Fixpoint collapsed (prev_space : bool) (s : str) : Prop :=
  match s with
  | [] => True
  | c :: s' =>
      if is_space c
      then prev_space = false /\ c = space /\ collapsed true s'
      else collapsed false s'
  end.

(** The shape of every normalized name: no white space at either end, white
    space only as single spaces, no capital letter. *)
Definition canonical_form (s : str) : Prop :=
  no_lead s /\ no_trail s /\ collapsed false s
  /\ Forall (fun c => char_lower c = c) s.

Import SpanBased.

(** Every section of the list is disjoint from all the later ones. *)
Fixpoint disjoint_list (l : list CovenantSection) : Prop :=
  match l with
  | [] => True
  | x :: rest => Forall (fun y => ~ Spec.overlap x y) rest /\ disjoint_list rest
  end.

(** A candidate is kept, or it lost to a kept section through a chain of
    contests. *)
Definition dominated (kept : list CovenantSection) (x : CovenantSection)
  : Prop :=
  In x kept \/
  exists y, In y kept /\ clos_trans CovenantSection Spec.beats y x.

(** The sort order of the deduplicator. *)
Definition start_le (a b : CovenantSection) : Prop :=
  (start_pos a <= start_pos b)%Z.

(** The sections built from a match carry what the loop body computes. *)
Definition built_from
           (re_finditer : str -> list re_flag -> str -> list re_match)
           (text : str) (s : CovenantSection) : Prop :=
  exists config m,
    content s = _extract_full_section re_finditer text (m_start m) (m_end m)
    /\ confidence s = _calculate_confidence (content s) config
    /\ (3 # 10 < confidence s)%Q
    /\ start_pos s = Z.of_nat (m_start m)
    /\ end_pos s = (start_pos s + Z.of_nat (length (content s)))%Z.

(** The lines that the line-window extractor records for a pattern: not
    blank, and matched by the pattern. *)
Definition recorded (pattern : Regex.regex) (line : str) : bool :=
  match strip line with
  | [] => false
  | _ :: _ => Regex.search pattern line
  end.

Definition matching_indices (pattern : Regex.regex) (il : list (Z * str))
  : list Z :=
  map fst (filter (fun x => recorded pattern (snd x)) il).

(** The sections of one canonical target, in the order of the scan. *)
Definition sections_of (lines : list str) (heading_indices : list Z)
           (max_section_lines : Z) (canonical : str) (pattern : Regex.regex)
  : list LineWindow.CovenantSection :=
  map (LineWindow.section_at lines heading_indices max_section_lines canonical)
      (matching_indices pattern (LineWindow.enumerate lines)).

End Shape.

(* ===================================================================== *)
(** * Further predicates *)
(* ===================================================================== *)

Module Props.
Import PyStr SpanBased.

(** [R] holds from every element of the list to every later one. *)
Fixpoint all_pairs {A : Type} (R : A -> A -> Prop) (l : list A) : Prop :=
  match l with
  | [] => True
  | x :: rest => Forall (R x) rest /\ all_pairs R rest
  end.

(** The start of [y] lies outside the range of [x]. *)
Definition start_outside (x y : CovenantSection) : Prop :=
  ~ Spec.covers x (start_pos y).

(** The shape of a deduplicated list: ascending start positions, and no
    start inside the range of an earlier member. *)
Definition deduplicated_shape (l : list CovenantSection) : Prop :=
  all_pairs Shape.start_le l /\ all_pairs start_outside l.

(** [p] is a contiguous part of [s]. *)
Definition part_of (p s : str) : Prop := exists a b, s = a ++ p ++ b.

(** A phrase of the configuration occurs in the text, letter case apart. *)
Definition mentions (config : Config) (text : str) : Prop :=
  exists phrase,
    In phrase (keywords config ++ section_indicators config)
    /\ contains (lower phrase) (lower text) = true.

(** A credential is present: the argument or else the environment variable
    is a string that is not empty. *)
Definition has_credential (api_key env_key : option str) : bool :=
  match LlmBridge.or_else api_key env_key with
  | Some (_ :: _) => true
  | _ => false
  end.

(** The client can be constructed with the credential. *)
Definition client_ready (client_init : str -> bool)
           (api_key env_key : option str) : bool :=
  match LlmBridge.or_else api_key env_key with
  | Some key => client_init key
  | None => false
  end.

(** The three keys of an entry of the LLM bridge. *)
Definition entry_keys : list str :=
  [py "title"; py "excerpt"; py "rationale"].

(** The number of sections of a type. *)
Definition count_of_type (covenant_type : str)
           (sections : list CovenantSection) : Z :=
  Z.of_nat (length (filter (fun s => str_eqb (section_type s) covenant_type)
                           sections)).

(** The sum of the counts of a dictionary. *)
Definition sum_counts (counts : PyDict.dict Z) : Z :=
  fold_right (fun kv acc => (snd kv + acc)%Z) 0%Z counts.

(** The state of the counting loop of [save_results] after the sections
    [done]. *)
Definition counted (counts : PyDict.dict Z) (done : list CovenantSection)
  : Prop :=
  NoDup (PyDict.keys counts)
  /\ (forall covenant_type,
         PyDict.get counts covenant_type
         = if (count_of_type covenant_type done =? 0)%Z then None
           else Some (count_of_type covenant_type done))
  /\ sum_counts counts = Z.of_nat (length done).

(** [len(section_text) * 0.7], the threshold of [_extract_full_section]
    for a span of [len] characters. *)
Definition seventy_percent (len : nat) : Q :=
  PyFloat.fmul (PyFloat.of_int (Z.of_nat len)) (PyFloat.literal (7 # 10)).

(** The threshold lies below every integer above 70% of [len], and not
    below any integer under 70% of [len]. *)
Definition separates (len : nat) : bool :=
  if PyNum.Qlt_bool (seventy_percent len)
                    (inject_Z (7 * Z.of_nat len / 10 + 1))
  then Qle_bool (inject_Z ((7 * Z.of_nat len + 9) / 10 - 1))
                (seventy_percent len)
  else false.

End Props.

(* ===================================================================== *)
(** * Facts about the string functions *)
(* ===================================================================== *)

Section StringFacts.
Import PyStr Shape.

(** Case analysis on the 256 characters. *)
Ltac by_char c :=
  destruct c as [[] [] [] [] [] [] [] []]; vm_compute; reflexivity.

Lemma is_space_char_lower (c : ascii) :
  is_space (char_lower c) = is_space c.
Proof. by_char c. Qed.

Lemma char_lower_idem (c : ascii) :
  char_lower (char_lower c) = char_lower c.
Proof. by_char c. Qed.

Lemma replace1_same (a : ascii) (s : str) : replace1 a a s = s.
Proof.
  induction s as [|c s IH]; simpl; [reflexivity|].
  rewrite IH. destruct (Ascii.eqb c a) eqn:E; [|reflexivity].
  apply Ascii.eqb_eq in E. now subst.
Qed.

Lemma lstrip_no_lead (s : str) : no_lead (lstrip s).
Proof.
  induction s as [|c s IH]; simpl; [exact I|].
  destruct (is_space c) eqn:E; [exact IH | exact E].
Qed.

Lemma lstrip_fixed (s : str) : no_lead s -> lstrip s = s.
Proof. destruct s as [|c s]; simpl; [reflexivity|]. now intros ->. Qed.

Lemma rstrip_no_trail (s : str) : no_trail (rstrip s).
Proof.
  unfold no_trail, rstrip. rewrite rev_involutive. apply lstrip_no_lead.
Qed.

Lemma rstrip_fixed (s : str) : no_trail s -> rstrip s = s.
Proof.
  unfold no_trail, rstrip. intros H.
  rewrite (lstrip_fixed _ H). apply rev_involutive.
Qed.

Lemma lstrip_suffix (s : str) : exists t, s = t ++ lstrip s.
Proof.
  induction s as [|c s [t IH]]; simpl.
  - now exists [].
  - destruct (is_space c).
    + exists (c :: t). simpl. now rewrite <- IH.
    + now exists [].
Qed.

Lemma rstrip_prefix (s : str) : exists t, s = rstrip s ++ t.
Proof.
  unfold rstrip. destruct (lstrip_suffix (rev s)) as [t Ht].
  exists (rev t).
  rewrite <- rev_app_distr, <- Ht. symmetry. apply rev_involutive.
Qed.

Lemma rstrip_no_lead (s : str) : no_lead s -> no_lead (rstrip s).
Proof.
  intros H. destruct (rstrip_prefix s) as [t Ht].
  destruct (rstrip s) as [|c r]; [exact I|].
  rewrite Ht in H. exact H.
Qed.

Lemma strip_no_lead (s : str) : no_lead (strip s).
Proof. apply rstrip_no_lead, lstrip_no_lead. Qed.

Lemma strip_no_trail (s : str) : no_trail (strip s).
Proof. apply rstrip_no_trail. Qed.

Lemma strip_fixed (s : str) : no_lead s -> no_trail s -> strip s = s.
Proof.
  intros Hl Ht. unfold strip. rewrite (lstrip_fixed _ Hl).
  now apply rstrip_fixed.
Qed.

Lemma length_lstrip (s : str) : length (lstrip s) <= length s.
Proof.
  induction s as [|c s IH]; simpl; [lia|].
  destruct (is_space c); simpl; lia.
Qed.

Lemma length_strip (s : str) : length (strip s) <= length s.
Proof.
  unfold strip, rstrip. rewrite length_rev.
  etransitivity; [apply length_lstrip|]. rewrite length_rev.
  apply length_lstrip.
Qed.

(** A string that ends without white space is empty or ends with a
    character that is not white space. *)
Lemma no_trail_inv (s : str) :
  no_trail s ->
  s = [] \/ exists t c, s = t ++ [c] /\ is_space c = false.
Proof.
  unfold no_trail. intros H.
  destruct (rev s) as [|c r] eqn:E.
  - left. apply (f_equal (@rev ascii)) in E.
    now rewrite rev_involutive in E.
  - right. exists (rev r), c. split; [|exact H].
    apply (f_equal (@rev ascii)) in E.
    now rewrite rev_involutive in E.
Qed.

Lemma no_trail_snoc (t : str) (c : ascii) :
  is_space c = false -> no_trail (t ++ [c]).
Proof. intros H. unfold no_trail. now rewrite rev_app_distr. Qed.

Lemma no_lead_map_lower (s : str) : no_lead s -> no_lead (lower s).
Proof.
  destruct s as [|c s]; simpl; [trivial|].
  now rewrite is_space_char_lower.
Qed.

Lemma no_trail_map_lower (s : str) : no_trail s -> no_trail (lower s).
Proof.
  unfold no_trail, lower. rewrite <- map_rev. apply no_lead_map_lower.
Qed.

Lemma sub_ws_from_collapsed (r : bool) (s : str) :
  collapsed r (sub_ws_from r s).
Proof.
  revert r. induction s as [|c s IH]; intros r; simpl; [exact I|].
  destruct (is_space c) eqn:E.
  - destruct r; [apply IH|].
    simpl. change (is_space space) with true. cbv iota.
    repeat split. apply IH.
  - simpl. rewrite E. apply IH.
Qed.

Lemma sub_ws_from_fixed (r : bool) (s : str) :
  collapsed r s -> sub_ws_from r s = s.
Proof.
  revert r. induction s as [|c s IH]; intros r; simpl; [reflexivity|].
  destruct (is_space c) eqn:E.
  - intros (-> & -> & H). now rewrite (IH true H).
  - intros H. now rewrite (IH false H).
Qed.

Lemma sub_ws_from_snoc (r : bool) (s : str) (c : ascii) :
  is_space c = false ->
  sub_ws_from r (s ++ [c]) = sub_ws_from r s ++ [c].
Proof.
  intros Hc. revert r. induction s as [|d s IH]; intros r; simpl.
  - now rewrite Hc.
  - destruct (is_space d); [destruct r|]; simpl; now rewrite IH.
Qed.

Lemma sub_ws_no_lead (s : str) : no_lead s -> no_lead (sub_ws s).
Proof.
  destruct s as [|c s]; simpl; [trivial|]. intros H.
  unfold sub_ws. simpl. now rewrite H.
Qed.

Lemma sub_ws_no_trail (s : str) : no_trail s -> no_trail (sub_ws s).
Proof.
  intros H. destruct (no_trail_inv _ H) as [-> | (t & c & -> & Hc)].
  - exact I.
  - unfold sub_ws. rewrite (sub_ws_from_snoc _ _ _ Hc).
    now apply no_trail_snoc.
Qed.

Lemma sub_ws_from_Forall (P : ascii -> Prop) (r : bool) (s : str) :
  P space -> Forall P s -> Forall P (sub_ws_from r s).
Proof.
  intros Hsp H. revert r.
  induction H as [|c s Hc _ IH]; intros r; simpl; [constructor|].
  destruct (is_space c); [destruct r|]; auto.
Qed.

Lemma lower_fixed (s : str) :
  Forall (fun c => char_lower c = c) s -> lower s = s.
Proof.
  induction 1 as [|c s Hc _ IH]; simpl; [reflexivity|].
  now rewrite Hc, IH.
Qed.

Lemma Forall_prefix (P : ascii -> Prop) (s t : str) :
  Forall P (s ++ t) -> Forall P s.
Proof. intros H. apply Forall_app in H. tauto. Qed.

End StringFacts.


(* ===================================================================== *)
(** * Target normalization *)
(* ===================================================================== *)

Section Normalization.
Import PyStr LineWindow Shape.

Lemma normalize_target_canonical (name : str) :
  canonical_form (normalize_target name).
Proof.
  unfold normalize_target. rewrite replace1_same.
  set (b := lower (strip name)).
  assert (Hl : no_lead (sub_ws b))
    by (apply sub_ws_no_lead, no_lead_map_lower, strip_no_lead).
  assert (Ht : no_trail (sub_ws b))
    by (apply sub_ws_no_trail, no_trail_map_lower, strip_no_trail).
  rewrite (strip_fixed _ Hl Ht).
  repeat split; auto.
  - apply sub_ws_from_collapsed.
  - apply sub_ws_from_Forall; [reflexivity|].
    unfold b, lower. apply Forall_forall. intros c Hc.
    apply in_map_iff in Hc. destruct Hc as (d & <- & _).
    apply char_lower_idem.
Qed.

Lemma normalize_target_fixed (s : str) :
  canonical_form s -> normalize_target s = s.
Proof.
  intros (Hl & Ht & Hc & Hlow). unfold normalize_target.
  rewrite replace1_same, (strip_fixed _ Hl Ht), (lower_fixed _ Hlow).
  unfold sub_ws. rewrite (sub_ws_from_fixed _ _ Hc).
  now apply strip_fixed.
Qed.

(** C9. Target normalization is idempotent: normalizing a name that is
    already normalized changes nothing, whatever the name. *)
Theorem normalize_target_idempotent (x : str) :
  normalize_target (normalize_target x) = normalize_target x.
Proof. apply normalize_target_fixed, normalize_target_canonical. Qed.

End Normalization.


(* ===================================================================== *)
(** * Facts about rounding *)
(* ===================================================================== *)

Section FloatFacts.
Import PyFloat.

Lemma pow2_pos (e : Z) : (0 < pow2 e)%Q.
Proof. apply Qpower_0_lt. reflexivity. Qed.

Lemma pow2_add (a b : Z) : (pow2 (a + b) == pow2 a * pow2 b)%Q.
Proof. apply Qpower_plus. discriminate. Qed.

Lemma pow2_le (a b : Z) : (a <= b)%Z -> (pow2 a <= pow2 b)%Q.
Proof. intros H. apply Qpower_le_compat_l; [exact H | discriminate]. Qed.

Lemma pow2_lt (a b : Z) : (a < b)%Z -> (pow2 a < pow2 b)%Q.
Proof. intros H. apply Qpower_lt_compat_l; [exact H | reflexivity]. Qed.

Lemma pow2_inject (n : Z) : (0 <= n)%Z -> (inject_Z (2 ^ n) == pow2 n)%Q.
Proof. intros H. now rewrite Zpower_Qpower. Qed.

Lemma Qmult_pow2_le (x y : Q) (e : Z) :
  (x * pow2 e <= y * pow2 e)%Q -> (x <= y)%Q.
Proof. intros H. now apply Qmult_le_r in H; [|apply pow2_pos]. Qed.

Lemma Qmult_pow2_lt (x y : Q) (e : Z) :
  (x * pow2 e < y * pow2 e)%Q -> (x < y)%Q.
Proof. intros H. now apply Qmult_lt_r in H; [|apply pow2_pos]. Qed.

Lemma Qdiv_pow2 (x : Q) (e : Z) : (x / pow2 e * pow2 e == x)%Q.
Proof.
  field. intros H. pose proof (pow2_pos e) as P. rewrite H in P.
  discriminate.
Qed.

(** [ilog2] is the exponent of the binade. *)
Lemma ilog2_spec (x : Q) :
  (0 < x)%Q -> (pow2 (ilog2 x) <= x < pow2 (ilog2 x + 1))%Q.
Proof.
  intros Hx. destruct x as [a b]. unfold ilog2. cbn [Qnum Qden].
  assert (Ha : (0 < a)%Z) by (unfold Qlt in Hx; simpl in Hx; lia).
  set (la := Z.log2 a). set (lb := Z.log2 (Zpos b)).
  assert (Hla : (0 <= la)%Z) by apply Z.log2_nonneg.
  assert (Hlb : (0 <= lb)%Z) by apply Z.log2_nonneg.
  destruct (Z.log2_spec a Ha) as (A1 & A2). fold la in A1, A2.
  destruct (Z.log2_spec (Zpos b) eq_refl) as (B1 & B2). fold lb in B1, B2.
  assert (E : ((a # b) * inject_Z (Zpos b) == inject_Z a)%Q).
  { unfold Qeq, Qmult, inject_Z. simpl. lia. }
  assert (A1' : (pow2 la <= inject_Z a)%Q)
    by (rewrite <- pow2_inject by lia; now rewrite <- Zle_Qle).
  assert (A2' : (inject_Z a < pow2 (la + 1))%Q)
    by (rewrite <- pow2_inject by lia; now rewrite <- Zlt_Qlt).
  assert (B1' : (pow2 lb <= inject_Z (Zpos b))%Q)
    by (rewrite <- pow2_inject by lia; now rewrite <- Zle_Qle).
  assert (B2' : (inject_Z (Zpos b) < pow2 (lb + 1))%Q)
    by (rewrite <- pow2_inject by lia; now rewrite <- Zlt_Qlt).
  assert (Hup : (a # b < pow2 (la - lb + 1))%Q).
  { apply (Qmult_pow2_lt _ _ lb). rewrite <- pow2_add.
    replace (la - lb + 1 + lb)%Z with (la + 1)%Z by ring.
    apply Qle_lt_trans with ((a # b) * inject_Z (Zpos b))%Q.
    - apply Qmult_le_l; [exact Hx | exact B1'].
    - now rewrite E. }
  assert (Hlo : (pow2 (la - lb - 1) < a # b)%Q).
  { apply (Qmult_pow2_lt _ _ (lb + 1)). rewrite <- pow2_add.
    replace (la - lb - 1 + (lb + 1))%Z with la by ring.
    apply Qle_lt_trans with ((a # b) * inject_Z (Zpos b))%Q.
    - now rewrite E.
    - apply Qmult_lt_l; [exact Hx | exact B2']. }
  destruct (Qcompare_spec (a # b) (pow2 (la - lb))) as [H | H | H].
  - split; [rewrite H; apply Qle_refl | exact Hup].
  - replace (la - lb - 1 + 1)%Z with (la - lb)%Z by ring.
    split; [now apply Qlt_le_weak | exact H].
  - split; [now apply Qlt_le_weak | exact Hup].
Qed.

Lemma ilog2_le (x y : Q) :
  (0 < x)%Q -> (x <= y)%Q -> (ilog2 x <= ilog2 y)%Z.
Proof.
  intros Hx Hxy.
  assert (Hy : (0 < y)%Q) by (eapply Qlt_le_trans; eauto).
  destruct (ilog2_spec x Hx) as (X1 & _).
  destruct (ilog2_spec y Hy) as (_ & Y2).
  destruct (Z.le_gt_cases (ilog2 x) (ilog2 y)) as [H | H]; [exact H|].
  exfalso. assert (P := pow2_le (ilog2 y + 1) (ilog2 x) ltac:(lia)).
  lra.
Qed.

(** Rounding to the nearest integer. *)
Lemma rne_cases (y : Q) :
  let f := Qfloor y in
  (inject_Z f <= y < inject_Z f + 1)%Q
  /\ ((y - inject_Z f < 1 # 2)%Q /\ rne y = f
      \/ (1 # 2 < y - inject_Z f)%Q /\ rne y = (f + 1)%Z
      \/ (y - inject_Z f == 1 # 2)%Q
         /\ rne y = if Z.even f then f else (f + 1)%Z).
Proof.
  intros f. split.
  - split; [apply Qfloor_le|].
    pose proof (Qlt_floor y) as H. rewrite inject_Z_plus in H. exact H.
  - unfold rne. fold f.
    destruct (Qcompare_spec (y - inject_Z f) (1 # 2)) as [H | H | H]; auto.
Qed.

Lemma rne_near (y : Q) :
  (inject_Z (rne y) - (1 # 2) <= y <= inject_Z (rne y) + (1 # 2))%Q.
Proof.
  destruct (rne_cases y) as ((F1 & F2) & [(H & ->) | [(H & ->) | (H & ->)]]).
  - lra.
  - rewrite inject_Z_plus. change (inject_Z 1) with 1%Q. lra.
  - destruct (Z.even (Qfloor y)).
    + lra.
    + rewrite inject_Z_plus. change (inject_Z 1) with 1%Q. lra.
Qed.

Lemma rne_le (x y : Q) : (x <= y)%Q -> (rne x <= rne y)%Z.
Proof.
  intros Hxy. pose proof (Qfloor_resp_le x y Hxy) as Hf.
  destruct (rne_cases x) as ((X1 & X2) & HX).
  destruct (rne_cases y) as ((Y1 & Y2) & HY).
  assert (Hx : (Qfloor x <= rne x <= Qfloor x + 1)%Z).
  { destruct HX as [(_ & ->) | [(_ & ->) | (_ & ->)]]; try lia.
    destruct (Z.even (Qfloor x)); lia. }
  assert (Hy : (Qfloor y <= rne y <= Qfloor y + 1)%Z).
  { destruct HY as [(_ & ->) | [(_ & ->) | (_ & ->)]]; try lia.
    destruct (Z.even (Qfloor y)); lia. }
  destruct (Z.eq_dec (Qfloor x) (Qfloor y)) as [E | N]; [|lia].
  rewrite E in *.
  destruct HX as [(HX & ->) | [(HX & ->) | (HX & ->)]];
    destruct HY as [(HY & ->) | [(HY & ->) | (HY & ->)]];
    try lia; try (destruct (Z.even (Qfloor y)); lia); exfalso; lra.
Qed.

Lemma rne_Z (z : Z) : rne (inject_Z z) = z.
Proof.
  destruct (rne_cases (inject_Z z)) as (_ & H). rewrite Qfloor_Z in H.
  destruct H as [(_ & ->) | [(H & _) | (H & _)]];
    [reflexivity | exfalso; lra | exfalso; lra].
Qed.

Lemma rnd_pos_value (x : Q) :
  let e := Z.max (ilog2 x - (prec - 1)) emin in
  (rnd_pos x == inject_Z (rne (x / pow2 e)) * pow2 e)%Q.
Proof. intros e. unfold rnd_pos. fold e. apply Qred_correct. Qed.

(** The significand of a rounded value has at most 53 bits, and at least
    53 bits above the least exponent. *)
Lemma rnd_pos_significand (x : Q) :
  (0 < x)%Q ->
  let e := Z.max (ilog2 x - (prec - 1)) emin in
  (0 <= rne (x / pow2 e) <= 2 ^ prec)%Z
  /\ ((emin < e)%Z -> (2 ^ (prec - 1) <= rne (x / pow2 e))%Z).
Proof.
  intros Hx e. destruct (ilog2_spec x Hx) as (L1 & L2).
  assert (He : (ilog2 x - (prec - 1) <= e)%Z) by (unfold e; lia).
  assert (Hy : (0 <= x / pow2 e)%Q).
  { apply Qle_shift_div_l; [apply pow2_pos | lra]. }
  split; [split|].
  - rewrite <- (rne_Z 0). now apply rne_le.
  - rewrite <- (rne_Z (2 ^ prec)). apply rne_le.
    apply Qle_shift_div_r; [apply pow2_pos|].
    rewrite pow2_inject by (unfold prec; lia). rewrite <- pow2_add.
    apply Qlt_le_weak, (Qlt_le_trans _ _ _ L2), pow2_le. lia.
  - intros Hmin. assert (Ee : e = (ilog2 x - (prec - 1))%Z) by (unfold e in *; lia).
    rewrite <- (rne_Z (2 ^ (prec - 1))). apply rne_le.
    apply Qle_shift_div_l; [apply pow2_pos|].
    rewrite pow2_inject by (unfold prec; lia). rewrite <- pow2_add.
    replace (prec - 1 + e)%Z with (ilog2 x) by lia. exact L1.
Qed.

Lemma rnd_pos_le (x y : Q) :
  (0 < x)%Q -> (x <= y)%Q -> (rnd_pos x <= rnd_pos y)%Q.
Proof.
  intros Hx Hxy.
  assert (Hy : (0 < y)%Q) by (eapply Qlt_le_trans; eauto).
  rewrite (rnd_pos_value x), (rnd_pos_value y).
  set (ex := Z.max (ilog2 x - (prec - 1)) emin).
  set (ey := Z.max (ilog2 y - (prec - 1)) emin).
  pose proof (ilog2_le x y Hx Hxy) as HL.
  assert (Hexy : (ex <= ey)%Z) by (unfold ex, ey; lia).
  destruct (Z.eq_dec ex ey) as [E | N].
  - rewrite E. apply Qmult_le_compat_r; [|apply Qlt_le_weak, pow2_pos].
    rewrite <- Zle_Qle. apply rne_le.
    apply Qmult_le_compat_r; [exact Hxy|].
    apply Qlt_le_weak, Qinv_lt_0_compat, pow2_pos.
  - destruct (rnd_pos_significand x Hx) as ((_ & Mx) & _).
    destruct (rnd_pos_significand y Hy) as (_ & My).
    fold ex in Mx. fold ey in My.
    specialize (My ltac:(unfold ex in *; lia)).
    apply Qle_trans with (inject_Z (2 ^ prec) * pow2 ex)%Q.
    { apply Qmult_le_compat_r; [|apply Qlt_le_weak, pow2_pos].
      now rewrite <- Zle_Qle. }
    apply Qle_trans with (inject_Z (2 ^ (prec - 1)) * pow2 ey)%Q.
    2:{ apply Qmult_le_compat_r; [|apply Qlt_le_weak, pow2_pos].
        now rewrite <- Zle_Qle. }
    rewrite !pow2_inject by (unfold prec; lia). rewrite <- !pow2_add.
    apply pow2_le. lia.
Qed.

Lemma rnd_pos_nonneg (x : Q) : (0 < x)%Q -> (0 <= rnd_pos x)%Q.
Proof.
  intros Hx. rewrite rnd_pos_value.
  destruct (rnd_pos_significand x Hx) as ((M & _) & _).
  apply Qmult_le_0_compat; [|apply Qlt_le_weak, pow2_pos].
  change 0%Q with (inject_Z 0). now rewrite <- Zle_Qle.
Qed.

Lemma rnd_of_pos (x : Q) : (0 < x)%Q -> rnd x = rnd_pos x.
Proof.
  intros Hx. unfold rnd. destruct x as [[|a|a] b]; simpl;
    try reflexivity; unfold Qlt in Hx; simpl in Hx; lia.
Qed.

Lemma rnd_of_zero (x : Q) : (x == 0)%Q -> rnd x = 0%Q.
Proof.
  intros Hx. unfold rnd. destruct x as [[|a|a] b]; simpl;
    try reflexivity; unfold Qeq in Hx; simpl in Hx; lia.
Qed.

Lemma rnd_nonneg (x : Q) : (0 <= x)%Q -> (0 <= rnd x)%Q.
Proof.
  intros Hx. destruct (Qlt_le_dec 0 x) as [H | H].
  - rewrite rnd_of_pos by exact H. now apply rnd_pos_nonneg.
  - rewrite rnd_of_zero by lra. apply Qle_refl.
Qed.

(** Rounding is monotone. *)
Lemma rnd_le (x y : Q) :
  (0 <= x)%Q -> (x <= y)%Q -> (rnd x <= rnd y)%Q.
Proof.
  intros Hx Hxy. destruct (Qlt_le_dec 0 x) as [H | H].
  - rewrite (rnd_of_pos x H), (rnd_of_pos y) by lra.
    now apply rnd_pos_le.
  - rewrite (rnd_of_zero x) by lra. apply rnd_nonneg. lra.
Qed.


Lemma rnd_compat (x y : Q) : (0 <= x)%Q -> (x == y)%Q -> (rnd x == rnd y)%Q.
Proof.
  intros Hx E. apply Qle_antisym; apply rnd_le; lra.
Qed.

Lemma fmul_le (x x' c : Q) :
  (0 <= x)%Q -> (x <= x')%Q -> (0 <= c)%Q -> (fmul x c <= fmul x' c)%Q.
Proof.
  intros Hx Hxx Hc. apply rnd_le.
  - now apply Qmult_le_0_compat.
  - now apply Qmult_le_compat_r.
Qed.

Lemma fmul_nonneg (x c : Q) : (0 <= x)%Q -> (0 <= c)%Q -> (0 <= fmul x c)%Q.
Proof. intros Hx Hc. apply rnd_nonneg. now apply Qmult_le_0_compat. Qed.

Lemma fadd_le (x x' y y' : Q) :
  (0 <= x)%Q -> (x <= x')%Q -> (0 <= y)%Q -> (y <= y')%Q ->
  (fadd x y <= fadd x' y')%Q.
Proof. intros. apply rnd_le; lra. Qed.

Lemma fadd_nonneg (x y : Q) : (0 <= x)%Q -> (0 <= y)%Q -> (0 <= fadd x y)%Q.
Proof. intros. apply rnd_nonneg. lra. Qed.

Lemma Qdiv_nat_le (a a' b : Z) :
  (0 <= a)%Z -> (a <= a')%Z -> (0 < b)%Z ->
  (0 <= inject_Z a / inject_Z b)%Q
  /\ (inject_Z a / inject_Z b <= inject_Z a' / inject_Z b)%Q.
Proof.
  intros Ha Haa Hb.
  assert (Hb' : (0 < / inject_Z b)%Q).
  { apply Qinv_lt_0_compat. change 0%Q with (inject_Z 0).
    now rewrite <- Zlt_Qlt. }
  split.
  - apply Qmult_le_0_compat; [|now apply Qlt_le_weak].
    change 0%Q with (inject_Z 0). now rewrite <- Zle_Qle.
  - apply Qmult_le_compat_r; [|now apply Qlt_le_weak].
    now rewrite <- Zle_Qle.
Qed.


(** A rounded value is a significand of at most 53 bits times a power of
    two. *)
Lemma rnd_form (x : Q) :
  (0 < x)%Q ->
  exists m e,
    (rnd x == inject_Z m * pow2 e)%Q
    /\ (0 <= m <= 2 ^ prec)%Z
    /\ e = Z.max (ilog2 x - (prec - 1)) emin
    /\ (inject_Z m - (1 # 2) <= x / pow2 e <= inject_Z m + (1 # 2))%Q.
Proof.
  intros Hx. rewrite (rnd_of_pos x Hx).
  exists (rne (x / pow2 (Z.max (ilog2 x - (prec - 1)) emin))),
         (Z.max (ilog2 x - (prec - 1)) emin).
  split; [apply rnd_pos_value|]. split; [apply (rnd_pos_significand x Hx)|].
  split; [reflexivity | apply rne_near].
Qed.

(** The rounding error of a value below 2 is at most [2^-53]. *)
Lemma rnd_error (x : Q) :
  (0 <= x)%Q -> (x < 2)%Q ->
  (- (1 # 9007199254740992) <= rnd x - x <= 1 # 9007199254740992)%Q.
Proof.
  intros Hx Hx2. destruct (Qlt_le_dec 0 x) as [H | H].
  2:{ rewrite rnd_of_zero by lra. lra. }
  destruct (rnd_form x H) as (m & e & -> & _ & He & Hm).
  destruct (ilog2_spec x H) as (L1 & _).
  assert (HL : (ilog2 x <= 0)%Z).
  { destruct (Z.le_gt_cases (ilog2 x) 0) as [G | G]; [exact G|].
    exfalso. assert (P := pow2_le 1 (ilog2 x) ltac:(lia)).
    change (pow2 1) with 2%Q in P. lra. }
  assert (He' : (e <= -52)%Z) by (unfold prec, emin in He; lia).
  assert (P := pow2_le e (-52) He').
  assert (P0 := pow2_pos e).
  assert (E52 : (pow2 (-52) == 1 # 4503599627370496)%Q) by reflexivity.
  assert (Ex := Qdiv_pow2 x e).
  set (y := (x / pow2 e)%Q) in *. set (p := pow2 e) in *.
  assert (Hlo : ((inject_Z m - (1 # 2)) * p <= y * p)%Q)
    by (apply Qmult_le_compat_r; lra).
  assert (Hhi : (y * p <= (inject_Z m + (1 # 2)) * p)%Q)
    by (apply Qmult_le_compat_r; lra).
  assert (E1 : ((inject_Z m - (1 # 2)) * p == inject_Z m * p - (1 # 2) * p)%Q)
    by ring.
  assert (E2 : ((inject_Z m + (1 # 2)) * p == inject_Z m * p + (1 # 2) * p)%Q)
    by ring.
  set (M := (inject_Z m * p)%Q) in *. lra.
Qed.

(** A float above the float [0.3] is above three tenths: no float lies
    between them. *)
Lemma above_three_tenths (x : Q) :
  (0 <= x)%Q -> (literal (3 # 10) < rnd x)%Q -> (3 # 10 < rnd x)%Q.
Proof.
  intros Hx Hlt.
  assert (E03 : literal (3 # 10)
                = (5404319552844595 # 18014398509481984)%Q)
    by (vm_compute; reflexivity).
  rewrite E03 in Hlt.
  destruct (Qlt_le_dec 0 x) as [H | H].
  2:{ rewrite rnd_of_zero in Hlt by lra. discriminate. }
  destruct (rnd_form x H) as (m & e & E & (M0 & M1) & _ & _).
  rewrite E in *.
  assert (E54 : (pow2 (-54) == 1 # 18014398509481984)%Q) by reflexivity.
  destruct (Z.le_gt_cases (-54) e) as [G | G].
  - assert (Ee : (pow2 e == inject_Z (2 ^ (e + 54)) * pow2 (-54))%Q).
    { rewrite pow2_inject by lia. rewrite <- pow2_add.
      now replace (e + 54 + -54)%Z with e by ring. }
    assert (Ek : (inject_Z m * pow2 e
                  == inject_Z (m * 2 ^ (e + 54)) * (1 # 18014398509481984))%Q).
    { rewrite Ee, E54, inject_Z_mult. ring. }
    rewrite Ek in *.
    set (k := (m * 2 ^ (e + 54))%Z) in *.
    assert (Hk : (5404319552844595 < k)%Z).
    { rewrite Zlt_Qlt.
      apply (Qmult_lt_r _ _ (1 # 18014398509481984)); [reflexivity|].
      eapply Qle_lt_trans; [|exact Hlt].
      unfold Qle. simpl. lia. }
    apply Qlt_le_trans
      with (inject_Z 5404319552844596 * (1 # 18014398509481984))%Q;
      [reflexivity|].
    apply Qmult_le_compat_r; [|discriminate].
    rewrite <- Zle_Qle. lia.
  - exfalso. assert (P := pow2_le e (-55) ltac:(lia)).
    assert (E55 : (pow2 (-55) == 1 # 36028797018963968)%Q) by reflexivity.
    assert (Hm : (inject_Z m <= inject_Z (2 ^ prec))%Q)
      by now rewrite <- Zle_Qle.
    change (inject_Z (2 ^ prec)) with (inject_Z 9007199254740992) in Hm.
    assert (Hp := pow2_pos e).
    assert (Hb : (inject_Z m * pow2 e
                  <= inject_Z 9007199254740992 * (1 # 36028797018963968))%Q).
    { apply Qle_trans with (inject_Z 9007199254740992 * pow2 e)%Q.
      - apply Qmult_le_compat_r; lra.
      - apply Qmult_le_l; [reflexivity | lra]. }
    assert (Hc : (inject_Z 9007199254740992 * (1 # 36028797018963968)
                  == 1 # 4)%Q) by reflexivity.
    lra.
Qed.

End FloatFacts.

(* ===================================================================== *)
(** * Confidence Scorer *)
(* ===================================================================== *)

Section Confidence.
Import PyStr PyNum PyFloat SpanBased.

Lemma Qlt_bool_iff (a b : Q) : Qlt_bool a b = true <-> (a < b)%Q.
Proof.
  unfold Qlt_bool. rewrite negb_true_iff. split.
  - intros H. apply Qnot_le_lt. intros Hle.
    apply Qle_bool_iff in Hle. congruence.
  - intros H. destruct (Qle_bool b a) eqn:E; [|reflexivity].
    apply Qle_bool_iff in E. exfalso. now apply (Qlt_not_le a b).
Qed.

Lemma count_hits_le (phrases : list str) (text_lower : str) :
  count_hits phrases text_lower <= length phrases.
Proof. unfold count_hits. apply filter_length_le. Qed.

Lemma score_bounds (hits size : nat) :
  (0 <= Spec.score hits size <= 1)%Q.
Proof.
  unfold Spec.score. destruct size as [|m]; [split; discriminate|].
  split; [|apply Q.le_min_l].
  apply Q.min_glb; [discriminate|]. unfold Qle. simpl. lia.
Qed.

Lemma quotient_score (hits total : nat) :
  hits <= S total ->
  (inject_Z (Z.of_nat hits) / inject_Z (Z.of_nat (Nat.max 1 (S total)))
   == Spec.score hits (S total))%Q.
Proof.
  intros Hle. unfold Spec.score.
  change (Nat.max 1 (S total)) with (S total).
  rewrite Q.min_r.
  - rewrite Qmake_Qdiv. rewrite <- Pos.of_nat_succ. reflexivity.
  - unfold Qle. cbn [Qnum Qden]. rewrite <- Pos.of_nat_succ. lia.
Qed.

(** The guarded quotient of the code is the score of the specification,
    rounded to a float. *)
Lemma ratio_score (hits total : nat) :
  hits <= total -> (ratio hits total == rnd (Spec.score hits total))%Q.
Proof.
  intros Hle. destruct total as [|m].
  - assert (hits = 0) as -> by lia. reflexivity.
  - unfold ratio, int_truediv.
    pose proof (quotient_score hits m Hle) as E.
    pose proof (score_bounds hits (S m)) as (S0 & S1).
    set (q := (inject_Z (Z.of_nat hits)
               / inject_Z (Z.of_nat (Nat.max 1 (S m))))%Q) in *.
    assert (H1 : (rnd q <= 1)%Q).
    { change 1%Q with (rnd 1). apply rnd_le; lra. }
    rewrite Q.min_r by exact H1. apply rnd_compat; lra.
Qed.

Lemma ratio_bounds (hits total : nat) : (0 <= ratio hits total <= 1)%Q.
Proof.
  unfold ratio. split; [|apply Q.le_min_l].
  apply Q.min_glb; [discriminate|].
  apply rnd_nonneg.
  apply (Qdiv_nat_le (Z.of_nat hits) (Z.of_nat hits)); lia.
Qed.

(** The two weights, and what the float operations give at the ends of
    the range. *)
Lemma weights :
  literal (6 # 10) = (5404319552844595 # 9007199254740992)%Q
  /\ literal (4 # 10) = (3602879701896397 # 9007199254740992)%Q.
Proof. split; vm_compute; reflexivity. Qed.

Lemma full_confidence :
  fadd (fmul 1 (literal (6 # 10))) (fmul 1 (literal (4 # 10))) = 1%Q.
Proof. vm_compute. reflexivity. Qed.

Lemma weighted_bounds (a c : Q) :
  (0 <= a <= 1)%Q -> (0 <= c)%Q ->
  (0 <= fmul a c <= fmul 1 c)%Q.
Proof.
  intros (A0 & A1) Hc. split; [now apply fmul_nonneg | now apply fmul_le].
Qed.

Lemma confidence_bounds (text : str) (config : Config) :
  (0 <= _calculate_confidence text config <= 1)%Q.
Proof.
  unfold _calculate_confidence. cbv zeta.
  set (a := ratio _ (length (keywords config))).
  set (b := ratio _ (length (section_indicators config))).
  assert (Ha := ratio_bounds (count_hits (keywords config) (lower text))
                             (length (keywords config))).
  assert (Hb := ratio_bounds
                  (count_hits (section_indicators config) (lower text))
                  (length (section_indicators config))).
  fold a in Ha. fold b in Hb. clearbody a b.
  destruct weights as (E6 & E4).
  destruct (weighted_bounds a (literal (6 # 10)) Ha) as (K0 & K1);
    [rewrite E6; discriminate|].
  destruct (weighted_bounds b (literal (4 # 10)) Hb) as (I0 & I1);
    [rewrite E4; discriminate|].
  split; [now apply fadd_nonneg|].
  rewrite <- full_confidence. now apply fadd_le.
Qed.

(** With no keyword and three of four indicators the confidence is the
    float [0.30000000000000004], which passes the floor [0.3]. *)
Lemma rounded_confidence :
  fadd (fmul (ratio 0 4) (literal (6 # 10)))
       (fmul (ratio 3 4) (literal (4 # 10)))
  = (1351079888211149 # 4503599627370496)%Q
  /\ Qlt_bool (literal (3 # 10))
              (1351079888211149 # 4503599627370496) = true.
Proof. split; vm_compute; reflexivity. Qed.

(** A confidence above the float [0.3] is above three tenths. *)
Lemma confidence_above_floor (text : str) (config : Config) :
  (literal (3 # 10) < _calculate_confidence text config)%Q ->
  (3 # 10 < _calculate_confidence text config)%Q.
Proof.
  unfold _calculate_confidence. cbv zeta. unfold fadd.
  apply above_three_tenths.
  pose proof (ratio_bounds (count_hits (keywords config) (lower text))
                           (length (keywords config))) as Ha.
  pose proof (ratio_bounds
                (count_hits (section_indicators config) (lower text))
                (length (section_indicators config))) as Hi.
  destruct weights as (E6 & E4).
  pose proof (fmul_nonneg _ (literal (6 # 10)) (proj1 Ha)) as K.
  pose proof (fmul_nonneg _ (literal (4 # 10)) (proj1 Hi)) as I.
  rewrite E6 in K. rewrite E4 in I. rewrite E6, E4.
  specialize (K ltac:(discriminate)). specialize (I ltac:(discriminate)).
  lra.
Qed.

(** C4. The confidence of a text is, in the arithmetic of Python's floats,
    [0.6] times the keyword score plus [0.4] times the indicator score, each
    score being [min(1, hits / size)] and [0] for an empty set; the hits
    count the phrases whose lower-case form occurs in the lower-cased text,
    each once.  The returned float differs from the exact value of that
    formula by at most [2^-50], and it lies in [[0, 1]]. *)
Theorem calculate_confidence_formula (text : str) (config : Config) :
  let present := fun phrase => contains (lower phrase) (lower text) in
  let keyword_hits := length (filter present (keywords config)) in
  let indicator_hits := length (filter present (section_indicators config)) in
  let keyword_score := Spec.score keyword_hits (length (keywords config)) in
  let indicator_score :=
    Spec.score indicator_hits (length (section_indicators config)) in
  (_calculate_confidence text config
   == fadd (fmul (literal (6 # 10)) (rnd keyword_score))
           (fmul (literal (4 # 10)) (rnd indicator_score)))%Q
  /\ (- (1 # 1125899906842624)
      <= _calculate_confidence text config
         - ((6 # 10) * keyword_score + (4 # 10) * indicator_score)
      <= 1 # 1125899906842624)%Q
  /\ (0 <= _calculate_confidence text config <= 1)%Q.
Proof.
  intros present keyword_hits indicator_hits keyword_score indicator_score.
  pose proof (ratio_score _ _ (count_hits_le (keywords config) (lower text)))
    as Ek.
  pose proof (ratio_score _ _
                (count_hits_le (section_indicators config) (lower text)))
    as Ei.
  unfold count_hits in Ek, Ei. fold present in Ek, Ei.
  fold keyword_hits in Ek. fold indicator_hits in Ei.
  fold keyword_score in Ek. fold indicator_score in Ei.
  pose proof (score_bounds keyword_hits (length (keywords config))) as Sk.
  pose proof (score_bounds indicator_hits
                (length (section_indicators config))) as Si.
  fold keyword_score in Sk. fold indicator_score in Si.
  pose proof (confidence_bounds text config) as Hb.
  pose proof (ratio_bounds (count_hits (keywords config) (lower text))
                           (length (keywords config))) as Ha.
  pose proof (ratio_bounds
                (count_hits (section_indicators config) (lower text))
                (length (section_indicators config))) as Hi.
  unfold _calculate_confidence in *. cbv zeta in *.
  unfold count_hits in *. fold present in Hb, Ha, Hi |- *.
  fold keyword_hits in Hb, Ha, Hi |- *.
  fold indicator_hits in Hb, Ha, Hi |- *.
  set (a := ratio keyword_hits (length (keywords config))) in *.
  set (b := ratio indicator_hits (length (section_indicators config))) in *.
  clearbody a b keyword_score indicator_score.
  destruct weights as (E6 & E4). rewrite E6, E4 in *.
  set (c6 := (5404319552844595 # 9007199254740992)%Q) in *.
  set (c4 := (3602879701896397 # 9007199254740992)%Q) in *.
  assert (C6 : (0 <= c6)%Q) by discriminate.
  assert (C4 : (0 <= c4)%Q) by discriminate.
  assert (Pk : (0 <= a * c6)%Q) by (apply Qmult_le_0_compat; lra).
  assert (Pi : (0 <= b * c4)%Q) by (apply Qmult_le_0_compat; lra).
  split; [|split; [|exact Hb]].
  - unfold fadd. apply rnd_compat.
    + pose proof (fmul_nonneg a c6). pose proof (fmul_nonneg b c4). lra.
    + assert (F1 : (fmul a c6 == fmul c6 (rnd keyword_score))%Q).
      { unfold fmul. apply rnd_compat; [exact Pk|]. rewrite Ek. ring. }
      assert (F2 : (fmul b c4 == fmul c4 (rnd indicator_score))%Q).
      { unfold fmul. apply rnd_compat; [exact Pi|]. rewrite Ei. ring. }
      rewrite F1, F2. reflexivity.
  - pose proof (rnd_error keyword_score) as Rk.
    pose proof (rnd_error indicator_score) as Ri.
    rewrite <- Ek in Rk. rewrite <- Ei in Ri.
    specialize (Rk ltac:(lra) ltac:(lra)).
    specialize (Ri ltac:(lra) ltac:(lra)).
    assert (Uk : (a * c6 <= 1 * c6)%Q) by (apply Qmult_le_compat_r; lra).
    assert (Ui : (b * c4 <= 1 * c4)%Q) by (apply Qmult_le_compat_r; lra).
    pose proof (rnd_error (a * c6)) as Mk.
    pose proof (rnd_error (b * c4)) as Mi.
    unfold c6 in Uk, Mk. unfold c4 in Ui, Mi.
    specialize (Mk ltac:(lra) ltac:(lra)).
    specialize (Mi ltac:(lra) ltac:(lra)).
    fold c6 in Uk, Mk. fold c4 in Ui, Mi.
    unfold fadd, fmul in *.
    set (t1 := rnd (a * c6)) in *. set (t2 := rnd (b * c4)) in *.
    assert (T1 : (0 <= t1)%Q) by (apply rnd_nonneg; exact Pk).
    assert (T2 : (0 <= t2)%Q) by (apply rnd_nonneg; exact Pi).
    pose proof (rnd_error (t1 + t2)) as Ms.
    unfold c6 in *. unfold c4 in *.
    specialize (Ms ltac:(lra) ltac:(lra)).
    lra.
Qed.

End Confidence.


(* ===================================================================== *)
(** * Deduplicator *)
(* ===================================================================== *)

Section Deduplicator.
Import PyStr PyNum SpanBased Spec Shape.

(** The loop over the accepted sections, one turn unfolded. *)
Lemma dedup_inner_unfold (section : CovenantSection)
      (deduplicated : list CovenantSection) (i : nat) :
  dedup_inner section deduplicated i =
  match nth_error deduplicated i with
  | None => (deduplicated, false)
  | Some existing =>
      if (start_pos existing <=? start_pos section)%Z
         && (start_pos section <? end_pos existing)%Z
      then
        if Qlt_bool (confidence existing) (confidence section)
        then dedup_inner section (remove_first existing deduplicated) (S i)
        else (deduplicated, true)
      else dedup_inner section deduplicated (S i)
  end.
Proof.
  funelim (dedup_inner section deduplicated i);
    match goal with
    | E : nth_error _ _ = _ |- _ => rewrite E; reflexivity
    end.
Qed.

Lemma starts_within_iff (e s : CovenantSection) :
  ((start_pos e <=? start_pos s)%Z && (start_pos s <? end_pos e)%Z) = true
  <-> covers e (start_pos s).
Proof. unfold covers. rewrite andb_true_iff, Z.leb_le, Z.ltb_lt. tauto. Qed.

(** When no accepted section contains the start of the candidate, the loop
    runs to the end and changes nothing. *)
Lemma dedup_inner_clean (n : nat) :
  forall section ded i,
    length ded - i <= n ->
    (forall e, In e ded -> ~ covers e (start_pos section)) ->
    dedup_inner section ded i = (ded, false).
Proof.
  induction n as [|n IH]; intros section ded i Hn Hclean;
    rewrite dedup_inner_unfold;
    destruct (nth_error ded i) as [e|] eqn:E; try reflexivity;
    assert (Hi : i < length ded) by (apply nth_error_Some; congruence).
  - lia.
  - destruct (_ && _) eqn:C.
    + apply starts_within_iff in C. exfalso.
      apply (Hclean e); [eapply nth_error_In; eauto | exact C].
    + apply IH; [lia | assumption].
Qed.

Lemma section_eqb_range (a b : CovenantSection) :
  section_eqb a b = true ->
  start_pos a = start_pos b /\ end_pos a = end_pos b.
Proof.
  unfold section_eqb. rewrite !andb_true_iff, !Z.eqb_eq. tauto.
Qed.

Lemma str_eqb_refl (s : str) : str_eqb s s = true.
Proof.
  induction s as [|c s IH]; simpl; [reflexivity|].
  now rewrite Ascii.eqb_refl.
Qed.

Lemma section_eqb_refl (a : CovenantSection) : section_eqb a a = true.
Proof.
  unfold section_eqb.
  now rewrite !str_eqb_refl, !Z.eqb_refl, Qeq_bool_refl.
Qed.

Lemma remove_first_middle (E : CovenantSection) (l1 l2 : list CovenantSection) :
  (forall e, In e l1 -> section_eqb e E = false) ->
  remove_first E (l1 ++ E :: l2) = l1 ++ l2.
Proof.
  induction l1 as [|y l1 IH]; intros H; simpl.
  - now rewrite section_eqb_refl.
  - rewrite (H y (or_introl eq_refl)). f_equal.
    apply IH. intros e He. apply H. now right.
Qed.

Lemma disjoint_list_app (a b : list CovenantSection) :
  disjoint_list (a ++ b) <->
  disjoint_list a /\ disjoint_list b
  /\ (forall x y, In x a -> In y b -> ~ overlap x y).
Proof.
  induction a as [|z a IH]; simpl.
  - intuition.
  - rewrite Forall_app, IH, !Forall_forall. split.
    + intros ((Ha & Hb) & Hda & Hdb & Hab).
      split; [split; assumption|]. split; [assumption|].
      intros x y [<- | Hx] Hy; auto.
    + intros ((Ha & Hda) & Hdb & Hab).
      split; [split; [assumption|]|].
      * intros y Hy. apply Hab; auto.
      * split; [assumption|]. split; [assumption|].
        intros x y Hx Hy. apply Hab; auto.
Qed.


(** What one run of the loop does when the accepted sections are pairwise
    disjoint: nothing contains the start of the candidate; or the one
    section that does has at least its confidence, and the candidate is
    rejected; or that section has less, and it is evicted. *)
Lemma dedup_inner_cases (section : CovenantSection) :
  forall l2 l1,
    disjoint_list (l1 ++ l2) ->
    (forall e, In e l1 -> ~ covers e (start_pos section)) ->
    let r := dedup_inner section (l1 ++ l2) (length l1) in
    (r = (l1 ++ l2, false)
     /\ forall e, In e (l1 ++ l2) -> ~ covers e (start_pos section))
    \/ (exists a E b,
          l1 ++ l2 = a ++ E :: b /\ covers E (start_pos section)
          /\ (confidence section <= confidence E)%Q
          /\ r = (l1 ++ l2, true))
    \/ (exists a E b,
          l1 ++ l2 = a ++ E :: b /\ covers E (start_pos section)
          /\ (confidence E < confidence section)%Q
          /\ r = (a ++ b, false)
          /\ forall e, In e (a ++ b) -> ~ covers e (start_pos section)).
Proof.
  induction l2 as [|E l2 IH]; intros l1 Hdis Hl1 r; subst r;
    rewrite dedup_inner_unfold.
  - rewrite app_nil_r in *.
    rewrite (proj2 (nth_error_None l1 (length l1)) (le_n _)).
    left. split; [reflexivity | assumption].
  - rewrite nth_error_app2, Nat.sub_diag by lia. simpl.
    destruct (_ && _) eqn:C.
    + apply starts_within_iff in C.
      destruct (Qlt_bool (confidence E) (confidence section)) eqn:L.
      * right. right. exists l1, E, l2.
        apply Qlt_bool_iff in L.
        assert (Hc : forall e, In e (l1 ++ l2) ->
                               ~ covers e (start_pos section)).
        { intros e He. apply in_app_or in He. destruct He as [He|He].
          - now apply Hl1.
          - intros Hcov. apply disjoint_list_app in Hdis.
            destruct Hdis as (_ & (HE & _) & _).
            rewrite Forall_forall in HE.
            apply (HE e He). now exists (start_pos section). }
        rewrite remove_first_middle.
        2:{ intros e He. destruct (section_eqb e E) eqn:Q; [|reflexivity].
            exfalso. apply (Hl1 e He).
            apply section_eqb_range in Q. destruct Q as (Q1 & Q2).
            unfold covers in *. now rewrite Q1, Q2. }
        rewrite (dedup_inner_clean (length (l1 ++ l2)));
          [ repeat split; auto; apply C | lia | exact Hc ].
      * right. left. exists l1, E, l2. repeat split; try apply C.
        apply Qnot_lt_le. intros Hlt. apply Qlt_bool_iff in Hlt. congruence.
    + specialize (IH (l1 ++ [E])).
      rewrite <- app_assoc, length_app, Nat.add_1_r in IH. simpl in IH.
      apply IH; [exact Hdis|].
      intros e He. apply in_app_or in He. destruct He as [He|[<-|[]]].
      * now apply Hl1.
      * intros Hcov. apply starts_within_iff in Hcov. congruence.
Qed.

(** The stable sort by start position. *)
Lemma insert_by_start_perm (x : CovenantSection) (l : list CovenantSection) :
  Permutation (x :: l) (insert_by_start x l).
Proof.
  induction l as [|y l IH]; simpl; [reflexivity|].
  destruct (start_pos x <=? start_pos y)%Z; [reflexivity|].
  rewrite perm_swap. now apply perm_skip.
Qed.

Lemma sort_by_start_perm (l : list CovenantSection) :
  Permutation l (sort_by_start l).
Proof.
  induction l as [|x l IH]; simpl; [reflexivity|].
  rewrite <- insert_by_start_perm. now apply perm_skip.
Qed.

Lemma insert_by_start_sorted (x : CovenantSection) (l : list CovenantSection) :
  StronglySorted start_le l -> StronglySorted start_le (insert_by_start x l).
Proof.
  induction 1 as [|y l Hs IH Hy]; simpl.
  - repeat constructor.
  - destruct (start_pos x <=? start_pos y)%Z eqn:E.
    + apply Z.leb_le in E. constructor; [now constructor|].
      constructor; [exact E|].
      rewrite Forall_forall in *. intros z Hz.
      specialize (Hy z Hz). unfold start_le in *. lia.
    + apply Z.leb_gt in E. constructor; [exact IH|].
      rewrite Forall_forall in *. intros z Hz.
      apply (Permutation_in _ (Permutation_sym (insert_by_start_perm x l)))
        in Hz.
      destruct Hz as [<- | Hz]; [unfold start_le; lia | now apply Hy].
Qed.

Lemma sort_by_start_sorted (l : list CovenantSection) :
  StronglySorted start_le (sort_by_start l).
Proof.
  induction l as [|x l IH]; simpl; [constructor|].
  now apply insert_by_start_sorted.
Qed.

Lemma beats_confidence (y x : CovenantSection) :
  clos_trans CovenantSection beats y x -> (confidence x <= confidence y)%Q.
Proof.
  induction 1 as [y x (_ & H) | y z x _ IH1 _ IH2]; [exact H|].
  now apply Qle_trans with (confidence z).
Qed.

Lemma dominated_incl (kept kept' : list CovenantSection) (x : CovenantSection) :
  incl kept kept' -> dominated kept x -> dominated kept' x.
Proof.
  intros Hi [Hx | (y & Hy & Hc)]; [left; auto | right; exists y; auto].
Qed.

(** A section that starts no later than the candidate and does not contain
    its start is disjoint from the candidate. *)
Lemma no_overlap_before (e s : CovenantSection) :
  start_le e s -> ~ covers e (start_pos s) -> ~ overlap e s.
Proof.
  unfold start_le, covers. intros Hle Hn (p & He & Hs).
  apply Hn. unfold covers in *. lia.
Qed.

Lemma StronglySorted_app_cross (A : Type) (R : A -> A -> Prop)
      (a b : list A) :
  StronglySorted R (a ++ b) -> forall x y, In x a -> In y b -> R x y.
Proof.
  induction a as [|z a IH]; simpl; intros Hs x y Hx Hy; [contradiction|].
  apply StronglySorted_inv in Hs. destruct Hs as (Hs & Hall).
  destruct Hx as [<- | Hx]; [|now apply IH].
  rewrite Forall_forall in Hall. apply Hall, in_or_app. now right.
Qed.

(** The invariant of the [for section in sections] loop, over a list sorted
    by start position: [done] are the candidates seen so far, [kept] the
    accepted ones. *)
Lemma dedup_loop_invariant :
  forall rest done kept,
    StronglySorted start_le (done ++ rest) ->
    disjoint_list kept ->
    incl kept done ->
    (forall x, In x done -> dominated kept x) ->
    let out := fold_left dedup_step rest kept in
    disjoint_list out
    /\ incl out (done ++ rest)
    /\ (forall x, In x (done ++ rest) -> dominated out x).
Proof.
  induction rest as [|s rest IH]; intros done kept Hsorted Hdis Hincl Hdom.
  - simpl. rewrite app_nil_r. auto.
  - simpl fold_left.
    assert (Hbefore : forall e, In e kept -> start_le e s).
    { intros e He. apply Hincl in He.
      apply (StronglySorted_app_cross _ _ _ _ Hsorted); [exact He | now left]. }
    replace (done ++ s :: rest) with ((done ++ [s]) ++ rest) in *
      by (rewrite <- app_assoc; reflexivity).
    pose proof (dedup_inner_cases s kept [] Hdis (fun e (F : In e []) => match F with end))
      as Hcases.
    simpl in Hcases. unfold dedup_step.
    destruct Hcases as
        [(-> & Hclean)
        | [(a & E & b & Hk & Hcov & Hconf & ->)
          | (a & E & b & Hk & Hcov & Hconf & -> & Hclean)]].
    + apply IH; auto.
      * apply disjoint_list_app. split; [exact Hdis|].
        split; [simpl; auto|].
        intros x y Hx [<- | []].
        apply no_overlap_before; auto.
      * intros x Hx. apply in_app_or in Hx. apply in_or_app.
        destruct Hx as [Hx | Hx]; [left; auto | right; exact Hx].
      * intros x Hx. apply in_app_or in Hx. destruct Hx as [Hx | [<- | []]].
        -- apply dominated_incl with kept; [apply incl_appl, incl_refl | auto].
        -- left. apply in_or_app. right. now left.
    + apply IH; auto.
      * intros x Hx. apply in_or_app. left. auto.
      * intros x Hx. apply in_app_or in Hx. destruct Hx as [Hx | [<- | []]].
        -- auto.
        -- right. exists E. split.
           ++ rewrite Hk. apply in_or_app. right. now left.
           ++ apply t_step. split; [left; exact Hcov | exact Hconf].
    + assert (Hab : incl (a ++ b) kept).
      { rewrite Hk. intros x Hx. apply in_app_or in Hx. apply in_or_app.
        destruct Hx; [left | right; right]; assumption. }
      assert (HsE : beats s E).
      { split; [right; exact Hcov | now apply Qlt_le_weak]. }
      apply IH; auto.
      * apply disjoint_list_app. split.
        -- rewrite Hk in Hdis. apply disjoint_list_app in Hdis.
           destruct Hdis as (Ha & (_ & Hb) & Hab').
           apply disjoint_list_app. split; [exact Ha|]. split; [exact Hb|].
           intros x y Hx Hy. apply Hab'; auto. now right.
        -- split; [simpl; auto|].
           intros x y Hx [<- | []].
           apply no_overlap_before; auto.
      * intros x Hx. apply in_app_or in Hx. apply in_or_app.
        destruct Hx as [Hx | Hx]; [left; auto | right; exact Hx].
      * intros x Hx. apply in_app_or in Hx. destruct Hx as [Hx | [<- | []]].
        -- assert (Hin_s : In s ((a ++ b) ++ [s]))
             by (apply in_or_app; right; now left).
           destruct (Hdom x Hx) as [Hxk | (y & Hy & Hc)].
           ++ rewrite Hk in Hxk. apply in_app_or in Hxk.
              destruct Hxk as [Hxa | [<- | Hxb]].
              ** left. apply in_or_app. left. apply in_or_app. now left.
              ** right. exists s. split; [exact Hin_s | now apply t_step].
              ** left. apply in_or_app. left. apply in_or_app. now right.
           ++ rewrite Hk in Hy. apply in_app_or in Hy.
              destruct Hy as [Hya | [<- | Hyb]].
              ** right. exists y. split; [|exact Hc].
                 apply in_or_app. left. apply in_or_app. now left.
              ** right. exists s. split; [exact Hin_s|].
                 apply t_trans with E; [now apply t_step | exact Hc].
              ** right. exists y. split; [|exact Hc].
                 apply in_or_app. left. apply in_or_app. now right.
        -- left. apply in_or_app. right. now left.
Qed.


(** The loop run on the whole input. *)
Lemma deduplicate_sections_facts (sections : list CovenantSection) :
  let out := _deduplicate_sections sections in
  disjoint_list out
  /\ incl out sections
  /\ (forall x, In x sections -> dominated out x).
Proof.
  unfold _deduplicate_sections. destruct sections as [|s0 l].
  - simpl. split; [exact I|]. split; [apply incl_refl|]. intros x [].
  - set (sections := s0 :: l).
    pose proof (dedup_loop_invariant (sort_by_start sections) [] []
                  (sort_by_start_sorted sections) I (incl_refl _)
                  (fun x (F : In x []) => match F with end))
      as (H1 & H2 & H3).
    change ([] ++ sort_by_start sections) with (sort_by_start sections) in *.
    split; [exact H1|]. split.
    + intros x Hx. apply H2 in Hx.
      eapply Permutation_in; [apply Permutation_sym, sort_by_start_perm|].
      exact Hx.
    + intros x Hx. apply H3.
      eapply Permutation_in; [apply sort_by_start_perm | exact Hx].
Qed.


End Deduplicator.

(* ===================================================================== *)
(** * The span-based extractor *)
(* ===================================================================== *)

Section SpanExtractor.
Import PyStr PyNum PyFloat PyDict SpanBased Spec Shape Props.

Variable re_finditer : str -> list re_flag -> str -> list re_match.
Variable str_title : str -> str.

Lemma slice_index_of_nat (len n : nat) :
  slice_index len (Z.of_nat n) = Nat.min n len.
Proof.
  unfold slice_index.
  destruct (Z.of_nat n <? 0)%Z eqn:E; [apply Z.ltb_lt in E; lia|].
  rewrite E. now rewrite Nat2Z.id.
Qed.

(** The hard cap: the captured span has at most 5000 characters. *)
Lemma captured_span_length (text : str) (start_pos initial_end : nat) :
  length (captured_span re_finditer text start_pos initial_end) <= 5000.
Proof.
  unfold captured_span, slice. rewrite !slice_index_of_nat.
  rewrite length_firstn. lia.
Qed.

Lemma rfind_from_none (p : str) :
  forall s i, rfind_from p s i = None ->
              forall k, k <= length s -> startswith p (skipn k s) = false.
Proof.
  induction s as [|c s IH]; intros i H k Hk; simpl in H.
  - simpl in Hk. assert (k = 0) as -> by lia. simpl.
    destruct (startswith p []); [discriminate | reflexivity].
  - destruct (rfind_from p s (S i)) eqn:R; [discriminate|].
    destruct (startswith p (c :: s)) eqn:E; [discriminate|].
    destruct k as [|k]; [exact E|]. simpl.
    apply (IH _ R). simpl in Hk. lia.
Qed.

Lemma rfind_from_spec (p : str) :
  forall s i j,
    rfind_from p s i = Some j ->
    i <= j /\ j <= i + length s
    /\ startswith p (skipn (j - i) s) = true
    /\ forall k, j - i < k -> k <= length s ->
                 startswith p (skipn k s) = false.
Proof.
  induction s as [|c s IH]; intros i j H; simpl in H.
  - destruct (startswith p []) eqn:E; [|discriminate].
    injection H as <-. rewrite Nat.sub_diag. simpl.
    split; [lia|]. split; [lia|]. split; [exact E|].
    intros k Hk Hk'. lia.
  - destruct (rfind_from p s (S i)) as [j'|] eqn:R.
    + injection H as <-. destruct (IH _ _ R) as (H1 & H2 & H3 & H4).
      replace (j' - i) with (S (j' - S i)) by lia. simpl.
      split; [lia|]. split; [lia|]. split; [exact H3|].
      intros k Hk Hk'. destruct k as [|k]; [lia|]. simpl.
      apply H4; lia.
    + destruct (startswith p (c :: s)) eqn:E; [|discriminate].
      injection H as <-. rewrite Nat.sub_diag.
      split; [lia|]. split; [simpl; lia|]. split; [exact E|].
      intros k Hk Hk'. destruct k as [|k]; [lia|]. simpl.
      apply (rfind_from_none _ _ _ R). simpl in Hk'. lia.
Qed.

Lemma rfind_spec (p s : str) :
  (rfind p s = -1)%Z
  \/ exists j, rfind p s = Z.of_nat j /\ j <= length s
               /\ startswith p (skipn j s) = true
               /\ forall k, j < k -> k <= length s ->
                            startswith p (skipn k s) = false.
Proof.
  unfold rfind. destruct (rfind_from p s 0) as [j|] eqn:R; [right | now left].
  exists j. destruct (rfind_from_spec _ _ _ _ R) as (_ & H2 & H3 & H4).
  rewrite Nat.sub_0_r in *. auto.
Qed.

(** The float threshold decides as the exact 70% does, except at an
    index that is exactly 70% of the length. *)
Lemma separates_table : forallb separates (seq 0 (S 5000)) = true.
Proof. vm_compute. reflexivity. Qed.

Lemma seventy_percent_decides (len j : nat) :
  len <= 5000 ->
  ((7 * Z.of_nat len < 10 * Z.of_nat j)%Z ->
   (seventy_percent len < inject_Z (Z.of_nat j))%Q)
  /\ ((10 * Z.of_nat j < 7 * Z.of_nat len)%Z ->
      (inject_Z (Z.of_nat j) <= seventy_percent len)%Q).
Proof.
  intros Hlen.
  assert (Hs : separates len = true).
  { apply (proj1 (forallb_forall separates (seq 0 (S 5000))) separates_table).
    apply in_seq. lia. }
  unfold separates in Hs.
  destruct (Qlt_bool _ _) eqn:H1; [|discriminate].
  apply Qlt_bool_iff in H1. apply Qle_bool_iff in Hs.
  set (t := seventy_percent len) in *. clearbody t. split; intros H.
  - eapply Qlt_le_trans; [exact H1|]. rewrite <- Zle_Qle.
    Z.div_mod_to_equations. lia.
  - eapply Qle_trans; [|exact Hs]. rewrite <- Zle_Qle.
    Z.div_mod_to_equations. lia.
Qed.

Lemma seventy_percent_nonneg (len : nat) : (0 <= seventy_percent len)%Q.
Proof.
  unfold seventy_percent. apply fmul_nonneg.
  - unfold of_int. apply rnd_nonneg.
    change 0%Q with (inject_Z 0). rewrite <- Zle_Qle. lia.
  - discriminate.
Qed.

(** What [_extract_full_section] returns: the captured span, cut at its
    last blank line when the float threshold lies below it, and
    stripped. *)
Lemma extract_full_section_cases (text : str) (start_pos initial_end : nat) :
  let span := captured_span re_finditer text start_pos initial_end in
  let result := _extract_full_section re_finditer text start_pos initial_end in
  length result <= 5000
  /\ ((exists j, rfind [nl; nl] span = Z.of_nat j
                 /\ (seventy_percent (length span)
                     < inject_Z (Z.of_nat j))%Q
                 /\ last_blank_line span j
                 /\ result = strip (firstn j span))
      \/ (~ (seventy_percent (length span)
             < inject_Z (rfind [nl; nl] span))%Q
          /\ result = strip span)).
Proof.
  intros span result. subst result. unfold _extract_full_section.
  fold span. pose proof (captured_span_length text start_pos initial_end) as Hlen.
  fold span in Hlen. fold (seventy_percent (length span)).
  destruct (Qlt_bool _ _) eqn:C.
  - apply Qlt_bool_iff in C.
    destruct (rfind_spec [nl; nl] span) as [Hm | (j & Hj & Hjl & Hs & Hlast)].
    + exfalso. rewrite Hm in C. revert C. apply Qle_not_lt.
      apply Qle_trans with 0%Q; [discriminate|].
      apply seventy_percent_nonneg.
    + assert (Hcut : slice_to span (rfind [nl; nl] span) = firstn j span).
      { unfold slice_to. now rewrite Hj, slice_index_of_nat, Nat.min_l. }
      rewrite Hcut. split.
      * etransitivity; [apply length_strip|]. rewrite length_firstn. lia.
      * left. exists j. rewrite Hj in C. repeat split; auto.
  - split.
    + etransitivity; [apply length_strip | exact Hlen].
    + right. split; [|reflexivity].
      intros H. apply Qlt_bool_iff in H. congruence.
Qed.

Lemma section_of_match_built (text covenant_type : str) (config : Config)
      (m : re_match) (s : CovenantSection) :
  In s (section_of_match re_finditer str_title text covenant_type config m) ->
  built_from re_finditer text s.
Proof.
  unfold section_of_match. destruct (Qlt_bool _ _) eqn:C; [|intros []].
  intros [<- | []]. exists config, m. cbn [content confidence start_pos end_pos].
  apply Qlt_bool_iff in C. apply confidence_above_floor in C.
  repeat split; auto.
Qed.

Lemma candidates_of_type_built (text covenant_type : str) (config : Config)
      (s : CovenantSection) :
  In s (candidates_of_type re_finditer str_title text covenant_type config) ->
  built_from re_finditer text s.
Proof.
  unfold candidates_of_type. intros H.
  apply in_flat_map in H. destruct H as (pattern & _ & H).
  apply in_flat_map in H. destruct H as (m & _ & H).
  eapply section_of_match_built; eauto.
Qed.

Lemma extract_sections_built (text : str) (s : CovenantSection) :
  In s (extract_sections re_finditer str_title text) -> built_from re_finditer text s.
Proof.
  unfold extract_sections. intros H.
  apply (proj1 (proj2 (deduplicate_sections_facts _))) in H.
  apply in_flat_map in H. destruct H as ((ty & config) & _ & H).
  eapply candidates_of_type_built; eauto.
Qed.

Lemma extract_by_type_built (text covenant_type : str)
      (l : list CovenantSection) (s : CovenantSection) :
  extract_by_type re_finditer str_title text covenant_type = Some l ->
  In s l -> built_from re_finditer text s.
Proof.
  unfold extract_by_type.
  destruct (get covenant_patterns covenant_type) as [config|];
    [|discriminate].
  intros [= <-] H.
  apply (proj1 (proj2 (deduplicate_sections_facts _))) in H.
  eapply candidates_of_type_built; eauto.
Qed.

Lemma startswith_skipn_bound (p s : str) (k : nat) :
  p <> [] -> startswith p (skipn k s) = true -> k <= length s.
Proof.
  intros Hp H. destruct (Nat.le_gt_cases k (length s)) as [Hk | Hk]; [exact Hk|].
  rewrite skipn_all2 in H by lia. destruct p; [congruence | discriminate].
Qed.

Lemma last_blank_line_unique (s : str) (j j' : nat) :
  last_blank_line s j -> last_blank_line s j' -> j = j'.
Proof.
  intros (H1 & H2) (H1' & H2').
  assert (Hj : j <= length s)
    by (eapply startswith_skipn_bound; eauto; discriminate).
  assert (Hj' : j' <= length s)
    by (eapply startswith_skipn_bound; eauto; discriminate).
  destruct (Nat.lt_total j j') as [H | [H | H]]; [|exact H|].
  - rewrite (H2 j' H Hj') in H1'. discriminate.
  - rewrite (H2' j H Hj) in H1. discriminate.
Qed.

Lemma rfind_last_blank_line (s : str) (j : nat) :
  rfind [nl; nl] s = Z.of_nat j -> last_blank_line s j.
Proof.
  intros H. destruct (rfind_spec [nl; nl] s) as [Hm | (j' & Hj' & _ & Hs & Hl)].
  - lia.
  - assert (j' = j) as -> by lia. now split.
Qed.

Lemma last_blank_line_rfind (s : str) (j : nat) :
  last_blank_line s j -> rfind [nl; nl] s = Z.of_nat j.
Proof.
  intros Hlast.
  destruct (rfind_spec [nl; nl] s) as [Hm | (j' & Hj' & Hjl & Hs & Hl)].
  - exfalso. destruct Hlast as (Hs & _). unfold rfind in Hm.
    destruct (rfind_from [nl; nl] _ 0) eqn:R; [lia|].
    rewrite (rfind_from_none _ _ _ R) in Hs; [discriminate|].
    eapply startswith_skipn_bound; eauto. discriminate.
  - rewrite Hj'. now rewrite (last_blank_line_unique _ _ _ Hlast (conj Hs Hl)).
Qed.

Lemma past_70_percent_Z (span : str) (j : nat) :
  past_70_percent span j
  <-> (7 * Z.of_nat (length span) < 10 * Z.of_nat j)%Z.
Proof.
  unfold past_70_percent, Qlt, Qmult, inject_Z. cbn [Qnum Qden]. lia.
Qed.

Lemma before_70_percent_Z (span : str) (j : nat) :
  before_70_percent span j
  <-> (10 * Z.of_nat j < 7 * Z.of_nat (length span))%Z.
Proof.
  unfold before_70_percent, Qlt, Qmult, inject_Z. cbn [Qnum Qden]. lia.
Qed.

Lemma extract_full_section_cut (text : str) (start_pos initial_end : nat) :
  cut_rule (captured_span re_finditer text start_pos initial_end)
           (_extract_full_section re_finditer text start_pos initial_end).
Proof.
  pose proof (captured_span_length text start_pos initial_end) as Hlen.
  destruct (extract_full_section_cases text start_pos initial_end)
    as (_ & Hcases).
  cbv zeta in Hcases.
  set (span := captured_span re_finditer text start_pos initial_end) in *.
  set (result := _extract_full_section re_finditer text start_pos
                                       initial_end) in *.
  clearbody result. split; [|split].
  - intros j Hlast Hpast. apply past_70_percent_Z in Hpast.
    destruct Hcases as [(j' & _ & _ & Hlast' & Hres) | (Hnot & _)].
    + now rewrite (last_blank_line_unique _ _ _ Hlast Hlast').
    + exfalso. apply Hnot. rewrite (last_blank_line_rfind _ _ Hlast).
      now apply (seventy_percent_decides (length span) j Hlen).
  - intros Hbefore.
    destruct Hcases as [(j' & _ & Hlt & Hlast' & _) | (_ & Hres)];
      [|exact Hres].
    exfalso. specialize (Hbefore j' Hlast').
    apply before_70_percent_Z in Hbefore.
    apply (seventy_percent_decides (length span) j' Hlen) in Hbefore.
    now apply (Qlt_not_le _ _ Hlt).
  - destruct Hcases as [(j' & _ & _ & Hlast' & Hres) | (_ & Hres)].
    + right. now exists j'.
    + now left.
Qed.

Lemma built_from_capped (text : str) (s : CovenantSection) :
  built_from re_finditer text s ->
  length (content s) <= 5000
  /\ exists initial_end,
       cut_rule (captured_span re_finditer text (Z.to_nat (start_pos s))
                               initial_end)
                (content s).
Proof.
  intros (config & m & Hc & _ & _ & Hs & _). rewrite Hc, Hs, Nat2Z.id. split.
  - apply extract_full_section_cases.
  - exists (m_end m). apply extract_full_section_cut.
Qed.

(** C5. The content of every section that [extract_sections] or
    [extract_by_type] returns has at most 5000 characters.  It is the
    stripped span captured from the start of the section, cut back to the
    last blank line of the span when that blank line lies past 70% of the
    span, and not cut when the span has no blank line or the last one lies
    before 70% of it. *)
Theorem section_content_capped (text : str) :
  (forall s, In s (extract_sections re_finditer str_title text) ->
             length (content s) <= 5000
             /\ exists initial_end,
                  cut_rule (captured_span re_finditer text
                              (Z.to_nat (start_pos s)) initial_end)
                           (content s))
  /\ (forall covenant_type l s,
        extract_by_type re_finditer str_title text covenant_type = Some l ->
        In s l ->
        length (content s) <= 5000
        /\ exists initial_end,
             cut_rule (captured_span re_finditer text
                         (Z.to_nat (start_pos s)) initial_end)
                      (content s)).
Proof.
  split.
  - intros s H. now apply built_from_capped, extract_sections_built.
  - intros ty l s Hl H.
    eapply built_from_capped, extract_by_type_built; eauto.
Qed.

(** C6. Every section that [extract_sections] or [extract_by_type] returns
    has a confidence of at least [0.3]: a candidate below the floor is
    rejected before the list is returned. *)
Theorem confidence_floor (text : str) :
  (forall s, In s (extract_sections re_finditer str_title text) ->
             (3 # 10 <= confidence s)%Q)
  /\ (forall covenant_type l s,
        extract_by_type re_finditer str_title text covenant_type = Some l ->
        In s l -> (3 # 10 <= confidence s)%Q).
Proof.
  split.
  - intros s H. apply extract_sections_built in H.
    destruct H as (config & m & _ & _ & H & _). now apply Qlt_le_weak.
  - intros ty l s Hl H. apply (extract_by_type_built _ _ _ _ Hl) in H.
    destruct H as (config & m & _ & _ & H & _). now apply Qlt_le_weak.
Qed.

(** The data-model invariant on the sections of the span-based extractor. *)
Lemma built_from_invariant (text : str) (s : CovenantSection) :
  built_from re_finditer text s ->
  (start_pos s <= end_pos s)%Z /\ (0 <= confidence s <= 1)%Q.
Proof.
  intros (config & m & _ & Hconf & _ & _ & He). split.
  - rewrite He. lia.
  - rewrite Hconf. apply confidence_bounds.
Qed.

End SpanExtractor.

(* ===================================================================== *)
(** * Dictionaries *)
(* ===================================================================== *)

Section DictFacts.
Import PyStr PyDict.

Lemma str_eqb_eq (a b : str) : str_eqb a b = true <-> a = b.
Proof.
  revert b. induction a as [|x a IH]; intros [|y b]; simpl;
    try (split; [discriminate | congruence]); [tauto|].
  destruct (Ascii.eqb x y) eqn:E.
  - apply Ascii.eqb_eq in E. subst. rewrite IH. split; congruence.
  - apply Ascii.eqb_neq in E. split; [discriminate | congruence].
Qed.

Lemma str_eqb_neq (a b : str) : str_eqb a b = false <-> a <> b.
Proof.
  rewrite <- str_eqb_eq. destruct (str_eqb a b); split; congruence.
Qed.

Context {V : Type}.

Lemma set_same (d : dict V) (k : str) (v : V) :
  get d k = Some v -> set d k v = d.
Proof.
  induction d as [|(k', v') d IH]; simpl; [discriminate|].
  destruct (str_eqb k' k); [congruence|].
  intros H. now rewrite IH.
Qed.

Lemma set_set (d : dict V) (k : str) (v v' : V) :
  set (set d k v) k v' = set d k v'.
Proof.
  induction d as [|(k', w) d IH]; simpl.
  - now rewrite (proj2 (str_eqb_eq k k) eq_refl).
  - destruct (str_eqb k' k) eqn:E; simpl; rewrite E; [reflexivity|].
    now rewrite IH.
Qed.

Lemma get_set_same (d : dict V) (k : str) (v : V) :
  get (set d k v) k = Some v.
Proof.
  induction d as [|(k', w) d IH]; simpl.
  - now rewrite (proj2 (str_eqb_eq k k) eq_refl).
  - destruct (str_eqb k' k) eqn:E; simpl; rewrite E; auto.
Qed.

Lemma keys_set (d : dict V) (k : str) (v : V) :
  keys (set d k v) = if existsb (fun k' => str_eqb k' k) (keys d)
                     then keys d else keys d ++ [k].
Proof.
  induction d as [|(k', w) d IH]; simpl; [reflexivity|].
  destruct (str_eqb k' k) eqn:E; simpl; [reflexivity|].
  unfold keys in *. rewrite IH.
  now destruct (existsb _ (map fst d)).
Qed.

Lemma keys_set_NoDup (d : dict V) (k : str) (v : V) :
  NoDup (keys d) -> NoDup (keys (set d k v)).
Proof.
  intros H. rewrite keys_set.
  destruct (existsb _ (keys d)) eqn:E; [exact H|].
  apply NoDup_app; [exact H | repeat constructor; intros [] |].
  intros x Hx [Hk | []]. subst x.
  assert (existsb (fun k' => str_eqb k' k) (keys d) = true); [|congruence].
  apply existsb_exists. exists k. split; [exact Hx | now apply str_eqb_eq].
Qed.

Lemma get_app_notin (d1 d2 : dict V) (k : str) :
  ~ In k (keys d1) -> get (d1 ++ d2) k = get d2 k.
Proof.
  induction d1 as [|(k', w) d1 IH]; simpl; [reflexivity|].
  intros H. destruct (str_eqb k' k) eqn:E.
  - apply str_eqb_eq in E. tauto.
  - apply IH. tauto.
Qed.

Lemma set_app_notin (d1 d2 : dict V) (k : str) (v : V) :
  ~ In k (keys d1) -> set (d1 ++ d2) k v = d1 ++ set d2 k v.
Proof.
  induction d1 as [|(k', w) d1 IH]; simpl; [reflexivity|].
  intros H. destruct (str_eqb k' k) eqn:E.
  - apply str_eqb_eq in E. tauto.
  - rewrite IH; tauto.
Qed.

Lemma get_In (d : dict V) (k : str) (v : V) :
  get d k = Some v -> In (k, v) d.
Proof.
  induction d as [|(k', w) d IH]; simpl; [discriminate|].
  destruct (str_eqb k' k) eqn:E.
  - apply str_eqb_eq in E. intros [= ->]. left. now subst.
  - intros H. right. now apply IH.
Qed.

End DictFacts.

Lemma map_values_set (V W : Type) (h : V -> W) (d : PyDict.dict V)
      (k : PyStr.str) (v : V) :
  map (fun kv => (fst kv, h (snd kv))) (PyDict.set d k v)
  = PyDict.set (map (fun kv => (fst kv, h (snd kv))) d) k (h v).
Proof.
  induction d as [|(k', w) d IH]; simpl; [reflexivity|].
  destruct (PyStr.str_eqb k' k); simpl; [reflexivity|]. now rewrite IH.
Qed.

(* ===================================================================== *)
(** * The line-window extractor *)
(* ===================================================================== *)

Section LineWindowFacts.
Import PyStr PyDict Regex LineWindow Spec Shape.

Variable lines : list str.
Variable heading_indices : list Z.
Variable max_section_lines : Z.

Let section_for := section_at lines heading_indices max_section_lines.

(** The inner loop appends, to the list of its target, the sections of the
    recorded lines, in the order of the lines. *)
Lemma scan_fold_spec (canonical : str) (pattern : regex) :
  forall il results found,
    get results canonical = Some found ->
    fold_left
      (scan_step lines heading_indices max_section_lines canonical pattern)
      il (Some results)
    = Some (set results canonical
              (found ++ map (section_for canonical)
                            (matching_indices pattern il))).
Proof.
  induction il as [|(i, line) il IH]; intros results found Hget.
  - simpl. now rewrite app_nil_r, set_same.
  - simpl fold_left. unfold matching_indices. simpl filter.
    unfold recorded.
    destruct (strip line) as [|c rest]; [now apply IH|].
    destruct (search pattern line); [|now apply IH].
    rewrite Hget. rewrite (IH _ _ (get_set_same _ _ _)).
    rewrite set_set. simpl map. now rewrite <- app_assoc.
Qed.

Let full (cp : str * regex) : str * list CovenantSection :=
  (fst cp, sections_of lines heading_indices max_section_lines
                       (fst cp) (snd cp)).

Let empty (cp : str * regex) : str * list CovenantSection := (fst cp, []).

(** The outer loop fills the list of every compiled target. *)
Lemma scan_all_spec :
  forall rest done,
    NoDup (keys (done ++ rest)) ->
    fold_left
      (fun acc cp =>
         scan_lines lines heading_indices max_section_lines
                    (fst cp) (snd cp) acc)
      rest (Some (map full done ++ map empty rest))
    = Some (map full (done ++ rest)).
Proof.
  induction rest as [|(c, pattern) rest IH]; intros done Hnd.
  - simpl. now rewrite !app_nil_r.
  - simpl fold_left. unfold scan_lines at 2.
    assert (Hnotin : ~ In c (keys (map full done))).
    { unfold keys in *. rewrite map_map. simpl.
      rewrite map_app in Hnd. apply NoDup_remove_2 in Hnd.
      intros H. apply Hnd. apply in_or_app. now left. }
    assert (Hget : get (map full done ++ map empty ((c, pattern) :: rest)) c
                   = Some []).
    { rewrite get_app_notin by exact Hnotin. simpl.
      now rewrite (proj2 (str_eqb_eq c c) eq_refl). }
    rewrite (scan_fold_spec _ _ _ _ _ Hget).
    rewrite set_app_notin by exact Hnotin. simpl.
    rewrite (proj2 (str_eqb_eq c c) eq_refl).
    replace (done ++ (c, pattern) :: rest)
      with ((done ++ [(c, pattern)]) ++ rest) in *
      by (now rewrite <- app_assoc).
    rewrite <- (IH (done ++ [(c, pattern)]) Hnd).
    rewrite map_app, <- app_assoc. reflexivity.
Qed.

End LineWindowFacts.

Section LineWindowResults.
Import PyStr PyDict Regex LineWindow Spec Shape.

Lemma fold_set_NoDup {V T : Type} (key : T -> str) (val : T -> V) :
  forall ts d,
    NoDup (keys d) ->
    NoDup (keys (fold_left (fun d t => set d (key t) (val t)) ts d)).
Proof.
  induction ts as [|t ts IH]; intros d H; simpl; [exact H|].
  apply IH. now apply keys_set_NoDup.
Qed.

Lemma fold_set_map {V W T : Type} (h : V -> W) (key : T -> str)
      (val : T -> V) :
  forall ts d,
    map (fun kv => (fst kv, h (snd kv)))
        (fold_left (fun d t => set d (key t) (val t)) ts d)
    = fold_left (fun d t => set d (key t) (h (val t))) ts
                (map (fun kv => (fst kv, h (snd kv))) d).
Proof.
  induction ts as [|t ts IH]; intros d; simpl; [reflexivity|].
  now rewrite IH, map_values_set.
Qed.

(** The mapping that [extract_covenants_from_text] returns: it never
    raises, and it maps every compiled target to the sections of its
    recorded lines. *)
Lemma extract_covenants_from_text_spec (text : str) (targets : list str)
      (max_section_lines : Z) :
  let lines := _split_lines text in
  let heading_indices := _find_heading_indices lines in
  extract_covenants_from_text text targets max_section_lines
  = Some (map (fun cp =>
                 (fst cp,
                  sections_of lines heading_indices max_section_lines
                              (fst cp) (snd cp)))
              (build_target_regexes targets)).
Proof.
  intros lines heading_indices. unfold extract_covenants_from_text.
  fold lines. fold heading_indices.
  pose proof (scan_all_spec lines heading_indices max_section_lines
                (build_target_regexes targets) []) as H.
  simpl app in H.
  rewrite <- H.
  - f_equal. f_equal. unfold build_target_regexes.
    rewrite (fold_set_map (fun _ : regex => @nil CovenantSection)
               normalize_target
               (fun raw => target_pattern (normalize_target raw))
               targets []).
    reflexivity.
  - unfold build_target_regexes.
    apply (fold_set_NoDup normalize_target
             (fun raw => target_pattern (normalize_target raw))).
    constructor.
Qed.

(** Every list of the mapping is the list of sections of a pattern. *)
Lemma extract_covenants_from_text_lists (text : str) (targets : list str)
      (max_section_lines : Z) (results : dict (list CovenantSection))
      (canonical : str) (sections : list CovenantSection) :
  extract_covenants_from_text text targets max_section_lines = Some results ->
  get results canonical = Some sections ->
  exists pattern,
    sections = sections_of (_split_lines text)
                 (_find_heading_indices (_split_lines text))
                 max_section_lines canonical pattern.
Proof.
  rewrite extract_covenants_from_text_spec. intros [= <-] Hget.
  apply get_In in Hget. apply in_map_iff in Hget.
  destruct Hget as ((c, pattern) & [= <- <-] & _). now exists pattern.
Qed.

Lemma matching_indices_bounds (pattern : regex) :
  forall l k i,
    In i (matching_indices pattern (enumerate_from k l)) ->
    (k <= i < k + Z.of_nat (length l))%Z.
Proof.
  unfold matching_indices.
  induction l as [|x l IH]; intros k i H; simpl in H; [contradiction|].
  assert (Hrest : In i (map fst (filter (fun y => recorded pattern (snd y))
                                        (enumerate_from (k + 1) l))) ->
                  (k <= i < k + Z.of_nat (length (x :: l)))%Z).
  { intros H'. apply IH in H'. simpl length. lia. }
  destruct (recorded pattern x); [|now apply Hrest].
  simpl in H. destruct H as [<- | H]; [|now apply Hrest].
  rewrite length_cons. lia.
Qed.

Lemma matching_indices_sorted (pattern : regex) :
  forall l k,
    StronglySorted Z.lt (matching_indices pattern (enumerate_from k l)).
Proof.
  induction l as [|x l IH]; intros k; [constructor|].
  unfold matching_indices. simpl.
  destruct (recorded pattern x); [|apply IH].
  simpl. constructor; [apply IH|].
  apply Forall_forall. intros i Hi.
  apply matching_indices_bounds in Hi. lia.
Qed.

Lemma start_line_section_at (lines : list str) (heading_indices : list Z)
      (max_section_lines : Z) (canonical : str) (i : Z) :
  start_line (section_at lines heading_indices max_section_lines canonical i)
  = (i + 1)%Z.
Proof. reflexivity. Qed.

Lemma end_line_section_at (lines : list str) (heading_indices : list Z)
      (max_section_lines : Z) (canonical : str) (i : Z) :
  end_line (section_at lines heading_indices max_section_lines canonical i)
  = (next_heading_cap i
       (Z.min (Z.of_nat (length lines) - 1) (i + max_section_lines))
       heading_indices + 1)%Z.
Proof. reflexivity. Qed.

Lemma sections_of_increasing (lines : list str) (heading_indices : list Z)
      (max_section_lines : Z) (canonical : str) (pattern : regex) :
  increasing_starts
    (sections_of lines heading_indices max_section_lines canonical pattern).
Proof.
  unfold sections_of, increasing_starts, enumerate.
  pose proof (matching_indices_sorted pattern lines 0) as H.
  induction H as [|i l Hs IH Hall]; simpl; constructor; [exact IH|].
  rewrite Forall_forall in *. intros s Hs'.
  apply in_map_iff in Hs'. destruct Hs' as (j & <- & Hj).
  rewrite !start_line_section_at. specialize (Hall j Hj). lia.
Qed.

(** C10. [extract_covenants_from_text] returns a mapping, and in every list
    of the mapping the start lines increase strictly: the sections stand in
    the order of their matching lines. *)
Theorem sections_in_line_order (text : str) (targets : list str)
        (max_section_lines : Z) :
  exists results,
    extract_covenants_from_text text targets max_section_lines = Some results
    /\ forall canonical sections,
         get results canonical = Some sections ->
         increasing_starts sections.
Proof.
  eexists. split; [apply extract_covenants_from_text_spec|].
  intros canonical sections Hget.
  apply get_In in Hget. apply in_map_iff in Hget.
  destruct Hget as ((c, pattern) & [= <- <-] & _).
  apply sections_of_increasing.
Qed.

Lemma next_heading_cap_lower (start_index end_index : Z)
      (heading_indices : list Z) :
  (start_index <= end_index)%Z ->
  (start_index <= next_heading_cap start_index end_index heading_indices)%Z.
Proof.
  intros H. induction heading_indices as [|h hs IH]; simpl; [exact H|].
  destruct (start_index <? h)%Z eqn:E; [|exact IH].
  apply Z.ltb_lt in E. lia.
Qed.

(** With a window that is not negative, a section of the line-window
    extractor does not end before it starts. *)
Lemma sections_of_ordered (lines : list str) (heading_indices : list Z)
      (max_section_lines : Z) (canonical : str) (pattern : regex)
      (s : LineWindow.CovenantSection) :
  (0 <= max_section_lines)%Z ->
  In s (sections_of lines heading_indices max_section_lines
                    canonical pattern) ->
  (start_line s <= end_line s)%Z.
Proof.
  intros Hmax H. unfold sections_of in H.
  apply in_map_iff in H. destruct H as (i & <- & Hi).
  apply matching_indices_bounds in Hi.
  rewrite start_line_section_at, end_line_section_at.
  apply Z.add_le_mono_r. apply next_heading_cap_lower. lia.
Qed.

(** Where no line is a heading, the window of a section ends
    [max_section_lines] lines after its start line, or at the last line of
    the text. *)
Lemma window_end_without_headings (lines : list str)
      (max_section_lines : Z) (canonical : str) (i : Z) :
  let s := section_at lines [] max_section_lines canonical i in
  end_line s
  = Z.min (Z.of_nat (length lines)) (start_line s + max_section_lines).
Proof.
  intros s. subst s. rewrite end_line_section_at, start_line_section_at.
  simpl. lia.
Qed.

End LineWindowResults.

(* ===================================================================== *)
(** * Heading Detector *)
(* ===================================================================== *)

Section HeadingDetector.
Import PyStr PyNum Regex LineWindow.

Let at_end : option ascii -> str -> bool :=
  fun _ s' => match s' with [] => true | _ => false end.

(** A starred class followed by the end of the subject matches the strings
    of that class. *)
Lemma star_class_to_end (p : ascii -> bool) :
  forall fuel prev rest,
    length rest <= fuel ->
    star_loop (rmatch (Sym p)) at_end fuel prev rest = forallb p rest.
Proof.
  induction fuel as [|fuel IH]; intros prev rest Hlen.
  - destruct rest; [reflexivity | simpl in Hlen; lia].
  - destruct rest as [|c rest]; [reflexivity|].
    simpl. destruct (p c); [|reflexivity].
    rewrite (proj2 (Nat.ltb_lt _ _) (Nat.lt_succ_diag_r _)).
    rewrite IH by (simpl in Hlen; lia).
    now destruct (forallb p rest).
Qed.

Lemma fullmatch_plus_class (p : ascii -> bool) (s : str) :
  fullmatch (Plus (Sym p)) s
  = match s with [] => false | _ :: _ => forallb p s end.
Proof.
  destruct s as [|c s]; [reflexivity|].
  unfold fullmatch, Plus. simpl. destruct (p c); [|reflexivity].
  now apply star_class_to_end.
Qed.

Lemma caps_class_spec (c : ascii) : caps_class c = Spec.caps_char c.
Proof. destruct c as [[] [] [] [] [] [] [] []]; vm_compute; reflexivity. Qed.

(** More than 60% of [words] words, as the code computes it with a
    quotient of floats and as a comparison of integers. *)
Lemma title_ratio (caps words : nat) :
  1 <= words <= 120 ->
  Qlt_bool (PyFloat.literal (6 # 10))
           (PyFloat.int_truediv (Z.of_nat caps)
                                (Z.of_nat (Nat.max 1 words)))
  = (3 * words <? 5 * caps).
Proof.
  intros Hw. rewrite Nat.max_r by lia.
  destruct words as [|n]; [lia|].
  assert (Hq : (inject_Z (Z.of_nat caps) / inject_Z (Z.of_nat (S n))
                == Z.of_nat caps # Pos.of_succ_nat n)%Q)
    by (now rewrite Qmake_Qdiv).
  assert (Hpos : (0 <= Z.of_nat caps # Pos.of_succ_nat n)%Q)
    by (unfold Qle; simpl; lia).
  unfold PyFloat.int_truediv.
  destruct (3 * S n <? 5 * caps) eqn:E.
  - apply Nat.ltb_lt in E. apply Qlt_bool_iff.
    apply Qlt_le_trans with (PyFloat.rnd (361 # 600)).
    + vm_compute. reflexivity.
    + apply rnd_le; [discriminate|]. rewrite Hq.
      unfold Qle. simpl Qnum. simpl Qden.
      rewrite Zpos_P_of_succ_nat. lia.
  - apply Nat.ltb_ge in E.
    destruct (Qlt_bool _ _) eqn:L; [|reflexivity].
    apply Qlt_bool_iff in L. exfalso. revert L. apply Qle_not_lt.
    unfold PyFloat.literal. apply rnd_le; [lra|]. rewrite Hq.
    unfold Qle. simpl Qnum. simpl Qden.
    rewrite Zpos_P_of_succ_nat. lia.
Qed.

Lemma split_from_length (s cur : str) :
  length (split_from cur s)
  <= length s + match cur with [] => 0 | _ :: _ => 1 end.
Proof.
  revert cur. induction s as [|c s IH]; intros cur; simpl.
  - destruct cur; simpl; lia.
  - destruct (is_space c).
    + destruct cur; simpl; specialize (IH []); simpl in IH; lia.
    + specialize (IH (c :: cur)). simpl in IH. destruct cur; lia.
Qed.

Lemma split_length (s : str) : length (split s) <= length s.
Proof.
  unfold split. pose proof (split_from_length s []) as H. simpl in H. lia.
Qed.

Lemma all_caps_agree (t : str) :
  (8 <=? length t) && fullmatch (Plus (Sym caps_class)) t
  = (8 <=? length t) && forallb Spec.caps_char t.
Proof.
  rewrite fullmatch_plus_class.
  assert (Hcaps : forallb caps_class t = forallb Spec.caps_char t).
  { induction t as [|c t IH]; simpl; [reflexivity|].
    now rewrite caps_class_spec, IH. }
  rewrite <- Hcaps. now destruct t.
Qed.

Lemma title_case_agree (t : str) :
  (length t <=? 120)
  && ((2 <=? length (split t))
      && Qlt_bool (PyFloat.literal (6 # 10))
           (PyFloat.int_truediv
              (Z.of_nat (length (filter starts_upper (split t))))
              (Z.of_nat (Nat.max 1 (length (split t))))))
  = (length t <=? 120) && (2 <=? length (split t))
    && (3 * length (split t)
        <? 5 * length (filter Spec.begins_upper (split t))).
Proof.
  change (filter Spec.begins_upper (split t))
    with (filter starts_upper (split t)).
  rewrite <- andb_assoc.
  destruct (length t <=? 120) eqn:L; [|reflexivity].
  apply Nat.leb_le in L. cbn [andb].
  destruct (2 <=? length (split t)) eqn:E; [|reflexivity].
  apply Nat.leb_le in E. pose proof (split_length t).
  now rewrite title_ratio by lia.
Qed.

(** The code's second and third heuristics are those of the
    specification; its first is the search for
    [SECTION_HEADING_PATTERN]. *)
Lemma is_heading_line_heuristics (line : str) :
  is_heading_line line
  = search SECTION_HEADING_PATTERN line
    || Spec.heuristic_all_caps line
    || Spec.heuristic_title_case line.
Proof.
  unfold is_heading_line, Spec.heuristic_all_caps, Spec.heuristic_title_case.
  cbv zeta. rewrite all_caps_agree, title_case_agree.
  destruct (search SECTION_HEADING_PATTERN line); [reflexivity|].
  destruct ((8 <=? length (strip line))
            && forallb Spec.caps_char (strip line)); [reflexivity|].
  now destruct (_ && _ && _).
Qed.

(** C2. On the line [Section 1 foo] the code and the three heuristics of the
    specification disagree: [is_heading_line] accepts it, through its
    enumerator pattern, whose class [[A-Z]] stands under the flag
    [re.IGNORECASE] and so admits the small letter; the specification's
    enumerator heuristic, which asks for a capitalized word, does not hold,
    and neither does the all-caps or the title-case heuristic. *)
Theorem enumerator_ignores_case :
  let line := py "Section 1 foo" in
  is_heading_line line = true
  /\ search SECTION_HEADING_PATTERN line = true
  /\ Spec.heuristic_enumerator line = false
  /\ Spec.heuristic_all_caps line = false
  /\ Spec.heuristic_title_case line = false
  /\ Spec.is_heading line = false.
Proof. vm_compute. repeat split; reflexivity. Qed.

End HeadingDetector.

(* ===================================================================== *)
(** * The window of the line-window extractor *)
(* ===================================================================== *)

Section LineWindowCap.
Import PyStr PyDict Regex LineWindow Shape Samples.

(** C3. On a text of three lines with no heading line and one line that
    matches the target, and with [max_section_lines = 1], the extractor
    returns one section, from line 1 to line 2: the section ends at
    [start + max_section_lines], one line after the cap
    [start + max_section_lines - 1], although the text has a third line. *)
Theorem window_exceeds_max_section_lines :
  let lines := _split_lines three_lines in
  length lines = 3
  /\ _find_heading_indices lines = []
  /\ matching_indices (target_pattern restricted_payments) (enumerate lines)
     = [0%Z]
  /\ extract_covenants_from_text three_lines [restricted_payments] 1
     = Some [(restricted_payments, [three_lines_section])]
  /\ start_line three_lines_section = 1%Z
  /\ end_line three_lines_section = 2%Z
  /\ end_line three_lines_section
     <> (start_line three_lines_section + 1 - 1)%Z.
Proof. vm_compute. repeat split; try reflexivity. discriminate. Qed.

End LineWindowCap.

(* ===================================================================== *)
(** * The data-model invariant *)
(* ===================================================================== *)

Section DataModel.
Import PyStr PyDict Samples.

(** The claim C7 as stated fails: with [max_section_lines = -1] the
    line-window extractor returns, on a text of one matching line, a
    section that starts at line 1 and ends at line 0. *)
Lemma negative_window_section :
  LineWindow.extract_covenants_from_text one_line [restricted_payments] (-1)
  = Some [(restricted_payments, [one_line_section])]
  /\ (LineWindow.end_line one_line_section
      < LineWindow.start_line one_line_section)%Z.
Proof. vm_compute. split; reflexivity. Qed.

(** C7, amended. Every section that the line-window extractor returns for
    a window [max_section_lines >= 0] ends at or after its start line; every
    section that the span-based extractor returns, from [extract_sections]
    or from [extract_by_type], ends at or after its start position and has a
    confidence in [[0, 1]]. *)
Theorem section_data_invariant :
  (forall text targets max_section_lines results canonical sections s,
      (0 <= max_section_lines)%Z ->
      LineWindow.extract_covenants_from_text text targets max_section_lines
      = Some results ->
      get results canonical = Some sections ->
      In s sections ->
      (LineWindow.start_line s <= LineWindow.end_line s)%Z)
  /\ (forall re_finditer str_title text s,
         In s (SpanBased.extract_sections re_finditer str_title text) ->
         (SpanBased.start_pos s <= SpanBased.end_pos s)%Z
         /\ (0 <= SpanBased.confidence s <= 1)%Q)
  /\ (forall re_finditer str_title text covenant_type l s,
         SpanBased.extract_by_type re_finditer str_title text covenant_type
         = Some l ->
         In s l ->
         (SpanBased.start_pos s <= SpanBased.end_pos s)%Z
         /\ (0 <= SpanBased.confidence s <= 1)%Q).
Proof.
  split; [|split].
  - intros text targets max results canonical sections s Hmax Hex Hget Hin.
    destruct (extract_covenants_from_text_lists _ _ _ _ _ _ Hex Hget)
      as (pattern & ->).
    eapply sections_of_ordered; eauto.
  - intros re_finditer str_title text s H.
    eapply built_from_invariant, extract_sections_built; eauto.
  - intros re_finditer str_title text ty l s Hl H.
    eapply built_from_invariant, extract_by_type_built; eauto.
Qed.

End DataModel.

(* ===================================================================== *)
(** * The LLM bridge without credential *)
(* ===================================================================== *)

Section NoCredential.
Import PyStr PyDict LlmBridge.

Variable getenv : str -> option str.
Variable openai_importable : bool.
Variable client_init : str -> bool.
Variable chat_completion : request -> response.
Variable json_dumps : json -> str.
Variable json_loads : str -> option json.

(** A credential is absent when it is [None] or the empty string. *)
Lemma or_else_absent (x y : option str) :
  (x = None \/ x = Some []) -> (y = None \/ y = Some []) ->
  or_else x y = None \/ or_else x y = Some [].
Proof. intros [-> | ->] [-> | ->]; simpl; auto. Qed.

(** C8. With no credential, neither in the argument [api_key] nor in the
    environment, [llm_extract_covenants] returns the empty mapping for every
    text and every list of targets: it does not raise, and all it does to
    the world is to read the environment variable; no network call is
    made. *)
Theorem llm_without_credential (text : str) (targets : list str)
        (model : str) (api_key : option str) (max_tokens : Z) :
  (api_key = None \/ api_key = Some []) ->
  (getenv (py "OPENAI_API_KEY") = None
   \/ getenv (py "OPENAI_API_KEY") = Some []) ->
  let run :=
    llm_extract_covenants getenv openai_importable client_init
                          chat_completion json_dumps json_loads
                          text targets model api_key max_tokens in
  snd run = Returns []
  /\ fst run = [Getenv (py "OPENAI_API_KEY")]
  /\ existsb is_network_call (fst run) = false.
Proof.
  intros Hkey Henv run. subst run. unfold llm_extract_covenants.
  destruct (or_else_absent _ _ Hkey Henv) as [-> | ->];
    destruct Hkey as [-> | ->]; auto.
Qed.

End NoCredential.

(* ===================================================================== *)
(** * The properties on the sample inputs *)
(* ===================================================================== *)

Section OnSamples.
Import PyStr PyDict Spec Samples SpanSamples.



(** The span-based extractor on the agreement of 6000 characters: the span
    is capped at 5000 characters, its last blank line lies past 70% of it,
    and the content is cut there. *)
Lemma section_content_capped_witness :
  In long_text_section
     (SpanBased.extract_sections long_text_finditer no_title long_text)
  /\ length (SpanBased.content long_text_section) <= 5000
  /\ exists initial_end,
      let span := SpanBased.captured_span long_text_finditer long_text
                    (Z.to_nat (SpanBased.start_pos long_text_section))
                    initial_end in
      length span = 5000
      /\ last_blank_line span 4000
      /\ past_70_percent span 4000
      /\ SpanBased.content long_text_section = strip (firstn 4000 span).
Proof.
  assert (Hin : In long_text_section
                   (SpanBased.extract_sections long_text_finditer
                      no_title long_text))
    by (vm_compute; left; reflexivity).
  split; [exact Hin|].
  destruct (proj1 (section_content_capped long_text_finditer no_title
                     long_text)
                  long_text_section Hin) as (Hcap & initial_end & Hcut).
  split; [exact Hcap|]. exists initial_end. cbv zeta.
  assert (Hspan : SpanBased.captured_span long_text_finditer long_text
                    (Z.to_nat (SpanBased.start_pos long_text_section))
                    initial_end
                  = firstn 5000 long_text) by reflexivity.
  rewrite Hspan in *.
  assert (Hlen : length (firstn 5000 long_text) = 5000)
    by (vm_compute; reflexivity).
  assert (Hlast : last_blank_line (firstn 5000 long_text) 4000)
    by (apply rfind_last_blank_line; vm_compute; reflexivity).
  assert (Hpast : past_70_percent (firstn 5000 long_text) 4000)
    by (apply past_70_percent_Z; rewrite Hlen; lia).
  split; [exact Hlen|]. split; [exact Hlast|]. split; [exact Hpast|].
  exact (proj1 Hcut 4000 Hlast Hpast).
Defined.

(** At exactly 70% of the span the float product decides: the span of 90
    characters is cut at index 63, the span of 10 characters is not cut at
    index 7. *)
Lemma cut_at_seventy_percent :
  SpanBased.extract_sections boundary_text_finditer no_title boundary_text
  = [boundary_text_section]
  /\ SpanBased.captured_span boundary_text_finditer boundary_text 0
       (length boundary_text) = boundary_text
  /\ length boundary_text = 90
  /\ last_blank_line boundary_text 63
  /\ ~ past_70_percent boundary_text 63
  /\ SpanBased.content boundary_text_section
     = strip (firstn 63 boundary_text).
Proof.
  split; [vm_compute; reflexivity|]. split; [vm_compute; reflexivity|].
  split; [reflexivity|].
  split; [apply rfind_last_blank_line; vm_compute; reflexivity|].
  split; [|vm_compute; reflexivity].
  intros H. apply past_70_percent_Z in H. vm_compute in H. discriminate.
Qed.

Lemma no_cut_at_seventy_percent :
  SpanBased._extract_full_section no_match short_text 0 0 = short_text
  /\ SpanBased.captured_span no_match short_text 0 0 = short_text
  /\ length short_text = 10
  /\ last_blank_line short_text 7
  /\ ~ before_70_percent short_text 7.
Proof.
  split; [vm_compute; reflexivity|]. split; [vm_compute; reflexivity|].
  split; [reflexivity|].
  split; [apply rfind_last_blank_line; vm_compute; reflexivity|].
  intros H. apply before_70_percent_Z in H. vm_compute in H. discriminate.
Qed.

Lemma confidence_floor_witness :
  In covenant_text_section
     (SpanBased.extract_sections covenant_text_finditer no_title
                                 covenant_text)
  /\ (3 # 10 <= SpanBased.confidence covenant_text_section)%Q.
Proof.
  assert (Hin : In covenant_text_section
                   (SpanBased.extract_sections covenant_text_finditer
                      no_title covenant_text))
    by (vm_compute; left; reflexivity).
  split; [exact Hin|].
  exact (proj1 (confidence_floor covenant_text_finditer no_title
                  covenant_text)
               covenant_text_section Hin).
Defined.

(** The line-window extractor on two matching lines. *)
Lemma sections_in_line_order_witness :
  LineWindow.extract_covenants_from_text two_matches [restricted_payments] 120
  = Some [(restricted_payments, two_matches_sections)]
  /\ get [(restricted_payments, two_matches_sections)] restricted_payments
     = Some two_matches_sections
  /\ increasing_starts two_matches_sections.
Proof.
  assert (E : LineWindow.extract_covenants_from_text
                two_matches [restricted_payments] 120
              = Some [(restricted_payments, two_matches_sections)])
    by (vm_compute; reflexivity).
  assert (G : get [(restricted_payments, two_matches_sections)]
                  restricted_payments
              = Some two_matches_sections) by (vm_compute; reflexivity).
  split; [exact E|]. split; [exact G|].
  destruct (sections_in_line_order two_matches [restricted_payments] 120)
    as (results & Hex & Hinc).
  rewrite E in Hex. injection Hex as <-.
  exact (Hinc restricted_payments two_matches_sections G).
Defined.

(** The data-model invariant on a window of one line and on the
    one-sentence agreement. *)
Lemma section_data_invariant_witness :
  ((0 <= 1)%Z
   /\ LineWindow.extract_covenants_from_text three_lines
        [restricted_payments] 1
      = Some [(restricted_payments, [three_lines_section])]
   /\ get [(restricted_payments, [three_lines_section])] restricted_payments
      = Some [three_lines_section]
   /\ In three_lines_section [three_lines_section]
   /\ (LineWindow.start_line three_lines_section
       <= LineWindow.end_line three_lines_section)%Z)
  /\ (In covenant_text_section
         (SpanBased.extract_sections covenant_text_finditer no_title
                                     covenant_text)
      /\ (SpanBased.start_pos covenant_text_section
          <= SpanBased.end_pos covenant_text_section)%Z
      /\ (0 <= SpanBased.confidence covenant_text_section <= 1)%Q).
Proof.
  assert (H0 : (0 <= 1)%Z) by discriminate.
  assert (E : LineWindow.extract_covenants_from_text three_lines
                [restricted_payments] 1
              = Some [(restricted_payments, [three_lines_section])])
    by (vm_compute; reflexivity).
  assert (G : get [(restricted_payments, [three_lines_section])]
                  restricted_payments
              = Some [three_lines_section]) by (vm_compute; reflexivity).
  assert (Hin : In three_lines_section [three_lines_section])
    by (left; reflexivity).
  assert (HinB : In covenant_text_section
                    (SpanBased.extract_sections covenant_text_finditer
                       no_title covenant_text))
    by (vm_compute; left; reflexivity).
  destruct section_data_invariant as (HA & HB & _).
  split.
  - repeat (split; [assumption|]).
    exact (HA _ _ _ _ _ _ _ H0 E G Hin).
  - split; [exact HinB|]. exact (HB _ _ _ _ HinB).
Defined.

(** The LLM bridge in a world without credential. *)
Lemma llm_without_credential_witness :
  (@None str = None \/ @None str = Some [])
  /\ (empty_env (py "OPENAI_API_KEY") = None
      \/ empty_env (py "OPENAI_API_KEY") = Some [])
  /\ snd (LlmBridge.llm_extract_covenants empty_env true any_client
            silent_model no_dumps no_loads covenant_text
            [restricted_payments] (py "gpt-4o-mini") None 800)
     = LlmBridge.Returns []
  /\ fst (LlmBridge.llm_extract_covenants empty_env true any_client
            silent_model no_dumps no_loads covenant_text
            [restricted_payments] (py "gpt-4o-mini") None 800)
     = [LlmBridge.Getenv (py "OPENAI_API_KEY")]
  /\ existsb LlmBridge.is_network_call
       (fst (LlmBridge.llm_extract_covenants empty_env true any_client
               silent_model no_dumps no_loads covenant_text
               [restricted_payments] (py "gpt-4o-mini") None 800))
     = false.
Proof.
  assert (Hk : @None str = None \/ @None str = Some [])
    by (left; reflexivity).
  assert (He : empty_env (py "OPENAI_API_KEY") = None
               \/ empty_env (py "OPENAI_API_KEY") = Some [])
    by (left; reflexivity).
  split; [exact Hk|]. split; [exact He|].
  exact (llm_without_credential empty_env true any_client silent_model
           no_dumps no_loads covenant_text [restricted_payments]
           (py "gpt-4o-mini") None 800 Hk He).
Defined.

End OnSamples.

(* ===================================================================== *)
(** * Further properties of the deduplicator *)
(* ===================================================================== *)

Section DeduplicatorOrder.
Import PyStr PyNum SpanBased Spec Shape Props.

Lemma all_pairs_app (A : Type) (R : A -> A -> Prop) (a b : list A) :
  all_pairs R (a ++ b) <->
  all_pairs R a /\ all_pairs R b /\ (forall x y, In x a -> In y b -> R x y).
Proof.
  induction a as [|z a IH]; simpl.
  - intuition.
  - rewrite Forall_app, IH, !Forall_forall. split.
    + intros ((Ha & Hb) & Hda & Hdb & Hab).
      split; [split; assumption|]. split; [assumption|].
      intros x y [<- | Hx] Hy; auto.
    + intros ((Ha & Hda) & Hdb & Hab).
      split; [split; [assumption|]|].
      * intros y Hy. apply Hab; auto.
      * split; [assumption|]. split; [assumption|].
        intros x y Hx Hy. apply Hab; auto.
Qed.

Lemma all_pairs_sorted (A : Type) (R : A -> A -> Prop) (l : list A) :
  all_pairs R l <-> StronglySorted R l.
Proof.
  induction l as [|x l IH]; simpl.
  - split; [constructor | trivial].
  - split.
    + intros (H1 & H2). constructor; [now apply IH | exact H1].
    + intros H. apply StronglySorted_inv in H. destruct H as (H1 & H2).
      split; [exact H2 | now apply IH].
Qed.

Lemma all_pairs_remove (A : Type) (R : A -> A -> Prop) (a b : list A) (x : A) :
  all_pairs R (a ++ x :: b) -> all_pairs R (a ++ b).
Proof.
  rewrite !all_pairs_app. simpl. intros (Ha & (_ & Hb) & Hab).
  split; [exact Ha|]. split; [exact Hb|].
  intros u v Hu Hv. apply Hab; auto.
Qed.

Lemma all_pairs_snoc (A : Type) (R : A -> A -> Prop) (l : list A) (x : A) :
  all_pairs R l -> (forall y, In y l -> R y x) -> all_pairs R (l ++ [x]).
Proof.
  intros Hl Hx. apply all_pairs_app. split; [exact Hl|].
  split; [simpl; auto|]. intros u v Hu [<- | []]. now apply Hx.
Qed.

(** A list of that shape is pairwise disjoint. *)
Lemma deduplicated_shape_disjoint (l : list CovenantSection) :
  deduplicated_shape l -> disjoint_list l.
Proof.
  intros (Hs & Hc). induction l as [|x l IH]; simpl; [exact I|].
  destruct Hs as (Hsx & Hs). destruct Hc as (Hcx & Hc).
  split; [|now apply IH].
  rewrite Forall_forall in *. intros y Hy.
  apply no_overlap_before; [now apply Hsx | now apply Hcx].
Qed.

(** A candidate whose start lies in no accepted section is appended. *)
Lemma dedup_step_clean (kept : list CovenantSection) (s : CovenantSection) :
  (forall e, In e kept -> ~ covers e (start_pos s)) ->
  dedup_step kept s = kept ++ [s].
Proof.
  intros H. unfold dedup_step.
  pose proof (dedup_inner_clean (length kept) s kept 0
                ltac:(lia) H) as E.
  destruct (dedup_inner s kept 0) as (d, ov).
  injection E as -> ->. reflexivity.
Qed.

(** One turn of the loop on a list of that shape, for a candidate that
    starts no earlier than the accepted sections. *)
Lemma dedup_step_shape (kept : list CovenantSection) (s : CovenantSection) :
  deduplicated_shape kept ->
  (forall e, In e kept -> start_le e s) ->
  deduplicated_shape (dedup_step kept s)
  /\ incl (dedup_step kept s) (kept ++ [s])
  /\ length (dedup_step kept s) <= S (length kept)
  /\ (kept <> [] -> dedup_step kept s <> []).
Proof.
  intros Hshape Hbefore.
  pose proof (dedup_inner_cases s kept []
                (deduplicated_shape_disjoint _ Hshape)
                (fun e (F : In e []) => match F with end)) as Hcases.
  simpl in Hcases. unfold dedup_step. destruct Hshape as (Hs & Hc).
  destruct Hcases as
      [(-> & Hclean)
      | [(a & E & b & Hk & Hcov & Hconf & ->)
        | (a & E & b & Hk & Hcov & Hconf & -> & Hclean)]].
  - split; [split; apply all_pairs_snoc; auto|].
    split; [apply incl_refl|]. split; [rewrite length_app; simpl; lia|].
    intros _ H. destruct kept; discriminate.
  - split; [split; assumption|]. split; [apply incl_appl, incl_refl|].
    split; [lia | auto].
  - rewrite Hk in Hs, Hc.
    assert (Hab : incl (a ++ b) kept).
    { rewrite Hk. intros x Hx. apply in_app_or in Hx. apply in_or_app.
      destruct Hx; [left | right; right]; assumption. }
    split.
    + split; apply all_pairs_snoc; eauto using all_pairs_remove.
    + split.
      * intros x Hx. apply in_app_or in Hx. apply in_or_app.
        destruct Hx as [Hx | Hx]; [left; auto | right; exact Hx].
      * split.
        -- rewrite Hk, !length_app. simpl. lia.
        -- intros _ H. destruct (a ++ b); discriminate.
Qed.

(** The loop over a sorted list keeps the shape. *)
Lemma dedup_loop_shape :
  forall rest kept,
    deduplicated_shape kept ->
    StronglySorted start_le rest ->
    (forall e s, In e kept -> In s rest -> start_le e s) ->
    let out := fold_left dedup_step rest kept in
    deduplicated_shape out
    /\ incl out (kept ++ rest)
    /\ length out <= length kept + length rest
    /\ (kept ++ rest <> [] -> out <> []).
Proof.
  induction rest as [|s rest IH]; intros kept Hshape Hsorted Hcross.
  - simpl. rewrite app_nil_r. repeat split; auto using incl_refl; try lia.
    apply Hshape. apply Hshape.
  - simpl fold_left.
    apply StronglySorted_inv in Hsorted. destruct Hsorted as (Hsorted & Hs).
    rewrite Forall_forall in Hs.
    destruct (dedup_step_shape kept s Hshape
                (fun e He => Hcross e s He (or_introl eq_refl)))
      as (H1 & H2 & H3 & H4).
    destruct (IH (dedup_step kept s) H1 Hsorted) as (J1 & J2 & J3 & J4).
    { intros e u He Hu. apply H2 in He. apply in_app_or in He.
      destruct He as [He | [<- | []]]; [|now apply Hs].
      apply Hcross; [exact He | now right]. }
    split; [exact J1|]. split.
    + intros x Hx. apply J2 in Hx. apply in_app_or in Hx. apply in_or_app.
      destruct Hx as [Hx | Hx]; [|right; now right].
      apply H2 in Hx. apply in_app_or in Hx.
      destruct Hx as [Hx | [<- | []]]; [now left | right; now left].
    + split; [simpl; lia|].
      intros _. apply J4. intros Hnil. apply app_eq_nil in Hnil.
      destruct Hnil as (Hnil & ->).
      destruct kept as [|k kept'].
      * rewrite dedup_step_clean in Hnil by (intros e []). discriminate.
      * apply H4 in Hnil; [exact Hnil | discriminate].
Qed.

Lemma deduplicate_sections_shape (sections : list CovenantSection) :
  deduplicated_shape (_deduplicate_sections sections)
  /\ length (_deduplicate_sections sections) <= length sections
  /\ (sections <> [] -> _deduplicate_sections sections <> []).
Proof.
  unfold _deduplicate_sections. destruct sections as [|s0 l].
  - split; [split; exact I|]. split; [apply le_n | auto].
  - set (sections := s0 :: l).
    destruct (dedup_loop_shape (sort_by_start sections) []
                (conj I I) (sort_by_start_sorted sections)
                (fun e s (F : In e []) _ => match F with end))
      as (H1 & _ & H3 & H4).
    split; [exact H1|]. split.
    + rewrite (Permutation_length (sort_by_start_perm sections)). exact H3.
    + intros _. apply H4. intros Hnil.
      apply (f_equal (@length CovenantSection)) in Hnil.
      change (length (sort_by_start sections) = 0) in Hnil.
      rewrite <- (Permutation_length (sort_by_start_perm sections)) in Hnil.
      discriminate.
Qed.

(** The stable sort leaves a sorted list as it is. *)
Lemma sort_by_start_sorted_id (l : list CovenantSection) :
  StronglySorted start_le l -> sort_by_start l = l.
Proof.
  induction 1 as [|x l Hs IH Hx]; simpl; [reflexivity|].
  rewrite IH. destruct l as [|y l]; [reflexivity|]. simpl.
  apply Forall_inv in Hx. unfold start_le in Hx.
  now rewrite (proj2 (Z.leb_le _ _) Hx).
Qed.

(** The loop accepts a list of the deduplicated shape unchanged. *)
Lemma dedup_loop_fixed :
  forall rest kept,
    deduplicated_shape (kept ++ rest) ->
    fold_left dedup_step rest kept = kept ++ rest.
Proof.
  induction rest as [|s rest IH]; intros kept Hshape; simpl.
  - now rewrite app_nil_r.
  - replace (kept ++ s :: rest) with ((kept ++ [s]) ++ rest) in *
      by (now rewrite <- app_assoc).
    rewrite <- (IH (kept ++ [s]) Hshape). f_equal.
    apply dedup_step_clean.
    intros e He. destruct Hshape as (_ & Hc).
    apply all_pairs_app in Hc. destruct Hc as (Hc & _).
    apply all_pairs_app in Hc. destruct Hc as (_ & _ & Hc).
    apply (Hc e s He). now left.
Qed.

(** X1. The list that [_deduplicate_sections] returns is in ascending order
    of start position, and no member starts inside the range of an earlier
    member. *)
Theorem deduplicate_sections_ascending (sections : list CovenantSection) :
  StronglySorted start_le (_deduplicate_sections sections)
  /\ all_pairs start_outside (_deduplicate_sections sections).
Proof.
  destruct (deduplicate_sections_shape sections) as ((Hs & Hc) & _).
  split; [now apply all_pairs_sorted | exact Hc].
Qed.

(** X2. Deduplication is idempotent: a deduplicated list is returned
    unchanged. *)
Theorem deduplicate_sections_idempotent (sections : list CovenantSection) :
  _deduplicate_sections (_deduplicate_sections sections)
  = _deduplicate_sections sections.
Proof.
  destruct (deduplicate_sections_shape sections) as (Hshape & _).
  set (out := _deduplicate_sections sections) in *.
  unfold _deduplicate_sections at 1. destruct out as [|s0 l] eqn:E;
    [reflexivity|].
  rewrite sort_by_start_sorted_id
    by (apply all_pairs_sorted, Hshape).
  now apply (dedup_loop_fixed (s0 :: l) []).
Qed.

(** X3. A candidate that is the only one with at least its own confidence
    is always returned. *)
Theorem deduplicate_sections_keeps_best (sections : list CovenantSection)
        (x : CovenantSection) :
  In x sections ->
  (forall y, In y sections ->
             (confidence x <= confidence y)%Q -> y = x) ->
  In x (_deduplicate_sections sections).
Proof.
  intros Hx Hbest.
  destruct (deduplicate_sections_facts sections) as (_ & Hincl & Hdom).
  destruct (Hdom x Hx) as [H | (y & Hy & Hc)]; [exact H|].
  rewrite <- (Hbest y (Hincl y Hy) (beats_confidence _ _ Hc)). exact Hy.
Qed.

(** X4. Deduplication returns no more sections than it is given, and an
    empty list only for an empty list. *)
Theorem deduplicate_sections_size (sections : list CovenantSection) :
  length (_deduplicate_sections sections) <= length sections
  /\ (_deduplicate_sections sections = [] <-> sections = []).
Proof.
  destruct (deduplicate_sections_shape sections) as (_ & Hlen & Hne).
  split; [exact Hlen|]. split.
  - intros H. destruct sections as [|s l]; [reflexivity|].
    exfalso. apply Hne; [discriminate | exact H].
  - intros ->. reflexivity.
Qed.

End DeduplicatorOrder.

Section DeduplicatorOrderSamples.
Import PyStr SpanBased Samples.

Lemma deduplicate_sections_keeps_best_witness :
  In (candidate 20 30 (7 # 10)) three_candidates
  /\ In (candidate 20 30 (7 # 10)) (_deduplicate_sections three_candidates).
Proof.
  assert (Hin : In (candidate 20 30 (7 # 10)) three_candidates)
    by (right; right; left; reflexivity).
  split; [exact Hin|].
  apply (deduplicate_sections_keeps_best three_candidates _ Hin).
  intros y [<- | [<- | [<- | []]]] Hle;
    try reflexivity; exfalso; revert Hle; unfold Qle; simpl; lia.
Defined.

Lemma deduplicate_sections_size_witness :
  _deduplicate_sections three_candidates <> [].
Proof.
  intros H.
  apply (proj1 (proj2 (deduplicate_sections_size three_candidates))) in H.
  discriminate.
Defined.

End DeduplicatorOrderSamples.

(* ===================================================================== *)
(** * Further properties of the confidence score *)
(* ===================================================================== *)

Section ConfidenceOrder.
Import PyStr PyNum PyFloat SpanBased Spec Shape Props.







Lemma ratio_zero (total : nat) : ratio 0 total = 0%Q.
Proof. reflexivity. Qed.

Lemma no_hits_no_confidence :
  fadd (fmul 0 (literal (6 # 10))) (fmul 0 (literal (4 # 10))) = 0%Q.
Proof. vm_compute. reflexivity. Qed.

Lemma count_hits_positive (phrases : list str) (text_lower : str) :
  0 < count_hits phrases text_lower ->
  exists phrase, In phrase phrases
                 /\ contains (lower phrase) text_lower = true.
Proof.
  unfold count_hits. intros H.
  destruct (filter _ phrases) as [|x l] eqn:E; [simpl in H; lia|].
  assert (Hx : In x (filter (fun phrase => contains (lower phrase) text_lower)
                            phrases)) by (rewrite E; now left).
  apply filter_In in Hx. now exists x.
Qed.

(** A text with a positive confidence mentions a phrase of the
    configuration. *)
Lemma positive_confidence_mentions (text : str) (config : Config) :
  (0 < _calculate_confidence text config)%Q -> mentions config text.
Proof.
  unfold _calculate_confidence, mentions. intros H.
  destruct (count_hits (keywords config) (lower text)) as [|k] eqn:Ek.
  - destruct (count_hits (section_indicators config) (lower text))
      as [|i] eqn:Ei.
    + exfalso. cbv zeta in H. rewrite !ratio_zero in H.
      rewrite no_hits_no_confidence in H. discriminate.
    + destruct (count_hits_positive (section_indicators config) (lower text))
        as (phrase & Hin & Hc); [lia|].
      exists phrase. split; [apply in_or_app; now right | exact Hc].
  - destruct (count_hits_positive (keywords config) (lower text))
      as (phrase & Hin & Hc); [lia|].
    exists phrase. split; [apply in_or_app; now left | exact Hc].
Qed.

End ConfidenceOrder.

(* ===================================================================== *)
(** * Further properties of the span-based extractor *)
(* ===================================================================== *)

Section SpanSections.
Import PyStr PyNum PyDict SpanBased Spec Shape Props.

Variable re_finditer : str -> list re_flag -> str -> list re_match.
Variable str_title : str -> str.

Lemma part_of_trans (a b c : str) : part_of a b -> part_of b c -> part_of a c.
Proof.
  intros (x & y & ->) (u & v & ->). exists (u ++ x), (y ++ v).
  now rewrite <- !app_assoc.
Qed.

Lemma strip_part_of (s : str) : part_of (strip s) s.
Proof.
  unfold strip. destruct (lstrip_suffix s) as (a & Ha).
  destruct (rstrip_prefix (lstrip s)) as (b & Hb).
  exists a, b. now rewrite <- Hb.
Qed.

Lemma firstn_part_of (n : nat) (s : str) : part_of (firstn n s) s.
Proof. exists [], (skipn n s). simpl. now rewrite firstn_skipn. Qed.

Lemma slice_part_of (s : str) (lo hi : Z) : part_of (slice s lo hi) s.
Proof.
  unfold slice. apply part_of_trans with (skipn (slice_index (length s) lo) s).
  - apply firstn_part_of.
  - exists (firstn (slice_index (length s) lo) s), [].
    now rewrite app_nil_r, firstn_skipn.
Qed.

(** What [_extract_full_section] returns is a stripped part of the text. *)
Lemma extract_full_section_part (text : str) (start_pos initial_end : nat) :
  let result := _extract_full_section re_finditer text start_pos initial_end in
  part_of result text /\ no_lead result /\ no_trail result.
Proof.
  intros result. subst result. unfold _extract_full_section.
  split; [|split; [apply strip_no_lead | apply strip_no_trail]].
  eapply part_of_trans; [apply strip_part_of|].
  assert (Hspan : part_of (captured_span re_finditer text start_pos
                                         initial_end) text)
    by apply slice_part_of.
  destruct (Qlt_bool _ _); [|exact Hspan].
  eapply part_of_trans; [|exact Hspan]. apply firstn_part_of.
Qed.

(** A section built from a match, with the entry of its type. *)
Lemma section_of_match_typed (text covenant_type : str) (config : Config)
      (m : re_match) (s : CovenantSection) :
  In s (section_of_match re_finditer str_title text covenant_type config m) ->
  section_type s = covenant_type
  /\ content s = _extract_full_section re_finditer text (m_start m) (m_end m)
  /\ confidence s = _calculate_confidence (content s) config
  /\ (3 # 10 < confidence s)%Q.
Proof.
  unfold section_of_match. destruct (Qlt_bool _ _) eqn:C; [|intros []].
  intros [<- | []]. cbn [section_type content confidence].
  apply Qlt_bool_iff in C. apply confidence_above_floor in C. auto.
Qed.

Lemma candidates_of_type_typed (text covenant_type : str) (config : Config)
      (s : CovenantSection) :
  In s (candidates_of_type re_finditer str_title text covenant_type config) ->
  section_type s = covenant_type
  /\ part_of (content s) text
  /\ no_lead (content s) /\ no_trail (content s)
  /\ mentions config (content s).
Proof.
  unfold candidates_of_type. intros H.
  apply in_flat_map in H. destruct H as (pattern & _ & H).
  apply in_flat_map in H. destruct H as (m & _ & H).
  apply section_of_match_typed in H.
  destruct H as (Hty & Hc & Hconf & Hfloor).
  split; [exact Hty|].
  destruct (extract_full_section_part text (m_start m) (m_end m))
    as (H1 & H2 & H3).
  rewrite <- Hc in H1, H2, H3. repeat (split; [assumption|]).
  apply positive_confidence_mentions. rewrite <- Hconf.
  eapply Qlt_trans; [|exact Hfloor]. reflexivity.
Qed.

(** X6. Every section that [extract_sections] returns has the type of an
    entry of [covenant_patterns], and its content mentions at least one
    keyword or indicator phrase of that entry; every section that
    [extract_by_type] returns has the requested type and mentions a phrase
    of its entry. *)
Theorem sections_mention_their_type (text : str) :
  (forall s,
      In s (extract_sections re_finditer str_title text) ->
      exists config,
        In (section_type s, config) covenant_patterns
        /\ mentions config (content s))
  /\ (forall covenant_type l s,
         extract_by_type re_finditer str_title text covenant_type = Some l ->
         In s l ->
         section_type s = covenant_type
         /\ exists config,
             get covenant_patterns covenant_type = Some config
             /\ mentions config (content s)).
Proof.
  split.
  - intros s H. unfold extract_sections in H.
    apply (proj1 (proj2 (deduplicate_sections_facts _))) in H.
    apply in_flat_map in H. destruct H as ((ty & config) & Hin & H).
    apply candidates_of_type_typed in H. simpl in H.
    destruct H as (-> & _ & _ & _ & Hm). now exists config.
  - intros ty l s Hl H. unfold extract_by_type in Hl.
    destruct (get covenant_patterns ty) as [config|] eqn:G; [|discriminate].
    injection Hl as <-.
    apply (proj1 (proj2 (deduplicate_sections_facts _))) in H.
    apply candidates_of_type_typed in H.
    destruct H as (Hty & _ & _ & _ & Hm).
    split; [exact Hty|]. now exists config.
Qed.

(** X7. The content of every returned section is a contiguous part of the
    text, without white space at its ends. *)
Theorem content_is_part_of_text (text : str) :
  (forall s,
      In s (extract_sections re_finditer str_title text) ->
      part_of (content s) text
      /\ no_lead (content s) /\ no_trail (content s))
  /\ (forall covenant_type l s,
         extract_by_type re_finditer str_title text covenant_type = Some l ->
         In s l ->
         part_of (content s) text
         /\ no_lead (content s) /\ no_trail (content s)).
Proof.
  split.
  - intros s H. unfold extract_sections in H.
    apply (proj1 (proj2 (deduplicate_sections_facts _))) in H.
    apply in_flat_map in H. destruct H as ((ty & config) & Hin & H).
    apply candidates_of_type_typed in H. tauto.
  - intros ty l s Hl H. unfold extract_by_type in Hl.
    destruct (get covenant_patterns ty) as [config|] eqn:G; [|discriminate].
    injection Hl as <-.
    apply (proj1 (proj2 (deduplicate_sections_facts _))) in H.
    apply candidates_of_type_typed in H. tauto.
Qed.

Lemma boundary_scan_le (initial_end next_section_pos : nat)
      (matches : list re_match) :
  boundary_scan initial_end next_section_pos matches <= next_section_pos
  /\ match matches with
     | [] => True
     | m :: _ =>
         boundary_scan initial_end next_section_pos matches
         <= initial_end + m_start m
     end.
Proof.
  split.
  - induction matches as [|m rest IH]; simpl; [lia|].
    destruct (_ <? _) eqn:E; [apply Nat.ltb_lt in E; lia | exact IH].
  - destruct matches as [|m rest]; [exact I|]. simpl.
    destruct (_ <? _) eqn:E; [lia|]. apply Nat.ltb_ge in E.
    clear -E. induction rest as [|m' rest IH]; simpl; [lia|].
    destruct (_ <? _) eqn:E'; [apply Nat.ltb_lt in E'; lia | exact IH].
Qed.

(** The fold over the boundary patterns only lowers the position, and each
    pattern lowers it to its first match at least. *)
Lemma boundary_fold_le (text : str) (initial_end : nat) :
  forall bps start,
    let stop :=
      fold_left
        (fun next_section_pos boundary_pattern =>
           boundary_scan initial_end next_section_pos
             (re_finditer boundary_pattern []
                          (slice_from text (Z.of_nat initial_end))))
        bps start in
    stop <= start
    /\ Forall
         (fun boundary_pattern =>
            match re_finditer boundary_pattern []
                              (slice_from text (Z.of_nat initial_end)) with
            | [] => True
            | m :: _ => stop <= initial_end + m_start m
            end)
         bps.
Proof.
  induction bps as [|bp bps IH]; intros start; simpl.
  - split; [lia | constructor].
  - destruct (IH (boundary_scan initial_end start
                    (re_finditer bp []
                       (slice_from text (Z.of_nat initial_end)))))
      as (H1 & H2).
    destruct (boundary_scan_le initial_end start
                (re_finditer bp [] (slice_from text (Z.of_nat initial_end))))
      as (H3 & H4).
    split; [lia|]. constructor; [|exact H2].
    destruct (re_finditer bp [] (slice_from text (Z.of_nat initial_end)));
      [exact I | lia].
Qed.

(** X8. The span captured for a match ends at the end of the text at the
    latest, and at or before the first match, after the covenant match, of
    every boundary pattern; a boundary that lies before the start of the
    span leaves the span empty. *)
Theorem span_stops_at_boundary (text : str) (start_pos initial_end : nat) :
  let span := captured_span re_finditer text start_pos initial_end in
  start_pos + length span <= Nat.max start_pos (length text)
  /\ Forall
       (fun boundary_pattern =>
          match re_finditer boundary_pattern []
                            (slice_from text (Z.of_nat initial_end)) with
          | [] => True
          | m :: _ =>
              start_pos + length span
              <= Nat.max start_pos (initial_end + m_start m)
          end)
       section_boundaries.
Proof.
  intros span. subst span. unfold captured_span, slice, next_section_pos.
  rewrite !slice_index_of_nat, length_firstn, length_skipn.
  destruct (boundary_fold_le text initial_end section_boundaries
              (length text)) as (H1 & H2).
  cbv zeta in H1, H2. revert H1 H2.
  generalize (fold_left
                (fun next_section_pos boundary_pattern =>
                   boundary_scan initial_end next_section_pos
                     (re_finditer boundary_pattern []
                        (slice_from text (Z.of_nat initial_end))))
                section_boundaries (length text)).
  generalize 5000. intros cap stop H1 H2. split; [lia|].
  eapply Forall_impl; [|exact H2]. intros bp Hbp. cbv beta in *.
  destruct (re_finditer bp [] (slice_from text (Z.of_nat initial_end)));
    [exact I | lia].
Qed.

End SpanSections.

(* ===================================================================== *)
(** * Further properties of the line-window extractor *)
(* ===================================================================== *)

Section LineWindowSections.
Import PyStr PyDict Regex LineWindow Spec Shape Props.

(** The indices that a filter keeps of an enumerated list. *)
Lemma filter_enumerate_spec (f : str -> bool) :
  forall l k i,
    In i (map fst (filter (fun x => f (snd x)) (enumerate_from k l)))
    <-> (k <= i < k + Z.of_nat (length l))%Z
        /\ f (nth (Z.to_nat (i - k)) l []) = true.
Proof.
  induction l as [|x l IH]; intros k i.
  - simpl. split; [contradiction | lia].
  - assert (Hrest :
              In i (map fst (filter (fun y => f (snd y))
                                    (enumerate_from (k + 1) l)))
              <-> (k + 1 <= i < k + Z.of_nat (length (x :: l)))%Z
                  /\ f (nth (Z.to_nat (i - k)) (x :: l) []) = true).
    { rewrite IH, length_cons. split; intros (Hb & Hf); (split; [lia|]).
      - replace (Z.to_nat (i - k)) with (S (Z.to_nat (i - (k + 1)))) by lia.
        exact Hf.
      - replace (Z.to_nat (i - k)) with (S (Z.to_nat (i - (k + 1))))
          in Hf by lia.
        exact Hf. }
    simpl enumerate_from. simpl filter. simpl snd.
    destruct (f x) eqn:E.
    + simpl map. simpl In. rewrite Hrest. split.
      * intros [<- | (Hb & Hf)]; [|split; [lia | exact Hf]].
        split; [rewrite length_cons; lia|].
        now rewrite Z.sub_diag.
      * intros (Hb & Hf). destruct (Z.eq_dec k i) as [-> | Hne];
          [now left | right; split; [lia | exact Hf]].
    + rewrite Hrest. split.
      * intros (Hb & Hf). split; [lia | exact Hf].
      * intros (Hb & Hf). split; [|exact Hf].
        destruct (Z.eq_dec k i) as [-> | Hne]; [|lia].
        rewrite Z.sub_diag in Hf. simpl in Hf. congruence.
Qed.

Lemma filter_enumerate_sorted (f : str -> bool) :
  forall l k,
    StronglySorted Z.lt
      (map fst (filter (fun x => f (snd x)) (enumerate_from k l))).
Proof.
  induction l as [|x l IH]; intros k; [constructor|].
  simpl. destruct (f x); [|apply IH].
  simpl. constructor; [apply IH|].
  apply Forall_forall. intros i Hi.
  apply filter_enumerate_spec in Hi. lia.
Qed.

(** The heading indices are the indices of the heading lines, in ascending
    order. *)
Lemma find_heading_indices_spec (lines : list str) (j : Z) :
  In j (_find_heading_indices lines)
  <-> (0 <= j < Z.of_nat (length lines))%Z
      /\ is_heading_line (nth (Z.to_nat j) lines []) = true.
Proof.
  unfold _find_heading_indices, enumerate.
  rewrite (filter_enumerate_spec is_heading_line lines 0 j).
  now rewrite Z.sub_0_r, Z.add_0_l.
Qed.

(** The cap lies before every heading after the start, when the headings
    are listed in ascending order. *)
Lemma next_heading_cap_before (start_index end_index : Z) :
  forall heading_indices,
    StronglySorted Z.lt heading_indices ->
    forall h, In h heading_indices -> (start_index < h)%Z ->
              (next_heading_cap start_index end_index heading_indices < h)%Z.
Proof.
  induction 1 as [|h0 hs Hs IH Hall]; intros h Hin Hlt; [contradiction|].
  simpl. rewrite Forall_forall in Hall.
  destruct (start_index <? h0)%Z eqn:E.
  - destruct Hin as [<- | Hin]; [lia|]. specialize (Hall h Hin). lia.
  - apply Z.ltb_ge in E. destruct Hin as [<- | Hin]; [lia|]. now apply IH.
Qed.

Lemma next_heading_cap_upper (start_index end_index : Z)
      (heading_indices : list Z) :
  (next_heading_cap start_index end_index heading_indices <= end_index)%Z.
Proof.
  induction heading_indices as [|h hs IH]; simpl; [lia|].
  destruct (start_index <? h)%Z; lia.
Qed.

(** The compiled pattern of a canonical target. *)
Lemma build_target_regexes_pattern (targets : list str) (canonical : str)
      (pattern : regex) :
  In (canonical, pattern) (build_target_regexes targets) ->
  pattern = target_pattern canonical
  /\ exists t, In t targets /\ canonical = normalize_target t.
Proof.
  unfold build_target_regexes.
  assert (H : forall ts d,
             (forall c p, In (c, p) d ->
                          p = target_pattern c
                          /\ exists t, In t targets /\ c = normalize_target t) ->
             incl ts targets ->
             forall c p,
               In (c, p)
                  (fold_left
                     (fun compiled raw =>
                        set compiled (normalize_target raw)
                            (target_pattern (normalize_target raw)))
                     ts d) ->
               p = target_pattern c
               /\ exists t, In t targets /\ c = normalize_target t).
  { induction ts as [|t ts IH]; intros d Hd Hincl c p Hin; simpl in Hin.
    - now apply Hd.
    - apply (IH _) with (c := c) (p := p) in Hin; auto.
      + clear -Hd Hincl. intros c p Hin.
        assert (Hset : forall d : dict regex,
                   In (c, p) (set d (normalize_target t)
                                  (target_pattern (normalize_target t))) ->
                   In (c, p) d
                   \/ (c = normalize_target t
                       /\ p = target_pattern (normalize_target t))).
        { clear. induction d as [|(k, v) d IH]; simpl.
          - intros [[= <- <-] | []]. now right.
          - destruct (str_eqb k (normalize_target t)) eqn:E; simpl.
            + apply str_eqb_eq in E. subst k.
              intros [[= <- <-] | H]; [now right | left; now right].
            + intros [H | H]; [left; now left|].
              destruct (IH H) as [H' | H']; [left; now right | now right]. }
        destruct (Hset d Hin) as [H | (-> & ->)]; [now apply Hd|].
        split; [reflexivity|]. exists t. split; [|reflexivity].
        apply Hincl. now left.
      + intros x Hx. apply Hincl. now right. }
  apply H; [intros c p [] | apply incl_refl].
Qed.

Lemma keys_fold_set (V T : Type) (key : T -> str) (val : T -> V) :
  forall ts d k,
    In k (keys (fold_left (fun d t => set d (key t) (val t)) ts d))
    <-> In k (keys d) \/ exists t, In t ts /\ k = key t.
Proof.
  induction ts as [|t ts IH]; intros d k; simpl.
  - split; [now left | intros [H | (t & [] & _)]; exact H].
  - rewrite IH, keys_set. split.
    + intros [H | (u & Hu & ->)].
      * destruct (existsb _ (keys d)); [now left|].
        apply in_app_or in H. destruct H as [H | [<- | []]]; [now left|].
        right. exists t. split; [now left | reflexivity].
      * right. exists u. split; [now right | reflexivity].
    + intros [H | (u & [<- | Hu] & ->)].
      * left. destruct (existsb _ (keys d)); [exact H|].
        apply in_or_app. now left.
      * left. destruct (existsb _ (keys d)) eqn:E.
        -- apply existsb_exists in E. destruct E as (x & Hx & E).
           apply str_eqb_eq in E. now subst x.
        -- apply in_or_app. right. now left.
      * right. now exists u.
Qed.

Lemma get_keys (V : Type) (d : dict V) (k : str) :
  In k (keys d) <-> exists v, get d k = Some v.
Proof.
  induction d as [|(k', v) d IH]; simpl.
  - split; [contradiction | intros (v & H); discriminate].
  - destruct (str_eqb k' k) eqn:E.
    + apply str_eqb_eq in E. split; [now exists v | now left].
    + apply str_eqb_neq in E. rewrite <- IH. split; [|now right].
      intros [H | H]; [contradiction | exact H].
Qed.

(** The list of a canonical target, as the scan of its pattern. *)
Lemma extract_covenants_lists_pattern (text : str) (targets : list str)
      (max_section_lines : Z) (results : dict (list CovenantSection))
      (canonical : str) (sections : list CovenantSection) :
  extract_covenants_from_text text targets max_section_lines = Some results ->
  get results canonical = Some sections ->
  sections = sections_of (_split_lines text)
               (_find_heading_indices (_split_lines text))
               max_section_lines canonical (target_pattern canonical).
Proof.
  rewrite extract_covenants_from_text_spec. intros [= <-] Hget.
  apply get_In in Hget. apply in_map_iff in Hget.
  destruct Hget as ((c, pattern) & [= <- <-] & Hin).
  apply build_target_regexes_pattern in Hin. destruct Hin as (-> & _).
  reflexivity.
Qed.

(** On a sequence the two traversals see the same items. *)
Lemma extract_covenants_on_sequence (text : str) (targets : list str)
      (max_section_lines : Z) :
  Iterables.extract_covenants_from_text text (Iterables.Sequence targets)
                                        max_section_lines
  = extract_covenants_from_text text targets max_section_lines.
Proof. reflexivity. Qed.

(** With an empty [results], the scan of a pattern raises at the first
    recorded line. *)
Lemma scan_lines_no_key (lines : list str) (heading_indices : list Z)
      (max_section_lines : Z) (canonical : str) (pattern : regex) :
  forall il,
    fold_left
      (scan_step lines heading_indices max_section_lines canonical pattern)
      il None = None
    /\ fold_left
         (scan_step lines heading_indices max_section_lines canonical
                    pattern)
         il (Some [])
       = if existsb (fun x => recorded pattern (snd x)) il
         then None else Some [].
Proof.
  induction il as [|(i, line) il (IHn & IHs)]; [split; reflexivity|].
  split; [exact IHn|].
  cbn [fold_left existsb snd]. unfold scan_step at 2, recorded at 1.
  destruct (strip line) as [|c rest]; [exact IHs|].
  destruct (search pattern line); [|exact IHs].
  cbn [get orb]. exact IHn.
Qed.

Lemma scan_all_no_key (lines : list str) (heading_indices : list Z)
      (max_section_lines : Z) :
  forall compiled : dict regex,
    fold_left
      (fun acc cp =>
         scan_lines lines heading_indices max_section_lines
                    (fst cp) (snd cp) acc)
      compiled None = None
    /\ fold_left
         (fun acc cp =>
            scan_lines lines heading_indices max_section_lines
                       (fst cp) (snd cp) acc)
         compiled (Some [])
       = if existsb
              (fun cp => existsb (fun x => recorded (snd cp) (snd x))
                                 (enumerate lines))
              compiled
         then None else Some [].
Proof.
  induction compiled as [|(c, pattern) compiled (IHn & IHs)];
    [split; reflexivity|].
  cbn [fold_left existsb fst snd]. unfold scan_lines at 2 4.
  destruct (scan_lines_no_key lines heading_indices max_section_lines
              c pattern (enumerate lines)) as (Hn & Hs).
  rewrite Hn, Hs. split; [exact IHn|].
  destruct (existsb _ (enumerate lines)); [exact IHn | exact IHs].
Qed.

Lemma enumerate_from_snd :
  forall (l : list str) (k : Z), map snd (enumerate_from k l) = l.
Proof.
  induction l as [|x l IH]; intros k; simpl; [reflexivity|].
  now rewrite IH.
Qed.

Lemma build_target_regexes_has (targets : list str) (t : str) :
  In t targets ->
  In (normalize_target t, target_pattern (normalize_target t))
     (build_target_regexes targets).
Proof.
  intros Ht.
  assert (Hk : In (normalize_target t) (keys (build_target_regexes targets))).
  { unfold build_target_regexes.
    apply (keys_fold_set _ _ normalize_target
             (fun raw => target_pattern (normalize_target raw))).
    right. now exists t. }
  apply get_keys in Hk. destruct Hk as (p & Hp). apply get_In in Hp.
  destruct (build_target_regexes_pattern _ _ _ Hp) as (-> & _). exact Hp.
Qed.

(** On an iterator the second traversal yields nothing, and [results] is
    empty. *)
Lemma extract_covenants_on_iterator (text : str) (targets : list str)
      (max_section_lines : Z) :
  Iterables.extract_covenants_from_text text (Iterables.Iterator targets)
                                        max_section_lines
  = if existsb
         (fun cp => existsb (fun x => recorded (snd cp) (snd x))
                            (enumerate (_split_lines text)))
         (build_target_regexes targets)
    then None else Some [].
Proof.
  exact (proj2 (scan_all_no_key (_split_lines text)
                  (_find_heading_indices (_split_lines text))
                  max_section_lines (build_target_regexes targets))).
Qed.

(** X9. Called with a sequence of targets, [extract_covenants_from_text]
    never raises, and the mapping it returns has exactly one key for every
    distinct normalized target: a key has a list, possibly empty, if and
    only if it is the normal form of a requested target.  Called with an
    iterator, which the second traversal finds exhausted, it raises
    [KeyError] exactly when a line that is not blank matches the pattern of
    a target, and returns the empty mapping otherwise. *)
Theorem extract_covenants_keys (text : str) (targets : list str)
        (max_section_lines : Z) :
  (exists results,
      Iterables.extract_covenants_from_text
        text (Iterables.Sequence targets) max_section_lines = Some results
      /\ NoDup (keys results)
      /\ forall canonical,
           (exists sections, get results canonical = Some sections)
           <-> (exists t, In t targets /\ canonical = normalize_target t))
  /\ (Iterables.extract_covenants_from_text
        text (Iterables.Iterator targets) max_section_lines = None
      <-> exists t line,
            In t targets /\ In line (_split_lines text)
            /\ recorded (target_pattern (normalize_target t)) line = true)
  /\ (Iterables.extract_covenants_from_text
        text (Iterables.Iterator targets) max_section_lines = None
      \/ Iterables.extract_covenants_from_text
           text (Iterables.Iterator targets) max_section_lines = Some []).
Proof.
  split.
  - rewrite extract_covenants_on_sequence.
    eexists. split; [apply extract_covenants_from_text_spec|].
    assert (Hkeys : forall (d : dict regex)
                           (g : str * regex -> str * list CovenantSection),
               (forall cp, fst (g cp) = fst cp) -> keys (map g d) = keys d).
    { intros d g Hg. unfold keys. rewrite map_map. apply map_ext. exact Hg. }
    split.
    + rewrite Hkeys by reflexivity. unfold build_target_regexes.
      apply (fold_set_NoDup normalize_target
               (fun raw => target_pattern (normalize_target raw))).
      constructor.
    + intros canonical. rewrite <- get_keys, Hkeys by reflexivity.
      unfold build_target_regexes.
      rewrite (keys_fold_set _ _ normalize_target
                 (fun raw => target_pattern (normalize_target raw))).
      simpl. tauto.
  - rewrite extract_covenants_on_iterator.
    destruct (existsb _ (build_target_regexes targets)) eqn:E.
    + split; [|now left]. split; [intros _ | reflexivity].
      apply existsb_exists in E. destruct E as ((c, p) & Hcp & E).
      apply existsb_exists in E. destruct E as ((i, line) & Hil & E).
      cbn [snd] in E.
      destruct (build_target_regexes_pattern _ _ _ Hcp)
        as (-> & t & Ht & ->).
      exists t, line. split; [exact Ht|]. split; [|exact E].
      rewrite <- (enumerate_from_snd (_split_lines text) 0).
      change line with (snd (i, line)). now apply in_map.
    + split; [|now right]. split; [discriminate|].
      intros (t & line & Ht & Hline & Hrec). exfalso.
      assert (F : existsb
                    (fun cp =>
                       existsb (fun x => recorded (snd cp) (snd x))
                               (enumerate (_split_lines text)))
                    (build_target_regexes targets) = true).
      { apply existsb_exists.
        exists (normalize_target t, target_pattern (normalize_target t)).
        split; [now apply build_target_regexes_has|].
        apply existsb_exists.
        rewrite <- (enumerate_from_snd (_split_lines text) 0) in Hline.
        apply in_map_iff in Hline. destruct Hline as (x & <- & Hx).
        exists x. split; [exact Hx | exact Hrec]. }
      congruence.
Qed.

Lemma filter_enumerate_length (f : str -> bool) :
  forall l k,
    length (filter (fun x => f (snd x)) (enumerate_from k l))
    = length (filter f l).
Proof.
  induction l as [|x l IH]; intros k; simpl; [reflexivity|].
  destruct (f x); simpl; now rewrite IH.
Qed.

(** X10. The list of a target holds one section for every line that is not
    blank and that the pattern of the target matches; it is empty when
    there is no such line, as for an empty text. *)
Theorem one_section_per_matching_line (text : str) (targets : list str)
        (max_section_lines : Z) (results : dict (list CovenantSection))
        (canonical : str) (sections : list CovenantSection) :
  extract_covenants_from_text text targets max_section_lines = Some results ->
  get results canonical = Some sections ->
  length sections
  = length (filter (recorded (target_pattern canonical))
                   (_split_lines text)).
Proof.
  intros Hex Hget.
  rewrite (extract_covenants_lists_pattern _ _ _ _ _ _ Hex Hget).
  unfold sections_of, matching_indices, enumerate.
  now rewrite !length_map, filter_enumerate_length.
Qed.

(** X11. A section stored under a canonical target carries that target;
    it starts at a line of the text, which is not blank, which the pattern
    of the target matches and whose stripped form is the title; and it ends
    at a line of the text at the latest. *)
Theorem section_fields (text : str) (targets : list str)
        (max_section_lines : Z) (results : dict (list CovenantSection))
        (canonical : str) (sections : list CovenantSection)
        (s : CovenantSection) :
  extract_covenants_from_text text targets max_section_lines = Some results ->
  get results canonical = Some sections ->
  In s sections ->
  let lines := _split_lines text in
  let line := nth (Z.to_nat (start_line s - 1)) lines [] in
  target s = canonical
  /\ (1 <= start_line s <= Z.of_nat (length lines))%Z
  /\ (end_line s <= Z.of_nat (length lines))%Z
  /\ title s = strip line
  /\ title s <> []
  /\ search (target_pattern canonical) line = true.
Proof.
  intros Hex Hget Hin lines line. subst line.
  rewrite (extract_covenants_lists_pattern _ _ _ _ _ _ Hex Hget) in Hin.
  fold lines in Hin. unfold sections_of in Hin.
  apply in_map_iff in Hin. destruct Hin as (i & <- & Hi).
  unfold matching_indices, enumerate in Hi.
  apply (filter_enumerate_spec (recorded (target_pattern canonical))) in Hi.
  destruct Hi as (Hb & Hrec). rewrite Z.sub_0_r in Hrec.
  rewrite start_line_section_at, end_line_section_at.
  replace (i + 1 - 1)%Z with i by lia.
  split; [reflexivity|]. split; [lia|]. split.
  - pose proof (next_heading_cap_upper i
                  (Z.min (Z.of_nat (length lines) - 1)
                         (i + max_section_lines))
                  (_find_heading_indices lines)). lia.
  - split; [reflexivity|]. unfold recorded in Hrec.
    change (title (section_at lines (_find_heading_indices lines)
                              max_section_lines canonical i))
      with (strip (nth (Z.to_nat i) lines [])).
    destruct (strip (nth (Z.to_nat i) lines [])); [discriminate|].
    split; [discriminate | exact Hrec].
Qed.

(** X12. No line of a section after its first line is a heading line: the
    section ends before the next heading. *)
Theorem no_heading_inside_section (text : str) (targets : list str)
        (max_section_lines : Z) (results : dict (list CovenantSection))
        (canonical : str) (sections : list CovenantSection)
        (s : CovenantSection) (j : Z) :
  extract_covenants_from_text text targets max_section_lines = Some results ->
  get results canonical = Some sections ->
  In s sections ->
  (start_line s <= j < end_line s)%Z ->
  is_heading_line (nth (Z.to_nat j) (_split_lines text) []) = false.
Proof.
  intros Hex Hget Hin Hj.
  rewrite (extract_covenants_lists_pattern _ _ _ _ _ _ Hex Hget) in Hin.
  set (lines := _split_lines text) in *. unfold sections_of in Hin.
  apply in_map_iff in Hin. destruct Hin as (i & <- & Hi).
  unfold matching_indices, enumerate in Hi.
  apply (filter_enumerate_spec (recorded (target_pattern canonical))) in Hi.
  destruct Hi as (Hb & _).
  rewrite start_line_section_at, end_line_section_at in Hj.
  destruct (is_heading_line (nth (Z.to_nat j) lines [])) eqn:E;
    [exfalso | reflexivity].
  set (cap := Z.min (Z.of_nat (length lines) - 1) (i + max_section_lines))
    in *.
  pose proof (next_heading_cap_upper i cap (_find_heading_indices lines))
    as Hup.
  assert (Hcap : (cap <= Z.of_nat (length lines) - 1)%Z)
    by (unfold cap; lia).
  assert (Hinh : In j (_find_heading_indices lines)).
  { apply find_heading_indices_spec. split; [lia | exact E]. }
  pose proof (next_heading_cap_before i cap (_find_heading_indices lines)
                (filter_enumerate_sorted is_heading_line lines 0) j Hinh).
  lia.
Qed.

End LineWindowSections.

Section SectionText.
Import PyStr PyDict Regex LineWindow Spec Shape Props.

Lemma lstrip_app_nonblank (a b : str) :
  lstrip a <> [] -> lstrip (a ++ b) = lstrip a ++ b.
Proof.
  induction a as [|c a IH]; simpl; [congruence|].
  destruct (is_space c); [exact IH | reflexivity].
Qed.

Lemma lstrip_app_blank (a b : str) :
  lstrip a = [] -> lstrip (a ++ b) = lstrip b.
Proof.
  induction a as [|c a IH]; simpl; [reflexivity|].
  destruct (is_space c); [exact IH | discriminate].
Qed.

(** What is left of [a] after [rstrip] starts what is left of [a ++ b]. *)
Lemma rstrip_app_prefix (a b : str) :
  exists t, rstrip (a ++ b) = rstrip a ++ t.
Proof.
  unfold rstrip. rewrite rev_app_distr.
  destruct (lstrip (rev b)) as [|c r] eqn:E.
  - rewrite lstrip_app_blank by exact E. exists []. now rewrite app_nil_r.
  - rewrite lstrip_app_nonblank by (rewrite E; discriminate).
    rewrite rev_app_distr, rev_involutive.
    destruct (rstrip_prefix a) as (t & Ht). unfold rstrip in Ht.
    exists (t ++ rev (lstrip (rev b))).
    now rewrite app_assoc, <- Ht.
Qed.

Lemma startswith_prefix (p t : str) : startswith p (p ++ t) = true.
Proof.
  induction p as [|c p IH]; simpl; [reflexivity|].
  now rewrite Ascii.eqb_refl.
Qed.

(** The stripped first line starts the stripped text, when the first line
    is not blank. *)
Lemma strip_first_line (x rest : str) :
  strip x <> [] -> startswith (strip x) (strip (x ++ rest)) = true.
Proof.
  intros Hx. unfold strip in *.
  assert (Hl : lstrip x <> []).
  { intros H. rewrite H in Hx. now apply Hx. }
  rewrite (lstrip_app_nonblank x rest Hl).
  destruct (rstrip_app_prefix (lstrip x) rest) as (t & ->).
  apply startswith_prefix.
Qed.

Lemma join_cons (sep x : str) (l : list str) :
  exists rest, join sep (x :: l) = x ++ rest.
Proof.
  destruct l as [|y l]; simpl.
  - exists []. now rewrite app_nil_r.
  - now exists (sep ++ join sep (y :: l)).
Qed.

Lemma slice_index_nonneg (len : nat) (z : Z) :
  (0 <= z)%Z -> slice_index len z = Nat.min (Z.to_nat z) len.
Proof.
  intros H. unfold slice_index.
  destruct (z <? 0)%Z eqn:E; [apply Z.ltb_lt in E; lia|]. now rewrite E.
Qed.

(** The lines of a window that holds its first line. *)
Lemma slice_window (lines : list str) (i e : Z) :
  (0 <= i <= e)%Z -> (e < Z.of_nat (length lines))%Z ->
  exists l, slice lines i (e + 1) = nth (Z.to_nat i) lines [] :: l.
Proof.
  intros Hi He. unfold slice.
  rewrite !slice_index_nonneg by lia.
  rewrite !Nat.min_l by lia.
  replace (Z.to_nat (e + 1) - Z.to_nat i)
    with (S (Z.to_nat e - Z.to_nat i)) by lia.
  assert (Hlt : Z.to_nat i < length lines) by lia.
  revert Hlt. generalize (Z.to_nat e - Z.to_nat i). generalize (Z.to_nat i).
  clear. intros a n. revert a.
  induction lines as [|x lines IH]; intros a Ha; [simpl in Ha; lia|].
  destruct a as [|a]; simpl.
  - now exists (firstn n lines).
  - apply IH. simpl in Ha. lia.
Qed.

(** X13. With a window that is not negative, the text of a section begins
    with its title. *)
Theorem section_text_begins_with_title (text : str) (targets : list str)
        (max_section_lines : Z) (results : dict (list CovenantSection))
        (canonical : str) (sections : list CovenantSection)
        (s : CovenantSection) :
  (0 <= max_section_lines)%Z ->
  extract_covenants_from_text text targets max_section_lines = Some results ->
  get results canonical = Some sections ->
  In s sections ->
  startswith (title s) (LineWindow.text s) = true.
Proof.
  intros Hmax Hex Hget Hin.
  rewrite (extract_covenants_lists_pattern _ _ _ _ _ _ Hex Hget) in Hin.
  set (lines := _split_lines text) in *. unfold sections_of in Hin.
  apply in_map_iff in Hin. destruct Hin as (i & <- & Hi).
  unfold matching_indices, enumerate in Hi.
  apply (filter_enumerate_spec (recorded (target_pattern canonical))) in Hi.
  destruct Hi as (Hb & Hrec). rewrite Z.sub_0_r in Hrec.
  set (cap := Z.min (Z.of_nat (length lines) - 1) (i + max_section_lines)).
  set (e := next_heading_cap i cap (_find_heading_indices lines)).
  change (startswith (strip (nth (Z.to_nat i) lines []))
                     (strip (join [nl] (slice lines i (e + 1)))) = true).
  assert (Hcap : (i <= cap <= Z.of_nat (length lines) - 1)%Z)
    by (unfold cap; lia).
  assert (He : (i <= e <= cap)%Z).
  { unfold e. split; [apply next_heading_cap_lower; lia|].
    apply next_heading_cap_upper. }
  destruct (slice_window lines i e) as (l & ->); [lia | lia |].
  destruct (join_cons [nl] (nth (Z.to_nat i) lines []) l) as (rest & ->).
  apply strip_first_line. unfold recorded in Hrec.
  destruct (strip (nth (Z.to_nat i) lines [])); [discriminate|].
  discriminate.
Qed.

End SectionText.

(* ===================================================================== *)
(** * Further properties of target normalization *)
(* ===================================================================== *)

Section NormalForms.
Import PyStr LineWindow Shape Props.

Lemma char_lower_fixed_not_upper (c : ascii) :
  char_lower c = c -> is_upper c = false.
Proof.
  destruct c as [[] [] [] [] [] [] [] []]; vm_compute;
    solve [reflexivity | discriminate].
Qed.

(** X14. A normalized target name has no white space at its ends, its
    white space consists of single spaces, lower-casing it again changes
    nothing, and it has none of the capital letters of the code points
    U+0000..U+00FF, which are [A-Z] and U+00C0..U+00DE without the
    multiplication sign. *)
Theorem normalize_target_shape (name : str) :
  no_lead (normalize_target name)
  /\ no_trail (normalize_target name)
  /\ collapsed false (normalize_target name)
  /\ lower (normalize_target name) = normalize_target name
  /\ Forall (fun c => is_upper c = false) (normalize_target name).
Proof.
  destruct (normalize_target_canonical name) as (H1 & H2 & H3 & H4).
  repeat (split; [assumption|]). split.
  - now apply lower_fixed.
  - eapply Forall_impl; [|exact H4]. apply char_lower_fixed_not_upper.
Qed.

Lemma lstrip_lower (s : str) : lstrip (lower s) = lower (lstrip s).
Proof.
  induction s as [|c s IH]; simpl; [reflexivity|].
  rewrite is_space_char_lower. now destruct (is_space c).
Qed.

Lemma strip_lower (s : str) : strip (lower s) = lower (strip s).
Proof.
  unfold strip, rstrip. rewrite lstrip_lower. unfold lower at 1.
  rewrite <- map_rev. fold (lower (rev (lstrip s))).
  rewrite lstrip_lower. unfold lower. now rewrite map_rev.
Qed.

Lemma lower_idem (s : str) : lower (lower s) = lower s.
Proof.
  unfold lower. rewrite map_map. apply map_ext. apply char_lower_idem.
Qed.

Lemma lstrip_blank (w : str) :
  Forall (fun c => is_space c = true) w -> lstrip w = [].
Proof. induction 1 as [|c w Hc _ IH]; simpl; [reflexivity | now rewrite Hc]. Qed.

Lemma strip_padding (w1 x w2 : str) :
  Forall (fun c => is_space c = true) w1 ->
  Forall (fun c => is_space c = true) w2 ->
  strip (w1 ++ x ++ w2) = strip x.
Proof.
  intros H1 H2. unfold strip.
  rewrite (lstrip_app_blank w1 _ (lstrip_blank _ H1)).
  destruct (lstrip x) as [|c r] eqn:E.
  - rewrite (lstrip_app_blank x w2 E), (lstrip_blank _ H2). reflexivity.
  - rewrite lstrip_app_nonblank by (rewrite E; discriminate). rewrite E.
    unfold rstrip. rewrite rev_app_distr.
    rewrite lstrip_app_blank; [reflexivity|].
    apply lstrip_blank. apply Forall_rev. exact H2.
Qed.

(** X15. Normalization ignores letter case and white space around the
    name: a name, its lower-case form and the name padded with white space
    have the same normal form. *)
Theorem normalize_target_insensitive (x : str) :
  normalize_target (lower x) = normalize_target x
  /\ forall w1 w2,
      Forall (fun c => is_space c = true) w1 ->
      Forall (fun c => is_space c = true) w2 ->
      normalize_target (w1 ++ x ++ w2) = normalize_target x.
Proof.
  split.
  - unfold normalize_target. now rewrite strip_lower, lower_idem.
  - intros w1 w2 H1 H2. unfold normalize_target.
    now rewrite strip_padding.
Qed.

End NormalForms.

(* ===================================================================== *)
(** * Further properties of the LLM bridge *)
(* ===================================================================== *)

Section LlmOutcomes.
Import PyStr PyDict LlmBridge Props.

Variable getenv : str -> option str.
Variable openai_importable : bool.
Variable client_init : str -> bool.
Variable chat_completion : request -> response.
Variable json_dumps : json -> str.
Variable json_loads : str -> option json.

Let run (text : str) (targets : list str) (model : str)
    (api_key : option str) (max_tokens : Z) :=
  llm_extract_covenants getenv openai_importable client_init
                        chat_completion json_dumps json_loads
                        text targets model api_key max_tokens.

Lemma get_set_other (V : Type) (d : dict V) (k c : str) (v : V) :
  k <> c -> get (set d k v) c = get d c.
Proof.
  intros Hne. induction d as [|(k', w) d IH]; simpl.
  - now rewrite (proj2 (str_eqb_neq k c) Hne).
  - destruct (str_eqb k' k) eqn:E; simpl.
    + apply str_eqb_eq in E. subst k'.
      now rewrite (proj2 (str_eqb_neq k c) Hne).
    + destruct (str_eqb k' c); [reflexivity | exact IH].
Qed.

(** The loop that fills the result stores, for every canonical target, the
    entry computed from the parsed answer. *)
Lemma fill_result_spec (data : json) :
  forall cts result0 result,
    fill_result data cts result0 = Some result ->
    (forall c, In c cts -> get result c = entry_of data c)
    /\ (forall c, ~ In c cts -> get result c = get result0 c).
Proof.
  induction cts as [|t cts IH]; intros result0 result H; simpl in H.
  - injection H as <-. split; [intros c [] | reflexivity].
  - destruct (entry_of data t) as [e|] eqn:E; [|discriminate].
    destruct (IH _ _ H) as (H1 & H2). split.
    + intros c [<- | Hc].
      * destruct (in_dec (list_eq_dec Ascii.ascii_dec) t cts) as [Hin | Hn].
        -- now apply H1.
        -- rewrite (H2 t Hn), get_set_same. now symmetry.
      * now apply H1.
    + intros c Hc. rewrite H2 by (intros F; apply Hc; now right).
      apply get_set_other. intros ->. apply Hc. now left.
Qed.

Lemma entry_of_keys (data : json) (c : str) (e : dict json) :
  entry_of data c = Some e -> keys e = entry_keys.
Proof.
  unfold entry_of. destruct data; try discriminate.
  intros [= <-]. reflexivity.
Qed.

(** The ways in which [llm_extract_covenants] runs. *)
Lemma llm_run_cases (text : str) (targets : list str) (model : str)
      (api_key : option str) (max_tokens : Z) :
  exists env_read,
    (env_read = [] \/ env_read = [Getenv (py "OPENAI_API_KEY")])
    /\ ((has_credential api_key (getenv (py "OPENAI_API_KEY")) = false
         /\ run text targets model api_key max_tokens
            = (env_read, Returns []))
        \/ (has_credential api_key (getenv (py "OPENAI_API_KEY")) = true
            /\ openai_importable = false
            /\ run text targets model api_key max_tokens
               = (env_read ++ [ImportOpenAI], Returns []))
        \/ (has_credential api_key (getenv (py "OPENAI_API_KEY")) = true
            /\ openai_importable = true
            /\ exists key,
                 or_else api_key (getenv (py "OPENAI_API_KEY")) = Some key
                 /\ ((client_init key = false
                      /\ run text targets model api_key max_tokens
                         = (env_read ++ [ImportOpenAI; ClientInit key],
                            Raises))
                     \/ (client_init key = true
                         /\ exists req,
                           let trace :=
                             env_read ++ [ImportOpenAI; ClientInit key;
                                          NetworkCall req] in
                           ((chat_completion req = CallFails
                             \/ chat_completion req = NoChoice)
                            /\ run text targets model api_key max_tokens
                               = (trace, Raises))
                           \/ (exists c result,
                                  chat_completion req = Content c
                                  /\ run text targets model api_key
                                         max_tokens
                                     = (trace, Returns result)
                                  /\ (result = []
                                      \/ exists data,
                                          fill_result data
                                            (map LineWindow.normalize_target
                                                 targets) []
                                          = Some result)))))).
Proof.
  unfold run, llm_extract_covenants, has_credential.
  exists (match api_key with
          | Some (_ :: _) => []
          | _ => [Getenv (py "OPENAI_API_KEY")]
          end).
  split; [destruct api_key as [[|? ?]|]; auto|].
  destruct (or_else api_key (getenv (py "OPENAI_API_KEY"))) as [[|c key]|].
  - left. split; reflexivity.
  - right. destruct openai_importable.
    + right. split; [reflexivity|]. split; [reflexivity|].
      exists (c :: key). split; [reflexivity|].
      cbv beta iota zeta delta [negb].
      destruct (client_init (c :: key)).
      * right. split; [reflexivity|].
        match goal with
        | |- context [chat_completion ?r] => exists r; set (req := r)
        end.
        destruct (chat_completion req) as [| |content].
        -- left. split; [now left | reflexivity].
        -- left. split; [now right | reflexivity].
        -- right. exists content.
           destruct (json_loads _) as [data|].
           ++ destruct (fill_result data _ []) as [result|] eqn:F.
              ** exists result. split; [reflexivity|].
                 split; [reflexivity|]. right. now exists data.
              ** exists []. split; [reflexivity|]. split; [reflexivity|].
                 now left.
           ++ exists []. split; [reflexivity|]. split; [reflexivity|].
              now left.
      * left. split; reflexivity.
    + left. split; [reflexivity|]. split; reflexivity.
  - left. split; reflexivity.
Qed.

Lemma env_read_only (env_read tail : list event) (e : event) :
  (env_read = [] \/ env_read = [Getenv (py "OPENAI_API_KEY")]) ->
  (forall name, e <> Getenv name) ->
  In e (env_read ++ tail) -> In e tail.
Proof.
  intros [-> | ->] Hne H; simpl in H; [exact H|].
  destruct H as [H | H]; [|exact H]. exfalso. now apply (Hne _ (eq_sym H)).
Qed.

Ltac tail_event Henv Hin :=
  apply (env_read_only _ _ _ Henv) in Hin;
  [|let name := fresh in let F := fresh in intros name F; discriminate F].

(** X16. [llm_extract_covenants] lets an exception escape in exactly these
    cases: the construction of the client fails; or a request was sent and
    either the call for it failed or the content of its completion cannot
    be read.  A missing credential, a missing package, an answer that does
    not parse and an answer that is not an object all give a mapping. *)
Theorem llm_escaping_exceptions (text : str) (targets : list str)
        (model : str) (api_key : option str) (max_tokens : Z) :
  snd (run text targets model api_key max_tokens) = Raises
  <-> (exists key,
          In (ClientInit key)
             (fst (run text targets model api_key max_tokens))
          /\ client_init key = false)
      \/ (exists req,
             In (NetworkCall req)
                (fst (run text targets model api_key max_tokens))
             /\ (chat_completion req = CallFails
                 \/ chat_completion req = NoChoice)).
Proof.
  destruct (llm_run_cases text targets model api_key max_tokens)
    as (env_read & Henv
        & [(_ & ->)
          | [(_ & _ & ->)
            | (_ & _ & key & _
               & [(Hk & ->)
                 | (Hk & req
                    & [(Hc & ->) | (c & result & Hc & -> & _)])])]]);
    cbn [fst snd].
  - split; [discriminate|].
    intros [(k & Hin & _) | (r & Hin & _)];
      rewrite <- (app_nil_r env_read) in Hin; tail_event Henv Hin;
      destruct Hin.
  - split; [discriminate|].
    intros [(k & Hin & _) | (r & Hin & _)]; tail_event Henv Hin;
      destruct Hin as [H | []]; discriminate H.
  - split; [intros _ | reflexivity]. left. exists key. split; [|exact Hk].
    apply in_or_app. right. right. now left.
  - split; [intros _ | reflexivity]. right. exists req. split; [|exact Hc].
    apply in_or_app. right. right. right. now left.
  - split; [discriminate|].
    intros [(k & Hin & Hf) | (r & Hin & Hr)]; tail_event Henv Hin.
    + destruct Hin as [H | [H | [H | []]]]; try discriminate H.
      injection H as <-. congruence.
    + destruct Hin as [H | [H | [H | []]]]; try discriminate H.
      injection H as <-. destruct Hr; congruence.
Qed.

(** X17. A network call is made exactly when a credential is present, the
    package can be imported and the client can be constructed with the
    credential, and then only once. *)
Theorem llm_network_calls (text : str) (targets : list str)
        (model : str) (api_key : option str) (max_tokens : Z) :
  existsb is_network_call (fst (run text targets model api_key max_tokens))
  = has_credential api_key (getenv (py "OPENAI_API_KEY"))
    && openai_importable
    && client_ready client_init api_key (getenv (py "OPENAI_API_KEY"))
  /\ length (filter is_network_call
                    (fst (run text targets model api_key max_tokens))) <= 1.
Proof.
  unfold client_ready.
  destruct (llm_run_cases text targets model api_key max_tokens)
    as (env_read & Henv
        & [(-> & ->)
          | [(-> & -> & ->)
            | (-> & -> & key & ->
               & [(-> & ->)
                 | (-> & req
                    & [(Hc & ->) | (c & result & Hc & -> & _)])])]]);
    cbn [fst snd]; destruct Henv as [-> | ->]; simpl; split; auto.
Qed.

(** X18. A mapping that [llm_extract_covenants] returns is empty or has an
    entry for every requested target, under its normal form, with the keys
    title, excerpt and rationale; and it has no other key. *)
Theorem llm_entries (text : str) (targets : list str)
        (model : str) (api_key : option str) (max_tokens : Z)
        (result : dict (dict json)) :
  snd (run text targets model api_key max_tokens) = Returns result ->
  result = []
  \/ ((forall t, In t targets ->
                 exists e,
                   get result (LineWindow.normalize_target t) = Some e
                   /\ keys e = entry_keys)
      /\ (forall c, In c (keys result) ->
                    exists t, In t targets
                              /\ c = LineWindow.normalize_target t)).
Proof.
  destruct (llm_run_cases text targets model api_key max_tokens)
    as (env_read & Henv
        & [(_ & ->)
          | [(_ & _ & ->)
            | (_ & _ & key & _
               & [(_ & ->)
                 | (_ & req
                    & [(Hc & ->) | (c & result' & Hc & -> & Hres)])])]]);
    cbn [fst snd]; intros H; try (injection H as <-; now left);
    try discriminate H.
  injection H as ->. destruct Hres as [-> | (data & Hfill)]; [now left|].
  right. destruct (fill_result_spec _ _ _ _ Hfill) as (H1 & H2). split.
  - intros t Ht.
    assert (Hin : In (LineWindow.normalize_target t)
                     (map LineWindow.normalize_target targets))
      by (now apply in_map).
    specialize (H1 _ Hin).
    destruct (entry_of data (LineWindow.normalize_target t)) as [e|] eqn:E.
    + exists e. split; [exact H1 | eapply entry_of_keys; eauto].
    + exfalso. clear -Hfill Hin E.
      revert Hfill. generalize (@nil (str * dict json)).
      induction (map LineWindow.normalize_target targets) as [|u cts IH];
        [contradiction|].
      intros r0 Hfill. simpl in Hfill.
      destruct (entry_of data u) eqn:Eu; [|discriminate].
      destruct Hin as [-> | Hin]; [congruence | eauto].
  - intros k Hk.
    destruct (in_dec (list_eq_dec Ascii.ascii_dec) k
                     (map LineWindow.normalize_target targets))
      as [Hin | Hn].
    + apply in_map_iff in Hin. destruct Hin as (t & <- & Ht). now exists t.
    + exfalso. apply get_keys in Hk. destruct Hk as (e & He).
      rewrite (H2 k Hn) in He. discriminate.
Qed.

End LlmOutcomes.

(* ===================================================================== *)
(** * Reports and convenience functions of the span-based extractor *)
(* ===================================================================== *)

Section Reports.
Import PyStr PyNum PyDict SpanBased SpanReport Spec Shape Props.

Lemma sum_counts_set (counts : dict Z) (k : str) (v : Z) :
  sum_counts (set counts k v)
  = (sum_counts counts + v
     - match get counts k with Some old => old | None => 0 end)%Z.
Proof.
  induction counts as [|(k', w) d IH]; simpl; [lia|].
  destruct (str_eqb k' k); simpl; [lia|]. rewrite IH. lia.
Qed.

Lemma get_set (V : Type) (d : dict V) (k c : str) (v : V) :
  get (set d k v) c = if str_eqb k c then Some v else get d c.
Proof.
  destruct (str_eqb k c) eqn:E.
  - apply str_eqb_eq in E. subst c. apply get_set_same.
  - apply str_eqb_neq in E. now apply get_set_other.
Qed.

Lemma count_of_type_snoc (covenant_type : str)
      (done : list CovenantSection) (s : CovenantSection) :
  count_of_type covenant_type (done ++ [s])
  = (count_of_type covenant_type done
     + if str_eqb (section_type s) covenant_type then 1 else 0)%Z.
Proof.
  unfold count_of_type. rewrite filter_app, length_app. simpl.
  destruct (str_eqb (section_type s) covenant_type); simpl; lia.
Qed.

Lemma count_section_counted (counts : dict Z) (done : list CovenantSection)
      (s : CovenantSection) :
  counted counts done ->
  exists counts',
    count_section (Some counts) s = Some counts'
    /\ counted counts' (done ++ [s]).
Proof.
  intros (Hnd & Hget & Hsum). unfold count_section.
  set (ty := section_type s).
  set (n := count_of_type ty done).
  assert (Hn : (0 <= n)%Z) by (unfold n, count_of_type; lia).
  set (counts1 := match get counts ty with
                  | None => set counts ty 0%Z
                  | Some _ => counts
                  end).
  assert (H1 : get counts1 ty = Some n
               /\ NoDup (keys counts1)
               /\ sum_counts counts1 = sum_counts counts
               /\ forall c, c <> ty -> get counts1 c = get counts c).
  { unfold counts1. pose proof (Hget ty) as G. fold n in G.
    destruct (n =? 0)%Z eqn:E.
    - rewrite G. apply Z.eqb_eq in E. rewrite E.
      split; [apply get_set_same|]. split; [now apply keys_set_NoDup|].
      split; [rewrite sum_counts_set, G; lia|].
      intros c Hc. apply get_set_other. congruence.
    - rewrite G. auto. }
  destruct H1 as (G1 & Hnd1 & Hsum1 & Hother). rewrite G1.
  eexists. split; [reflexivity|]. split; [now apply keys_set_NoDup|]. split.
  - intros c. rewrite count_of_type_snoc, get_set. fold ty.
    destruct (str_eqb ty c) eqn:E.
    + apply str_eqb_eq in E. subst c. fold n.
      destruct (n + 1 =? 0)%Z eqn:E0; [apply Z.eqb_eq in E0; lia|].
      reflexivity.
    + rewrite Z.add_0_r. rewrite Hother; [apply Hget|].
      apply str_eqb_neq in E. congruence.
  - rewrite sum_counts_set, G1, Hsum1, Hsum, length_app. simpl. lia.
Qed.

Lemma count_sections_counted :
  forall rest done counts,
    counted counts done ->
    exists counts',
      fold_left count_section rest (Some counts) = Some counts'
      /\ counted counts' (done ++ rest).
Proof.
  induction rest as [|s rest IH]; intros done counts H.
  - exists counts. now rewrite app_nil_r.
  - change (fold_left count_section (s :: rest) (Some counts))
      with (fold_left count_section rest (count_section (Some counts) s)).
    destruct (count_section_counted counts done s H) as (c1 & -> & H1).
    destruct (IH _ _ H1) as (c2 & -> & H2).
    exists c2. split; [reflexivity|]. now rewrite <- app_assoc in H2.
Qed.

(** X19. The report of [save_results] is always built (the increment finds
    its key): it counts every type that occurs, with the number of sections
    of that type, lists no other type and no type twice, and its counts add
    up to [total_sections], the number of sections. *)
Theorem save_results_counts (sections : list CovenantSection) :
  exists r,
    save_results sections = Some r
    /\ total_sections r = Z.of_nat (length sections)
    /\ NoDup (keys (sections_by_type r))
    /\ (forall covenant_type,
           get (sections_by_type r) covenant_type
           = if (count_of_type covenant_type sections =? 0)%Z then None
             else Some (count_of_type covenant_type sections))
    /\ sum_counts (sections_by_type r) = total_sections r.
Proof.
  assert (H0 : counted [] []).
  { split; [constructor|]. split; [reflexivity | reflexivity]. }
  destruct (count_sections_counted sections [] [] H0)
    as (counts & Hfold & Hnd & Hget & Hsum).
  change ([] ++ sections) with sections in Hnd, Hget, Hsum.
  unfold save_results.
  match goal with
  | |- context [fold_left ?f ?l ?a] =>
      replace (fold_left f l a) with (Some counts)
        by (symmetry; exact Hfold)
  end.
  eexists. split; [reflexivity|]. simpl. auto.
Qed.

(** X20. The preview that [display_results] shows has at most 203
    characters and no line feed, and a content of at most 200 characters
    without line feed is shown as it is. *)
Theorem content_preview_bounds (section : CovenantSection) :
  length (content_preview section) <= 203
  /\ Forall (fun c => c <> nl) (content_preview section)
  /\ (length (content section) <= 200 ->
      Forall (fun c => c <> nl) (content section) ->
      content_preview section = content section).
Proof.
  unfold content_preview, replace1. split; [|split].
  - rewrite length_map.
    destruct (200 <? length (content section)) eqn:E.
    + unfold slice_to. rewrite length_app, length_firstn.
      change (length (py "...")) with 3.
      rewrite slice_index_nonneg by lia. lia.
    + apply Nat.ltb_ge in E. lia.
  - apply Forall_forall. intros c Hc. apply in_map_iff in Hc.
    destruct Hc as (d & <- & _).
    destruct (Ascii.eqb d nl) eqn:E; [discriminate|].
    now apply Ascii.eqb_neq.
  - intros Hlen Hnl.
    rewrite (proj2 (Nat.ltb_ge _ _) Hlen).
    induction Hnl as [|d l Hd _ IH]; simpl; [reflexivity|].
    rewrite (proj2 (Ascii.eqb_neq d nl) Hd). f_equal.
    apply IH. simpl in Hlen. lia.
Qed.

End Reports.

(* ===================================================================== *)
(** * The convenience function of the span-based extractor *)
(* ===================================================================== *)

Section Convenience.
Import PyStr PyNum PyDict SpanBased SpanReport Spec Shape Props.

Variable re_finditer : str -> list re_flag -> str -> list re_match.
Variable str_title : str -> str.

Lemma extract_by_type_typed (text covenant_type : str)
      (l : list CovenantSection) (s : CovenantSection) :
  extract_by_type re_finditer str_title text covenant_type = Some l ->
  In s l ->
  section_type s = covenant_type /\ part_of (content s) text.
Proof.
  unfold extract_by_type.
  destruct (get covenant_patterns covenant_type) as [config|];
    [|discriminate].
  intros [= <-] H.
  apply (proj1 (proj2 (deduplicate_sections_facts _))) in H.
  apply candidates_of_type_typed in H. tauto.
Qed.

Lemma extend_by_types_spec (text : str) :
  forall covenant_types sections,
    (extend_by_types re_finditer str_title text covenant_types sections = None
     <-> exists covenant_type,
        In covenant_type covenant_types
        /\ get covenant_patterns covenant_type = None)
    /\ (forall out s,
           extend_by_types re_finditer str_title text covenant_types sections
           = Some out ->
           In s out ->
           In s sections
           \/ (In (section_type s) covenant_types
               /\ part_of (content s) text)).
Proof.
  induction covenant_types as [|ty rest IH]; intros sections;
    cbn [extend_by_types].
  - split.
    + split; [discriminate | intros (c & [] & _)].
    + intros out s [= <-] H. now left.
  - destruct (extract_by_type re_finditer str_title text ty) as [found|] eqn:E.
    + destruct (IH (sections ++ found)) as (IHn & IHs). split.
      * rewrite IHn. split.
        -- intros (c & Hc & G). exists c. split; [now right | exact G].
        -- intros (c & [<- | Hc] & G).
           ++ unfold extract_by_type in E. rewrite G in E. discriminate.
           ++ exists c. split; assumption.
      * intros out s Hout Hs.
        destruct (IHs out s Hout Hs) as [H | (H & Hp)].
        -- apply in_app_or in H. destruct H as [H | H]; [now left|].
           right. destruct (extract_by_type_typed _ _ _ _ E H) as (Hty & Hp).
           split; [left; now symmetry | exact Hp].
        -- right. split; [now right | exact Hp].
    + split.
      * split; [intros _ | reflexivity].
        exists ty. split; [now left|].
        unfold extract_by_type in E.
        destruct (get covenant_patterns ty); [discriminate | reflexivity].
      * discriminate.
Qed.

(** X21. [extract_covenants_regex] raises exactly when one of the requested
    types is unknown, whatever the text; when types are requested, every
    returned section has one of them and its content is a part of the
    text. *)
Theorem extract_covenants_regex_types (text : str)
        (covenant_types : list str) :
  (extract_covenants_regex re_finditer str_title text (Some covenant_types)
   = None
   <-> exists covenant_type,
      In covenant_type covenant_types
      /\ get covenant_patterns covenant_type = None)
  /\ (forall out s,
         covenant_types <> [] ->
         extract_covenants_regex re_finditer str_title text
           (Some covenant_types) = Some out ->
         In s out ->
         In (section_type s) covenant_types /\ part_of (content s) text).
Proof.
  destruct covenant_types as [|ty rest].
  - split.
    + split; [discriminate | intros (c & [] & _)].
    + intros out s H. now contradiction H.
  - unfold extract_covenants_regex.
    destruct (extend_by_types_spec text (ty :: rest) []) as (Hn & Hs).
    split; [exact Hn|].
    intros out s _ Hout Hin.
    destruct (Hs out s Hout Hin) as [[] | H]. exact H.
Qed.

End Convenience.

(* ===================================================================== *)
(** * The evaluation metrics *)
(* ===================================================================== *)

Section EvaluationFacts.
Import PyStr PyNum PyDict SpanBased Evaluation.

Lemma len_Q_cons (A : Type) (x : A) (l : list A) :
  (len_Q (x :: l) == len_Q l + 1)%Q.
Proof.
  unfold len_Q. cbn [length]. rewrite Nat2Z.inj_succ. unfold Z.succ.
  now rewrite inject_Z_plus.
Qed.

Lemma len_Q_nonneg (A : Type) (l : list A) : (0 <= len_Q l)%Q.
Proof.
  unfold len_Q. change 0%Q with (inject_Z 0). rewrite <- Zle_Qle. lia.
Qed.

Lemma len_Q_le (A B : Type) (l : list A) (l' : list B) :
  length l <= length l' -> (len_Q l <= len_Q l')%Q.
Proof. intros H. unfold len_Q. rewrite <- Zle_Qle. lia. Qed.

Lemma sum_confidence_from (sections : list CovenantSection) :
  (forall s, In s sections -> (0 <= confidence s <= 1)%Q) ->
  forall acc,
    (acc <= fold_left (fun acc s => acc + confidence s) sections acc
     <= acc + len_Q sections)%Q.
Proof.
  induction sections as [|s l IH]; intros H acc.
  - cbn [fold_left].
    assert (E : (len_Q (@nil CovenantSection) == 0)%Q) by reflexivity.
    lra.
  - cbn [fold_left].
    assert (Hs := H s (or_introl eq_refl)).
    assert (Hl : forall x, In x l -> (0 <= confidence x <= 1)%Q)
      by (intros x Hx; apply H; now right).
    specialize (IH Hl (acc + confidence s)%Q).
    pose proof (len_Q_cons _ s l) as E. lra.
Qed.

Lemma Qdiv_unit (a b : Q) :
  (0 <= a <= b)%Q -> (0 < b)%Q -> (0 <= a / b <= 1)%Q.
Proof.
  intros Ha Hb. split.
  - apply Qle_shift_div_l; [exact Hb | lra].
  - apply Qle_shift_div_r; [exact Hb | lra].
Qed.

Lemma set_mem_In (x : str) (members : list str) :
  set_mem x members = true <-> In x members.
Proof.
  unfold set_mem. rewrite existsb_exists. split.
  - intros (y & Hy & E). apply str_eqb_eq in E. now subst.
  - intros H. exists x. split; [exact H | apply str_eqb_refl].
Qed.

Lemma types_found_from (sections : list CovenantSection) :
  forall members,
    NoDup members ->
    let out := fold_left (fun members s => set_add members (section_type s))
                         sections members in
    NoDup out
    /\ (forall x, In x out <->
                  In x members \/ In x (map section_type sections)).
Proof.
  induction sections as [|s l IH]; intros members Hnd; cbn [fold_left map].
  - split; [exact Hnd|]. intros x. cbn [In]. tauto.
  - assert (Hadd : NoDup (set_add members (section_type s))
                   /\ forall x, In x (set_add members (section_type s))
                                <-> In x members \/ section_type s = x).
    { unfold set_add. destruct (set_mem (section_type s) members) eqn:E.
      - split; [exact Hnd|]. intros x. split; [tauto|].
        intros [H | <-]; [exact H | now apply set_mem_In].
      - assert (Hn : ~ In (section_type s) members).
        { intros H. apply set_mem_In in H. congruence. }
        split.
        + apply NoDup_app; [exact Hnd | repeat constructor; intros [] |].
          intros x Hx [<- | []]. contradiction.
        + intros x. rewrite in_app_iff. cbn [In]. tauto. }
    destruct Hadd as (Hnd' & Hin).
    destruct (IH _ Hnd') as (H1 & H2). split; [exact H1|].
    intros x. rewrite H2, Hin. cbn [In]. tauto.
Qed.

Lemma types_found_spec (sections : list CovenantSection) :
  NoDup (types_found sections)
  /\ (forall x, In x (types_found sections)
                <-> In x (map section_type sections)).
Proof.
  destruct (types_found_from sections [] (NoDup_nil _)) as (H1 & H2).
  split; [exact H1|]. intros x. unfold types_found. rewrite H2.
  cbn [In]. tauto.
Qed.

Lemma f1_unit (p r : Q) :
  (0 <= p <= 1)%Q -> (0 <= r <= 1)%Q ->
  (0 <= (if Qlt_bool 0 (p + r) then 2 * (p * r) / (p + r) else 0) <= 1)%Q.
Proof.
  intros Hp Hr. destruct (Qlt_bool 0 (p + r)) eqn:E; [|lra].
  apply Qlt_bool_iff in E.
  assert (H1 : (0 <= p * r)%Q) by (apply Qmult_le_0_compat; lra).
  assert (H2 : (0 <= p * (1 - r))%Q) by (apply Qmult_le_0_compat; lra).
  assert (H3 : (0 <= r * (1 - p))%Q) by (apply Qmult_le_0_compat; lra).
  apply Qdiv_unit; [|exact E]. split; [lra|].
  assert (E1 : (p * (1 - r) == p - p * r)%Q) by ring.
  assert (E2 : (r * (1 - p) == r - p * r)%Q) by ring.
  lra.
Qed.

(** The metrics of a list of sections whose confidences and types are
    as the extractors produce them. *)
Lemma metrics_unit (V : Type) (sections : list CovenantSection)
      (ground_truth : option (dict V)) :
  (forall s, In s sections -> (0 <= confidence s <= 1)%Q) ->
  (forall s, In s sections -> In (section_type s) covenant_types) ->
  let m := evaluate_extraction_quality sections ground_truth in
  (0 <= precision m <= 1)%Q
  /\ (0 <= recall m <= 1)%Q
  /\ (0 <= f1_score m <= 1)%Q
  /\ (0 <= coverage m <= 1)%Q
  /\ (0 <= avg_confidence m <= 1)%Q.
Proof.
  intros Hconf Hty.
  assert (Hcov : (0 <= len_Q (types_found sections) / len_Q covenant_types
                  <= 1)%Q).
  { apply Qdiv_unit; [|reflexivity].
    split; [apply len_Q_nonneg|]. apply len_Q_le.
    destruct (types_found_spec sections) as (Hnd & Hin).
    apply NoDup_incl_length; [exact Hnd|].
    intros x Hx. apply Hin in Hx. apply in_map_iff in Hx.
    destruct Hx as (s & <- & Hs). now apply Hty. }
  assert (Havg : sections <> [] ->
                 (0 <= sum_confidence sections / len_Q sections <= 1)%Q).
  { intros Hne. apply Qdiv_unit.
    - pose proof (sum_confidence_from sections Hconf 0%Q) as H.
      unfold sum_confidence. lra.
    - destruct sections as [|s0 l]; [congruence|].
      pose proof (len_Q_cons _ s0 l). pose proof (len_Q_nonneg _ l). lra. }
  unfold evaluate_extraction_quality. destruct sections as [|s0 l].
  - cbn. repeat split; lra.
  - specialize (Havg ltac:(discriminate)).
    pose proof (f1_unit _ _ Havg Hcov) as Hf.
    destruct (truthy ground_truth); cbn zeta;
      cbn [precision recall f1_score coverage avg_confidence];
      repeat split; tauto.
Qed.

(** X22. For sections with a confidence between 0 and 1 and a type of the
    evaluator's list, every metric of [evaluate_extraction_quality] lies
    between 0 and 1. *)
Theorem evaluate_extraction_quality_bounds (V : Type)
        (sections : list CovenantSection) (ground_truth : option (dict V)) :
  (forall s, In s sections -> (0 <= confidence s <= 1)%Q) ->
  (forall s, In s sections -> In (section_type s) covenant_types) ->
  let m := evaluate_extraction_quality sections ground_truth in
  (0 <= precision m <= 1)%Q
  /\ (0 <= recall m <= 1)%Q
  /\ (0 <= f1_score m <= 1)%Q
  /\ (0 <= coverage m <= 1)%Q
  /\ (0 <= avg_confidence m <= 1)%Q.
Proof. apply metrics_unit. Qed.

(** X23. The ground truth has no effect on the metrics: with or without
    it, the precision is the average confidence and the recall is the
    coverage. *)
Theorem ground_truth_is_ignored (V W : Type)
        (sections : list CovenantSection)
        (ground_truth : option (dict V)) (other : option (dict W)) :
  evaluate_extraction_quality sections ground_truth
  = evaluate_extraction_quality sections other
  /\ precision (evaluate_extraction_quality sections ground_truth)
     = avg_confidence (evaluate_extraction_quality sections ground_truth)
  /\ recall (evaluate_extraction_quality sections ground_truth)
     = coverage (evaluate_extraction_quality sections ground_truth).
Proof.
  unfold evaluate_extraction_quality. destruct sections as [|s0 l].
  - repeat split.
  - destruct (truthy ground_truth), (truthy other); repeat split.
Qed.

Section OnExtractedSections.

Variable re_finditer : str -> list re_flag -> str -> list re_match.
Variable str_title : str -> str.

(** The evaluator lists the types of the extractor, in the same order. *)
Lemma covenant_types_are_keys : keys covenant_patterns = covenant_types.
Proof. reflexivity. Qed.

(** X24. The metrics of what [extract_sections] returns lie between 0 and
    1, for every text: the extractor's confidences and types are within
    the evaluator's assumptions. *)
Theorem extracted_sections_metrics (V : Type) (text : str)
        (ground_truth : option (dict V)) :
  let m := evaluate_extraction_quality
             (extract_sections re_finditer str_title text) ground_truth in
  (0 <= precision m <= 1)%Q
  /\ (0 <= recall m <= 1)%Q
  /\ (0 <= f1_score m <= 1)%Q
  /\ (0 <= coverage m <= 1)%Q
  /\ (0 <= avg_confidence m <= 1)%Q.
Proof.
  apply metrics_unit.
  - intros s H. apply extract_sections_built in H.
    destruct H as (config & m & _ & -> & _). apply confidence_bounds.
  - intros s H. unfold extract_sections in H.
    apply (proj1 (proj2 (deduplicate_sections_facts _))) in H.
    apply in_flat_map in H. destruct H as ((ty & config) & Hin & H).
    apply candidates_of_type_typed in H. destruct H as (-> & _).
    rewrite <- covenant_types_are_keys. unfold keys.
    change ty with (fst (ty, config)). now apply in_map.
Qed.

End OnExtractedSections.

Section Overlap.

Variable ratio : str -> str -> Q.

Lemma existsb_Zeqb (x : Z) (l : list Z) :
  existsb (Z.eqb x) l = true <-> In x l.
Proof.
  rewrite existsb_exists. split.
  - intros (y & Hy & E). apply Z.eqb_eq in E. now subst.
  - intros H. exists x. split; [exact H | apply Z.eqb_refl].
Qed.

Lemma best_fold (s1 : CovenantSection) (matched_indices : list Z) (n : Z) :
  forall rest k best,
    (0 <= k)%Z ->
    (k + Z.of_nat (length rest) <= n)%Z ->
    (fst best = (-1)%Z
     \/ (0 <= fst best < n)%Z /\ ~ In (fst best) matched_indices) ->
    let out := fold_left (best_step ratio s1 matched_indices)
                         (enumerate_from k rest) best in
    fst out = (-1)%Z
    \/ (0 <= fst out < n)%Z /\ ~ In (fst out) matched_indices.
Proof.
  induction rest as [|s2 rest IH]; intros k best Hk Hn Hb;
    cbn [enumerate_from fold_left].
  - exact Hb.
  - cbn [length] in Hn. apply IH; [lia | lia |].
    unfold best_step. destruct best as (bi, bs).
    destruct (existsb (Z.eqb k) matched_indices) eqn:E; [exact Hb|].
    destruct (Qlt_bool bs _); [|exact Hb].
    destruct (Qlt_bool (PyFloat.literal (6 # 10)) _); [|exact Hb].
    right. cbn [fst]. split; [lia|].
    intros H. apply existsb_Zeqb in H. congruence.
Qed.

Lemma overlap_step_inv (sections2 : list CovenantSection)
      (s1 : CovenantSection) (overlap_count : Z) (matched_indices : list Z) :
  NoDup matched_indices ->
  (forall i, In i matched_indices ->
             (0 <= i < Z.of_nat (length sections2))%Z) ->
  overlap_count = Z.of_nat (length matched_indices) ->
  exists count' matched',
    overlap_step ratio sections2 (overlap_count, matched_indices) s1
    = (count', matched')
    /\ NoDup matched'
    /\ (forall i, In i matched' ->
                  (0 <= i < Z.of_nat (length sections2))%Z)
    /\ count' = Z.of_nat (length matched')
    /\ (overlap_count <= count' <= overlap_count + 1)%Z.
Proof.
  intros Hnd Hrange Hc. unfold overlap_step.
  pose proof (best_fold s1 matched_indices (Z.of_nat (length sections2))
                sections2 0%Z ((-1)%Z, 0%Q)) as Hbest.
  cbv zeta in Hbest.
  destruct (fold_left (best_step ratio s1 matched_indices)
                      (enumerate_from 0 sections2) ((-1)%Z, 0%Q))
    as (bi, bs).
  cbn [fst] in Hbest.
  specialize (Hbest (Z.le_refl 0) (Z.le_refl _) (or_introl eq_refl)).
  destruct (0 <=? bi)%Z eqn:E.
  - apply Z.leb_le in E.
    destruct Hbest as [Hb | (Hb & Hnot)]; [lia|].
    destruct (existsb (Z.eqb bi) matched_indices) eqn:Em.
    { apply existsb_Zeqb in Em. contradiction. }
    exists (overlap_count + 1)%Z, (bi :: matched_indices).
    split; [reflexivity|]. split; [now constructor|]. split.
    + intros i [<- | Hi]; [exact Hb | now apply Hrange].
    + cbn [length]. lia.
  - exists overlap_count, matched_indices.
    split; [reflexivity|]. split; [exact Hnd|]. split; [exact Hrange|]. lia.
Qed.

Lemma overlap_fold (sections2 : list CovenantSection) :
  forall sections1 overlap_count matched_indices,
    NoDup matched_indices ->
    (forall i, In i matched_indices ->
               (0 <= i < Z.of_nat (length sections2))%Z) ->
    overlap_count = Z.of_nat (length matched_indices) ->
    exists count' matched',
      fold_left (overlap_step ratio sections2) sections1
                (overlap_count, matched_indices) = (count', matched')
      /\ NoDup matched'
      /\ (forall i, In i matched' ->
                    (0 <= i < Z.of_nat (length sections2))%Z)
      /\ count' = Z.of_nat (length matched')
      /\ (overlap_count <= count'
          <= overlap_count + Z.of_nat (length sections1))%Z.
Proof.
  induction sections1 as [|s1 l IH];
    intros overlap_count matched_indices Hnd Hrange Hc; cbn [fold_left].
  - exists overlap_count, matched_indices.
    split; [reflexivity|]. split; [exact Hnd|]. split; [exact Hrange|].
    cbn [length]. lia.
  - destruct (overlap_step_inv sections2 s1 _ _ Hnd Hrange Hc)
      as (c1 & m1 & -> & Hnd1 & Hr1 & Hc1 & Hle1).
    destruct (IH c1 m1 Hnd1 Hr1 Hc1) as (c2 & m2 & -> & Hnd2 & Hr2 & Hc2 & Hle2).
    exists c2, m2. split; [reflexivity|]. split; [exact Hnd2|].
    split; [exact Hr2|]. split; [exact Hc2|]. cbn [length]. lia.
Qed.

Lemma indices_length (l : list Z) (n : nat) :
  NoDup l -> (forall i, In i l -> (0 <= i < Z.of_nat n)%Z) -> length l <= n.
Proof.
  intros Hnd H.
  rewrite <- (length_seq n 0), <- (length_map Z.of_nat).
  apply NoDup_incl_length; [exact Hnd|].
  intros i Hi. specialize (H i Hi).
  rewrite <- (Z2Nat.id i) by lia. apply in_map. apply in_seq. lia.
Qed.

(** X25. Whatever the similarity of the contents, the number of
    overlapping sections that [_count_overlapping_sections] reports is not
    negative and exceeds neither the number of sections of the first list
    nor that of the second: a section of the second list is matched at
    most once. *)
Theorem count_overlapping_sections_bounds
        (sections1 sections2 : list CovenantSection) :
  (0 <= _count_overlapping_sections ratio sections1 sections2)%Z
  /\ (_count_overlapping_sections ratio sections1 sections2
      <= Z.of_nat (length sections1))%Z
  /\ (_count_overlapping_sections ratio sections1 sections2
      <= Z.of_nat (length sections2))%Z.
Proof.
  unfold _count_overlapping_sections.
  destruct (overlap_fold sections2 sections1 0%Z [] (NoDup_nil _)
              (fun i (F : In i []) => match F with end) eq_refl)
    as (c & m & -> & H1 & H2 & H3 & H4).
  cbn [fst]. pose proof (indices_length _ _ H1 H2). lia.
Qed.

End Overlap.

End EvaluationFacts.

(* ===================================================================== *)
(** * The further properties on the sample inputs *)
(* ===================================================================== *)

Section OnWorlds.
Import PyStr PyDict Spec Shape Props Samples Worlds.

(** The span-based extractor on the one-sentence agreement. *)
Lemma sections_mention_their_type_witness :
  In covenant_text_section
     (SpanBased.extract_sections covenant_text_finditer no_title
                                 covenant_text)
  /\ exists config,
      In (SpanBased.section_type covenant_text_section, config)
         SpanBased.covenant_patterns
      /\ mentions config (SpanBased.content covenant_text_section).
Proof.
  assert (Hin : In covenant_text_section
                   (SpanBased.extract_sections covenant_text_finditer
                      no_title covenant_text))
    by (vm_compute; left; reflexivity).
  split; [exact Hin|].
  exact (proj1 (sections_mention_their_type covenant_text_finditer no_title
                  covenant_text)
               covenant_text_section Hin).
Defined.

Lemma content_is_part_of_text_witness :
  In covenant_text_section
     (SpanBased.extract_sections covenant_text_finditer no_title
                                 covenant_text)
  /\ part_of (SpanBased.content covenant_text_section) covenant_text
  /\ no_lead (SpanBased.content covenant_text_section)
  /\ no_trail (SpanBased.content covenant_text_section).
Proof.
  assert (Hin : In covenant_text_section
                   (SpanBased.extract_sections covenant_text_finditer
                      no_title covenant_text))
    by (vm_compute; left; reflexivity).
  split; [exact Hin|].
  exact (proj1 (content_is_part_of_text covenant_text_finditer no_title
                  covenant_text)
               covenant_text_section Hin).
Defined.

(** The line-window extractor on two matching lines, with the target in a
    list and in an iterator. *)
Lemma extract_covenants_keys_witness :
  (exists results,
      Iterables.extract_covenants_from_text two_matches
        (Iterables.Sequence [restricted_payments]) 120 = Some results
      /\ exists sections,
          get results (LineWindow.normalize_target restricted_payments)
          = Some sections)
  /\ Iterables.extract_covenants_from_text two_matches
       (Iterables.Iterator [restricted_payments]) 120 = None.
Proof.
  destruct (extract_covenants_keys two_matches [restricted_payments] 120)
    as ((results & E & _ & Hkeys) & Hraise & _).
  split.
  - exists results. split; [exact E|].
    apply (proj2 (Hkeys (LineWindow.normalize_target restricted_payments))).
    exists restricted_payments. split; [left; reflexivity | reflexivity].
  - apply (proj2 Hraise).
    exists restricted_payments, (py "restricted payments").
    split; [left; reflexivity|]. split; [left; reflexivity|].
    vm_compute. reflexivity.
Defined.

Lemma one_section_per_matching_line_witness :
  LineWindow.extract_covenants_from_text two_matches [restricted_payments] 120
  = Some [(restricted_payments, two_matches_sections)]
  /\ get [(restricted_payments, two_matches_sections)] restricted_payments
     = Some two_matches_sections
  /\ length two_matches_sections
     = length (filter (recorded (LineWindow.target_pattern
                                   restricted_payments))
                      (LineWindow._split_lines two_matches)).
Proof.
  assert (E : LineWindow.extract_covenants_from_text
                two_matches [restricted_payments] 120
              = Some [(restricted_payments, two_matches_sections)])
    by (vm_compute; reflexivity).
  assert (G : get [(restricted_payments, two_matches_sections)]
                  restricted_payments
              = Some two_matches_sections) by (vm_compute; reflexivity).
  split; [exact E|]. split; [exact G|].
  exact (one_section_per_matching_line _ _ _ _ _ _ E G).
Defined.

Lemma section_fields_witness :
  LineWindow.extract_covenants_from_text three_lines [restricted_payments] 1
  = Some [(restricted_payments, [three_lines_section])]
  /\ get [(restricted_payments, [three_lines_section])] restricted_payments
     = Some [three_lines_section]
  /\ In three_lines_section [three_lines_section]
  /\ LineWindow.target three_lines_section = restricted_payments
  /\ LineWindow.title three_lines_section <> [].
Proof.
  assert (E : LineWindow.extract_covenants_from_text three_lines
                [restricted_payments] 1
              = Some [(restricted_payments, [three_lines_section])])
    by (vm_compute; reflexivity).
  assert (G : get [(restricted_payments, [three_lines_section])]
                  restricted_payments
              = Some [three_lines_section]) by (vm_compute; reflexivity).
  assert (Hin : In three_lines_section [three_lines_section])
    by (left; reflexivity).
  split; [exact E|]. split; [exact G|]. split; [exact Hin|].
  pose proof (section_fields _ _ _ _ _ _ _ E G Hin) as H.
  cbv zeta in H. destruct H as (H1 & _ & _ & _ & H5 & _).
  split; [exact H1 | exact H5].
Defined.

Lemma no_heading_inside_section_witness :
  LineWindow.extract_covenants_from_text three_lines [restricted_payments] 1
  = Some [(restricted_payments, [three_lines_section])]
  /\ get [(restricted_payments, [three_lines_section])] restricted_payments
     = Some [three_lines_section]
  /\ In three_lines_section [three_lines_section]
  /\ (LineWindow.start_line three_lines_section <= 1
      < LineWindow.end_line three_lines_section)%Z
  /\ LineWindow.is_heading_line
       (nth (Z.to_nat 1) (LineWindow._split_lines three_lines) []) = false.
Proof.
  assert (E : LineWindow.extract_covenants_from_text three_lines
                [restricted_payments] 1
              = Some [(restricted_payments, [three_lines_section])])
    by (vm_compute; reflexivity).
  assert (G : get [(restricted_payments, [three_lines_section])]
                  restricted_payments
              = Some [three_lines_section]) by (vm_compute; reflexivity).
  assert (Hin : In three_lines_section [three_lines_section])
    by (left; reflexivity).
  assert (Hj : (LineWindow.start_line three_lines_section <= 1
                < LineWindow.end_line three_lines_section)%Z)
    by (simpl; lia).
  split; [exact E|]. split; [exact G|]. split; [exact Hin|].
  split; [exact Hj|].
  exact (no_heading_inside_section _ _ _ _ _ _ _ _ E G Hin Hj).
Defined.

Lemma section_text_begins_with_title_witness :
  (0 <= 1)%Z
  /\ LineWindow.extract_covenants_from_text three_lines
       [restricted_payments] 1
     = Some [(restricted_payments, [three_lines_section])]
  /\ get [(restricted_payments, [three_lines_section])] restricted_payments
     = Some [three_lines_section]
  /\ In three_lines_section [three_lines_section]
  /\ startswith (LineWindow.title three_lines_section)
                (LineWindow.text three_lines_section) = true.
Proof.
  assert (H0 : (0 <= 1)%Z) by discriminate.
  assert (E : LineWindow.extract_covenants_from_text three_lines
                [restricted_payments] 1
              = Some [(restricted_payments, [three_lines_section])])
    by (vm_compute; reflexivity).
  assert (G : get [(restricted_payments, [three_lines_section])]
                  restricted_payments
              = Some [three_lines_section]) by (vm_compute; reflexivity).
  assert (Hin : In three_lines_section [three_lines_section])
    by (left; reflexivity).
  split; [exact H0|]. split; [exact E|]. split; [exact G|].
  split; [exact Hin|].
  exact (section_text_begins_with_title _ _ _ _ _ _ _ H0 E G Hin).
Defined.

(** Normalization of a target between spaces. *)
Lemma normalize_target_insensitive_witness :
  Forall (fun c => is_space c = true) [space]
  /\ LineWindow.normalize_target
       ([space] ++ py "Restricted Payments" ++ [space])
     = LineWindow.normalize_target (py "Restricted Payments").
Proof.
  assert (H : Forall (fun c => is_space c = true) [space])
    by (constructor; [reflexivity | constructor]).
  split; [exact H|].
  exact (proj2 (normalize_target_insensitive (py "Restricted Payments"))
               [space] [space] H H).
Defined.

(** The LLM bridge in a world with a credential and a failing call. *)
Lemma llm_escaping_exceptions_witness :
  snd (LlmBridge.llm_extract_covenants key_env true any_client
         silent_model no_dumps no_loads covenant_text
         [restricted_payments] (py "gpt-4o-mini") None 800)
  = LlmBridge.Raises
  /\ snd (LlmBridge.llm_extract_covenants key_env true no_client
            silent_model no_dumps no_loads covenant_text
            [restricted_payments] (py "gpt-4o-mini") None 800)
     = LlmBridge.Raises.
Proof.
  split.
  - apply (proj2 (llm_escaping_exceptions key_env true any_client
                    silent_model no_dumps no_loads covenant_text
                    [restricted_payments] (py "gpt-4o-mini") None 800)).
    right. exists failing_request. split; [|left; reflexivity].
    right. right. right. left. reflexivity.
  - apply (proj2 (llm_escaping_exceptions key_env true no_client
                    silent_model no_dumps no_loads covenant_text
                    [restricted_payments] (py "gpt-4o-mini") None 800)).
    left. exists (py "key"). split; [|reflexivity].
    right. right. left. reflexivity.
Defined.

(** The LLM bridge in a world with a credential and an answer. *)
Lemma llm_entries_witness :
  snd (LlmBridge.llm_extract_covenants key_env true any_client
         answering_model no_dumps answer_loads covenant_text
         [restricted_payments] (py "gpt-4o-mini") None 800)
  = LlmBridge.Returns answer_result
  /\ (answer_result = []
      \/ ((forall t, In t [restricted_payments] ->
                     exists e,
                       get answer_result (LineWindow.normalize_target t)
                       = Some e
                       /\ keys e = entry_keys)
          /\ (forall c, In c (keys answer_result) ->
                        exists t, In t [restricted_payments]
                                  /\ c = LineWindow.normalize_target t))).
Proof.
  assert (E : snd (LlmBridge.llm_extract_covenants key_env true any_client
                     answering_model no_dumps answer_loads covenant_text
                     [restricted_payments] (py "gpt-4o-mini") None 800)
              = LlmBridge.Returns answer_result)
    by (vm_compute; reflexivity).
  split; [exact E|].
  exact (llm_entries _ _ _ _ _ _ _ _ _ _ _ _ E).
Defined.

(** The preview of the section of the one-sentence agreement. *)
Lemma content_preview_bounds_witness :
  length (SpanBased.content covenant_text_section) <= 200
  /\ SpanReport.content_preview covenant_text_section
     = SpanBased.content covenant_text_section.
Proof.
  assert (Hlen : length (SpanBased.content covenant_text_section) <= 200)
    by (vm_compute; lia).
  assert (Hnl : Forall (fun c => c <> nl)
                       (SpanBased.content covenant_text_section))
    by (repeat (constructor; [discriminate|]); constructor).
  split; [exact Hlen|].
  exact (proj2 (proj2 (content_preview_bounds covenant_text_section))
               Hlen Hnl).
Defined.

(** The convenience function with a known and with an unknown type. *)
Lemma extract_covenants_regex_types_witness :
  (SpanReport.extract_covenants_regex covenant_text_finditer no_title
     covenant_text (Some [py "restricted_payments"])
   = Some [covenant_text_section]
   /\ In (SpanBased.section_type covenant_text_section)
         [py "restricted_payments"])
  /\ SpanReport.extract_covenants_regex covenant_text_finditer no_title
       covenant_text (Some [py "dividends"])
     = None.
Proof.
  assert (E : SpanReport.extract_covenants_regex covenant_text_finditer
                no_title covenant_text (Some [py "restricted_payments"])
              = Some [covenant_text_section]) by (vm_compute; reflexivity).
  assert (Hne : [py "restricted_payments"] <> []) by discriminate.
  split.
  - split; [exact E|].
    exact (proj1 (proj2 (extract_covenants_regex_types
                           covenant_text_finditer no_title covenant_text
                           [py "restricted_payments"])
                        _ covenant_text_section Hne E
                        (or_introl eq_refl))).
  - apply (proj1 (extract_covenants_regex_types covenant_text_finditer
                    no_title covenant_text [py "dividends"])).
    exists (py "dividends"). split; [left; reflexivity | reflexivity].
Defined.

(** The metrics of the three candidates. *)
Lemma evaluate_extraction_quality_bounds_witness :
  (0 <= Evaluation.f1_score
          (Evaluation.evaluate_extraction_quality three_candidates
             (@None (dict Z))) <= 1)%Q.
Proof.
  assert (Hconf : forall s, In s three_candidates ->
                            (0 <= SpanBased.confidence s <= 1)%Q).
  { intros s [<- | [<- | [<- | []]]]; split; discriminate. }
  assert (Hty : forall s, In s three_candidates ->
                          In (SpanBased.section_type s)
                             Evaluation.covenant_types).
  { intros s [<- | [<- | [<- | []]]];
      do 6 right; left; reflexivity. }
  exact (proj1 (proj2 (proj2 (evaluate_extraction_quality_bounds
                                Z three_candidates None Hconf Hty)))).
Defined.

End OnWorlds.
